(** * Chess puzzle trainer: move validator and puzzle selector

    A shallow embedding of [core/move_validator.py], [core/puzzle_selector.py],
    [core/puzzle_manager.py] (rating buckets), [config/settings.py] and
    [config/constants.py], with the chess rules engine (the third-party
    [chess] package) taken as an interface. *)

From Stdlib Require Import String Ascii List ZArith Bool Lia.
Import ListNotations.
Local Open Scope string_scope.
Local Open Scope Z_scope.

(** ** Python values *)

Module Py.

(** The exception classes that reach the modelled code. *)
Inductive exn : Type :=
| ValueError
| IndexError
| AssertionError
| InvalidMoveError (msg : string)      (* utils.exceptions.InvalidMoveError *)
| PuzzleNotFoundError (msg : string).  (* utils.exceptions.PuzzleNotFoundError *)

(** [len(l)] as a Python int. *)
Definition len {A} (l : list A) : Z := Z.of_nat (length l).

(** [l[i]]: a negative index counts from the end, an index out of range
    raises [IndexError] (here [None]). *)
Definition index {A} (l : list A) (i : Z) : option A :=
  if (0 <=? i) && (i <? len l) then nth_error l (Z.to_nat i)
  else if (- len l <=? i) && (i <? 0) then nth_error l (Z.to_nat (len l + i))
  else None.

(** [l[1:]] *)
Definition slice_from_1 {A} (l : list A) : list A := tl l.

(** Whitespace as [str.strip()] sees it among the characters below 128:
    tab, line feed, vertical tab, form feed, carriage return, the four
    separators 0x1c..0x1f and space. *)
Definition is_space (c : ascii) : bool :=
  let n := Z.of_nat (nat_of_ascii c) in
  ((9 <=? n) && (n <=? 13)) || ((28 <=? n) && (n <=? 32)).

Fixpoint lstrip (s : string) : string :=
  match s with
  | String c s' => if is_space c then lstrip s' else s
  | EmptyString => EmptyString
  end.

Fixpoint rstrip (s : string) : string :=
  match s with
  | EmptyString => EmptyString
  | String c s' =>
      match rstrip s' with
      | EmptyString => if is_space c then EmptyString else String c EmptyString
      | r => String c r
      end
  end.

(** [s.strip()] *)
Definition strip (s : string) : string := rstrip (lstrip s).

(** Truthiness of an [Optional[str]]: [None] and [''] are false. *)
Definition truthy (o : option string) : bool :=
  match o with
  | Some s => negb (String.eqb s "")
  | None => false
  end.

End Py.

(** ** The chess rules engine, as the validator uses it

    Every operation of the [chess] package that the validator calls is a
    field; an operation that can raise returns [option] ([None] is the
    exception). [push] mutates the board object in place and may raise after
    it has started to do so: [push b m] is the board the call leaves behind
    and [push_ok b m] tells whether it returned normally. *)

Record ChessEngine : Type := {
  Board : Type;
  Move : Type;
  (** [chess.Board(fen)], [ValueError] on a malformed position string *)
  Board_of_fen : string -> option Board;
  (** [chess.Move.from_uci(s)], [ValueError] on malformed text *)
  from_uci : string -> option Move;
  (** [board.parse_san(s)], [ValueError] when [s] is no move of the position *)
  parse_san : Board -> string -> option Move;
  (** [move in board.legal_moves] *)
  is_legal : Board -> Move -> bool;
  (** [board.push(move)] *)
  push : Board -> Move -> Board;
  push_ok : Board -> Move -> bool;
  (** [board.san(move)], which expects a legal or null move *)
  san : Board -> Move -> option string;
  (** [move == other]: same from-square, to-square and promotion piece *)
  move_eqb : Move -> Move -> bool
}.

(** What the validator relies on when it pushes a move it has found legal:
    [push] returns normally on a legal move. *)
Definition legal_moves_push (E : ChessEngine) : Prop :=
  forall b m, is_legal E b m = true -> push_ok E b m = true.

(** ** data/models.py *)

Record Puzzle : Type := {
  puzzle_id : string;
  fen : string;
  moves : list string;
  rating : Z;
  rating_deviation : Z;
  popularity : Z;
  nb_plays : Z;
  themes : list string;
  game_url : string;
  opening_tags : list string;
  piece_count : Z
}.

(** [Puzzle.solution_moves]: [self.moves[1:]] *)
Definition puzzle_solution_moves (p : Puzzle) : list string :=
  Py.slice_from_1 (moves p).

(** ** core/move_validator.py *)

(** A call returns or raises. *)
Inductive outcome (A : Type) : Type :=
| Returns (a : A)
| Raises (e : Py.exn).
Arguments Returns {A} a.
Arguments Raises {A} e.

Module Validator.
Section WithEngine.

Context (E : ChessEngine).

(** The attributes of a [MoveValidator] instance. *)
Record MoveValidator : Type := {
  puzzle : Puzzle;
  board : Board E;
  solution_moves : list string;
  current_move_index : Z
}.

Definition set_board (self : MoveValidator) (b : Board E) : MoveValidator :=
  {| puzzle := puzzle self; board := b;
     solution_moves := solution_moves self;
     current_move_index := current_move_index self |}.

Definition set_index (self : MoveValidator) (i : Z) : MoveValidator :=
  {| puzzle := puzzle self; board := board self;
     solution_moves := solution_moves self;
     current_move_index := i |}.

(** A method call returns or raises, and leaves the object behind in
    either case. *)
Definition M (A : Type) : Type := MoveValidator -> outcome A * MoveValidator.

Definition ret {A} (a : A) : M A := fun self => (Returns a, self).
Definition raise {A} (e : Py.exn) : M A := fun self => (Raises e, self).
Definition bind {A B} (c : M A) (k : A -> M B) : M B :=
  fun self =>
    match c self with
    | (Returns a, self') => k a self'
    | (Raises e, self') => (Raises e, self')
    end.
Definition get : M MoveValidator := fun self => (Returns self, self).
Definition modify (f : MoveValidator -> MoveValidator) : M unit :=
  fun self => (Returns tt, f self).
(** an engine call that may raise [e] *)
Definition lift {A} (e : Py.exn) (o : option A) : M A :=
  fun self =>
    match o with
    | Some a => (Returns a, self)
    | None => (Raises e, self)
    end.

Notation "x <- c ;; k" := (bind c (fun x => k))
  (at level 61, c at next level, right associativity).
Notation "c ;;; k" := (bind c (fun _ => k))
  (at level 61, right associativity).

(** [self.board.push(move)] *)
Definition board_push (move : Move E) : M unit :=
  fun self =>
    let self' := set_board self (push E (board self) move) in
    if push_ok E (board self) move then (Returns tt, self')
    else (Raises Py.AssertionError, self').

(** [_setup_board]: builds a fresh board; reads only [self.puzzle]. *)
Definition _setup_board (p : Puzzle) : outcome (Board E) :=
  match Board_of_fen E (fen p) with
  | None => Raises Py.ValueError
  | Some b =>
      match Py.index (moves p) 0 with
      | None => Raises Py.IndexError
      | Some m0 =>
          match from_uci E m0 with
          | None => Raises Py.ValueError
          | Some first_move =>
              if push_ok E b first_move then Returns (push E b first_move)
              else Raises Py.AssertionError
          end
      end
  end.

(** [MoveValidator(puzzle)] *)
Definition __init__ (p : Puzzle) : outcome MoveValidator :=
  match _setup_board p with
  | Raises e => Raises e
  | Returns b =>
      Returns {| puzzle := p; board := b;
                 solution_moves := puzzle_solution_moves p;
                 current_move_index := 0 |}
  end.

Definition is_complete (self : MoveValidator) : bool :=
  Py.len (solution_moves self) <=? current_move_index self.

(** [get_current_board]: the copy has the value of the board. *)
Definition get_current_board (self : MoveValidator) : Board E := board self.

Definition get_current_solution_move (self : MoveValidator) : outcome (option string) :=
  if Py.len (solution_moves self) <=? current_move_index self then Returns None
  else match Py.index (solution_moves self) (current_move_index self) with
       | Some u => Returns (Some u)
       | None => Raises Py.IndexError
       end.

Definition get_moves_remaining (self : MoveValidator) : Z :=
  Z.max 0 (Py.len (solution_moves self) - current_move_index self).

Definition invalid_format_message (user_input : string) : string :=
  "Invalid move format: '" ++ user_input ++ "'. " ++
  "Use algebraic notation like 'Nf3', 'e4', 'Qxd5', or UCI like 'g1f3'".

(** [_parse_move]: SAN first, then UCI checked for legality, else
    [InvalidMoveError]. *)
Definition _parse_move (user_input : string) : M (Move E) :=
  self <- get ;;
  let user_input := Py.strip user_input in
  match parse_san E (board self) user_input with
  | Some move => ret move
  | None =>
      match from_uci E user_input with
      | Some move =>
          if is_legal E (board self) move then ret move
          else raise (Py.InvalidMoveError (invalid_format_message user_input))
      | None => raise (Py.InvalidMoveError (invalid_format_message user_input))
      end
  end.

Definition msg_illegal : string :=
  "Illegal move. That move is not allowed in this position.".
Definition msg_already_complete : string := "Puzzle already complete!".
Definition msg_incorrect : string := "Incorrect. Try again or type 'hint' for help.".
Definition msg_solved : string := "Puzzle solved! Well done!".
Definition msg_continue : string := "Correct! Continue...".

(** The body of [validate_move] after the input has been parsed. *)
Definition validate_parsed (move : Move E) : M (bool * string) :=
  self <- get ;;
  if negb (is_legal E (board self) move) then ret (false, msg_illegal)
  else if Py.len (solution_moves self) <=? current_move_index self
  then ret (false, msg_already_complete)
  else
    expected_uci <- lift Py.IndexError
                      (Py.index (solution_moves self) (current_move_index self)) ;;
    expected_move <- lift Py.ValueError (from_uci E expected_uci) ;;
    if negb (move_eqb E move expected_move) then
      (* expected_san is computed and not used *)
      _ <- lift Py.AssertionError (san E (board self) expected_move) ;;
      ret (false, msg_incorrect)
    else
      board_push move ;;;
      modify (fun s => set_index s (current_move_index s + 1)) ;;;
      self <- get ;;
      if is_complete self then ret (true, msg_solved)
      else if current_move_index self <? Py.len (solution_moves self) then
        opponent_move_uci <- lift Py.IndexError
                               (Py.index (solution_moves self) (current_move_index self)) ;;
        opponent_move <- lift Py.ValueError (from_uci E opponent_move_uci) ;;
        board_push opponent_move ;;;
        modify (fun s => set_index s (current_move_index s + 1)) ;;;
        self <- get ;;
        if is_complete self then ret (true, msg_solved)
        else ret (true, msg_continue)
      else ret (true, msg_solved).

(** [validate_move]: an [InvalidMoveError] of the parser becomes a
    rejection; anything else propagates. *)
Definition validate_move (user_input : string) : M (bool * string) :=
  fun self =>
    match _parse_move user_input self with
    | (Raises (Py.InvalidMoveError msg), self') => (Returns (false, msg), self')
    | (Raises e, self') => (Raises e, self')
    | (Returns move, self') => validate_parsed move self'
    end.

(** [reset] *)
Definition reset : M unit :=
  fun self =>
    match _setup_board (puzzle self) with
    | Raises e => (Raises e, self)
    | Returns b => (Returns tt, set_index (set_board self b) 0)
    end.

(** The cursor invariant: [0 <= current_move_index <= len(solution_moves)]. *)
Definition cursor_in_range (self : MoveValidator) : Prop :=
  0 <= current_move_index self <= Py.len (solution_moves self).

(** What [_parse_move] returns for an input on a validator. *)
Definition parsed (self : MoveValidator) (user_input : string) : outcome (Move E) :=
  fst (_parse_move user_input self).

(** The validator after a move has been pushed and the cursor advanced. *)
Definition after_move (self : MoveValidator) (m : Move E) : MoveValidator :=
  set_index (set_board self (push E (board self) m))
            (current_move_index self + 1).

End WithEngine.

End Validator.

(** ** config/constants.py and config/settings.py *)

Module Constants.

Definition ENDGAME_PIECE_THRESHOLD : Z := 12.

Definition ENDGAME_THEMES : list string :=
  [ "endgame"; "mateIn1"; "mateIn2"; "mateIn3"; "mateIn4"; "mateIn5";
    "promotion"; "queenEndgame"; "rookEndgame"; "bishopEndgame";
    "knightEndgame"; "pawnEndgame" ].

Definition OPENING_THEMES : list string :=
  [ "opening"; "openingVariation"; "trap" ].

(** [class Difficulty(Enum)]: the value of each level *)
Definition LEVEL_1 : Z * Z := (600, 1200).
Definition LEVEL_2 : Z * Z := (1200, 1600).
Definition LEVEL_3 : Z * Z := (1600, 2000).
Definition LEVEL_4 : Z * Z := (2000, 2400).
Definition LEVEL_5 : Z * Z := (2400, 3000).

End Constants.

Module Settings.

(** [Settings.get_difficulty_range]: [ValueError] outside 1..5 *)
Definition get_difficulty_range (difficulty : Z) : outcome (Z * Z) :=
  if difficulty =? 1 then Returns Constants.LEVEL_1
  else if difficulty =? 2 then Returns Constants.LEVEL_2
  else if difficulty =? 3 then Returns Constants.LEVEL_3
  else if difficulty =? 4 then Returns Constants.LEVEL_4
  else if difficulty =? 5 then Returns Constants.LEVEL_5
  else Raises Py.ValueError.

End Settings.

(** ** core/puzzle_manager.py: rating buckets *)

Definition _rating_to_difficulty (rating : Z) : Z :=
  if rating <? 1200 then 1
  else if rating <? 1600 then 2
  else if rating <? 2000 then 3
  else if rating <? 2400 then 4
  else 5.

(** ** data/database.py: the three tables, and the SQL the selector sends *)

Module Sql.

(** A row of [puzzles]. [opening_tags] and [piece_count] are always
    written by the importer, so they are not nullable here. *)
Record puzzle_row : Type := {
  c_puzzle_id : string;
  c_fen : string;
  c_moves : string;
  c_rating : Z;
  c_rating_deviation : Z;
  c_popularity : Z;
  c_nb_plays : Z;
  c_game_url : string;
  c_opening_tags : string;
  c_piece_count : Z
}.

Record Database : Type := {
  tbl_puzzles : list puzzle_row;
  tbl_themes : list (Z * string);          (* theme_id, theme_name *)
  tbl_puzzle_themes : list (string * Z)    (* puzzle_id, theme_id *)
}.

(** Three-valued logic: [None] is NULL. *)
Definition tv : Type := option bool.

Definition tv_and (a b : tv) : tv :=
  match a, b with
  | Some false, _ | _, Some false => Some false
  | Some true, Some true => Some true
  | _, _ => None
  end.

Definition tv_or (a b : tv) : tv :=
  match a, b with
  | Some true, _ | _, Some true => Some true
  | Some false, Some false => Some false
  | _, _ => None
  end.

Definition tv_not (a : tv) : tv := option_map negb a.

Definition mem (x : string) (l : list string) : bool := existsb (String.eqb x) l.

(** [x IN (l)] for a nullable text [x] and a list of non-null texts *)
Definition tv_in (x : option string) (l : list string) : tv :=
  option_map (fun s => mem s l) x.

(** [x = y] for a nullable text [x] *)
Definition tv_eq (x : option string) (y : string) : tv :=
  option_map (fun s => String.eqb s y) x.

(** [x IS NULL] *)
Definition is_null (x : option string) : tv :=
  Some (match x with None => true | Some _ => false end).

(** A row of
    [puzzles p LEFT JOIN puzzle_themes pt ON ... LEFT JOIN themes t ON ...]:
    the puzzle and [t.theme_name]. *)
Definition join_row : Type := (puzzle_row * option string)%type.

Definition theme_names (db : Database) (theme_id : Z) : list string :=
  map snd (filter (fun t => fst t =? theme_id) (tbl_themes db)).

Definition links (db : Database) (p : puzzle_row) : list Z :=
  map snd (filter (fun pt => String.eqb (fst pt) (c_puzzle_id p)) (tbl_puzzle_themes db)).

(** the one NULL-padded row when the right side has no match *)
Definition left_pad (l : list string) : list (option string) :=
  match l with
  | [] => [None]
  | _ => map Some l
  end.

Definition joined_themes (db : Database) (p : puzzle_row) : list (option string) :=
  match links db p with
  | [] => [None]
  | ls => flat_map (fun theme_id => left_pad (theme_names db theme_id)) ls
  end.

Definition joined (db : Database) (p : puzzle_row) : list join_row :=
  map (fun t => (p, t)) (joined_themes db p).

(** The themes query of [_row_to_puzzle]: the inner join. *)
Definition themes_of (db : Database) (p : puzzle_row) : list string :=
  flat_map (theme_names db) (links db p).

End Sql.

(** ** Python string splitting used by [_row_to_puzzle] *)

Module PyStr.

(** [s.split(sep)] for a one-character separator: never empty. *)
Fixpoint split_on (sep : ascii) (s : string) : list string :=
  match s with
  | EmptyString => [EmptyString]
  | String c s' =>
      if Ascii.eqb c sep then EmptyString :: split_on sep s'
      else match split_on sep s' with
           | w :: ws => String c w :: ws
           | [] => [String c EmptyString]
           end
  end.

(** [s.split()]: the maximal runs of non-whitespace. *)
Fixpoint split_ws_aux (s : string) (cur : string) : list string :=
  match s with
  | EmptyString => if String.eqb cur "" then [] else [cur]
  | String c s' =>
      if Py.is_space c
      then (if String.eqb cur "" then split_ws_aux s' "" else cur :: split_ws_aux s' "")
      else split_ws_aux s' (cur ++ String c EmptyString)
  end.

Definition split_ws (s : string) : list string := split_ws_aux s "".

End PyStr.

(** ** core/puzzle_selector.py *)

Module Selector.

Import Sql.

(** The entries of [where_clauses], with their parameters bound. *)
Inductive clause : Type :=
| RatingBetween (min_rating max_rating : Z)
    (* p.rating BETWEEN ? AND ? *)
| OpeningPhase (opening_themes : list string)
    (* (p.opening_tags != '' OR t.theme_name IN (...)) *)
| EndgamePhase (threshold : Z) (endgame_themes : list string)
    (* (p.piece_count < ? OR t.theme_name IN (...)) *)
| MiddlegamePhase (threshold : Z) (endgame_themes : list string)
    (* (p.piece_count >= ? AND (t.theme_name IS NULL OR t.theme_name NOT IN (...))) *)
| ThemeIs (theme : string)
    (* t.theme_name = ? *)
| IdNotIn (ids : list string).
    (* p.puzzle_id NOT IN (...) *)

Definition eval (c : clause) (r : join_row) : tv :=
  let '(p, t) := r in
  match c with
  | RatingBetween lo hi => Some ((lo <=? c_rating p) && (c_rating p <=? hi))
  | OpeningPhase ths =>
      tv_or (Some (negb (String.eqb (c_opening_tags p) ""))) (tv_in t ths)
  | EndgamePhase thr ths =>
      tv_or (Some (c_piece_count p <? thr)) (tv_in t ths)
  | MiddlegamePhase thr ths =>
      tv_and (Some (thr <=? c_piece_count p))
             (tv_or (is_null t) (tv_not (tv_in t ths)))
  | ThemeIs name => tv_eq t name
  | IdNotIn ids => Some (negb (mem (c_puzzle_id p) ids))
  end.

(** [" AND ".join(where_clauses) if where_clauses else "1=1"] *)
Definition where_sql (cs : list clause) (r : join_row) : tv :=
  fold_right (fun c acc => tv_and (eval c r) acc) (Some true) cs.

Definition _build_phase_filter (game_phase : string) : clause :=
  if String.eqb game_phase "opening" then
    OpeningPhase Constants.OPENING_THEMES
  else if String.eqb game_phase "endgame" then
    EndgamePhase Constants.ENDGAME_PIECE_THRESHOLD Constants.ENDGAME_THEMES
  else
    MiddlegamePhase Constants.ENDGAME_PIECE_THRESHOLD Constants.ENDGAME_THEMES.

(** The puzzles the query selects before [ORDER BY RANDOM() LIMIT 1]:
    those with a joined row on which the WHERE clause is true
    ([puzzle_id] is the primary key, so [DISTINCT p.*] keeps one row
    for each). *)
Definition matching (db : Database) (cs : list clause) : list puzzle_row :=
  filter (fun p => existsb (fun r => match where_sql cs r with
                                     | Some true => true
                                     | _ => false
                                     end) (joined db p))
         (tbl_puzzles db).

(** [ORDER BY RANDOM() LIMIT 1] with the draw [r] *)
Definition random_one {A} (r : nat) (l : list A) : option A :=
  match l with
  | [] => None
  | _ => nth_error l (Nat.modulo r (length l))
  end.

Definition _row_to_puzzle (db : Database) (row : puzzle_row) : Puzzle :=
  {| puzzle_id := c_puzzle_id row;
     fen := c_fen row;
     moves := PyStr.split_ws (c_moves row);
     rating := c_rating row;
     rating_deviation := c_rating_deviation row;
     popularity := c_popularity row;
     nb_plays := c_nb_plays row;
     themes := themes_of db row;
     game_url := c_game_url row;
     opening_tags := if String.eqb (c_opening_tags row) "" then []
                     else PyStr.split_on "," (c_opening_tags row);
     piece_count := c_piece_count row |}.

(** The WHERE clauses [_query_puzzle] builds; [ValueError] comes from
    [Settings.get_difficulty_range]. *)
Definition where_clauses (difficulty : option Z) (game_phase : option string)
    (solved_puzzle_ids : list string) (exclude_solved : bool)
    (theme : option string) : outcome (list clause) :=
  let rest :=
    ((match game_phase with
      | Some ph => if Py.truthy game_phase then [_build_phase_filter ph] else []
      | None => []
      end) ++
     (match theme with
      | Some th => if Py.truthy theme then [ThemeIs th] else []
      | None => []
      end) ++
     (if exclude_solved && negb (Nat.eqb (length solved_puzzle_ids) 0)
      then [IdNotIn solved_puzzle_ids] else []))%list in
  match difficulty with
  | None => Returns rest
  | Some d =>
      match Settings.get_difficulty_range d with
      | Raises e => Raises e
      | Returns (min_rating, max_rating) =>
          Returns (RatingBetween min_rating max_rating :: rest)
      end
  end.

Definition _query_puzzle (r : nat) (db : Database)
    (difficulty : option Z) (game_phase : option string)
    (solved_puzzle_ids : list string) (exclude_solved : bool)
    (theme : option string) : outcome (option Puzzle) :=
  match where_clauses difficulty game_phase solved_puzzle_ids exclude_solved theme with
  | Raises e => Raises e
  | Returns cs => Returns (option_map (_row_to_puzzle db) (random_one r (matching db cs)))
  end.

(** [puzzle = ...; if puzzle: return puzzle], then the rest *)
Definition or_else (q : outcome (option Puzzle)) (rest : outcome Puzzle) : outcome Puzzle :=
  match q with
  | Raises e => Raises e
  | Returns (Some puzzle) => Returns puzzle
  | Returns None => rest
  end.

Definition msg_none : string := "No puzzles available in database".

(** [select_puzzle]; [rand k] is the draw of the [k]-th query in program
    order. *)
Definition select_puzzle (rand : nat -> nat) (db : Database)
    (difficulty : Z) (game_phase : option string)
    (solved_puzzle_ids : list string) (theme : option string) : outcome Puzzle :=
  let q := fun k d ph ex th =>
             _query_puzzle (rand k) db d ph solved_puzzle_ids ex th in
  or_else (q 1%nat (Some difficulty) game_phase true theme)
  (or_else (if negb (Nat.eqb (length solved_puzzle_ids) 0)
            then q 2%nat (Some difficulty) game_phase false theme
            else Returns None)
  (fold_right
     (fun '(k, adj_diff) rest =>
        if (1 <=? adj_diff) && (adj_diff <=? 5)
        then or_else (q k (Some adj_diff) game_phase false theme) rest
        else rest)
     (or_else (q 5%nat (Some difficulty) None false theme)
     (or_else (if Py.truthy theme
               then q 6%nat (Some difficulty) game_phase false None
               else Returns None)
     (or_else (q 7%nat None None false None)
     (Raises (Py.PuzzleNotFoundError msg_none)))))
     [(3%nat, difficulty - 1); (4%nat, difficulty + 1)])).

End Selector.

(** ** A rules engine for the positions of the examples

    [MiniChess] implements the engine interface for positions without
    castling rights, en-passant captures and drops, following the [chess]
    package operation by operation: FEN placement and side to move, UCI
    text, SAN text, pseudo-legality, king safety and [push]. It gives the
    interface an instance on which the validator can be run. *)

Module MiniChess.

Inductive PieceType : Type := PAWN | KNIGHT | BISHOP | ROOK | QUEEN | KING.

(** [color] is [true] for white, as [chess.WHITE]. *)
Record Piece : Type := { piece_type : PieceType; color : bool }.

(** Squares are 0..63, a1 = 0, b1 = 1, ..., h8 = 63. *)
Record Move : Type := {
  from_square : Z;
  to_square : Z;
  promotion : option PieceType
}.

Record Board : Type := { squares : list (option Piece); turn : bool }.

Definition square_file (sq : Z) : Z := sq mod 8.
Definition square_rank (sq : Z) : Z := sq / 8.
Definition square (f r : Z) : Z := r * 8 + f.

Definition piece_type_eqb (a b : PieceType) : bool :=
  match a, b with
  | PAWN, PAWN | KNIGHT, KNIGHT | BISHOP, BISHOP
  | ROOK, ROOK | QUEEN, QUEEN | KING, KING => true
  | _, _ => false
  end.

Definition promotion_eqb (a b : option PieceType) : bool :=
  match a, b with
  | None, None => true
  | Some x, Some y => piece_type_eqb x y
  | _, _ => false
  end.

Definition move_eqb (a b : Move) : bool :=
  (from_square a =? from_square b) && (to_square a =? to_square b)
  && promotion_eqb (promotion a) (promotion b).

(** [Move.null()], and [bool(move)] *)
Definition null : Move := {| from_square := 0; to_square := 0; promotion := None |}.
Definition is_null (m : Move) : bool := move_eqb m null.

Definition piece_at (b : Board) (sq : Z) : option Piece :=
  if (0 <=? sq) && (sq <? 64) then nth (Z.to_nat sq) (squares b) None else None.

Fixpoint set_nth {A} (l : list A) (n : nat) (x : A) : list A :=
  match l, n with
  | [], _ => []
  | _ :: t, O => x :: t
  | h :: t, S n' => h :: set_nth t n' x
  end.

Definition set_piece_at (b : Board) (sq : Z) (p : option Piece) : Board :=
  {| squares := set_nth (squares b) (Z.to_nat sq) p; turn := turn b |}.

(** *** Text *)

Definition file_of_char (c : ascii) : option Z :=
  let n := Z.of_nat (nat_of_ascii c) in
  if (97 <=? n) && (n <=? 104) then Some (n - 97) else None.

Definition rank_of_char (c : ascii) : option Z :=
  let n := Z.of_nat (nat_of_ascii c) in
  if (49 <=? n) && (n <=? 56) then Some (n - 49) else None.

(** [SQUARE_NAMES.index(file + rank)] *)
Definition square_of_chars (f r : ascii) : option Z :=
  match file_of_char f, rank_of_char r with
  | Some x, Some y => Some (square x y)
  | _, _ => None
  end.

(** [PIECE_SYMBOLS.index(c)] for the lower-case symbols *)
Definition piece_of_symbol (c : ascii) : option PieceType :=
  match c with
  | "p"%char => Some PAWN
  | "n"%char => Some KNIGHT
  | "b"%char => Some BISHOP
  | "r"%char => Some ROOK
  | "q"%char => Some QUEEN
  | "k"%char => Some KING
  | _ => None
  end.

Definition lower (c : ascii) : ascii :=
  let n := nat_of_ascii c in
  if (Nat.leb 65 n) && (Nat.leb n 90) then ascii_of_nat (n + 32) else c.

Definition is_upper (c : ascii) : bool :=
  let n := nat_of_ascii c in (Nat.leb 65 n) && (Nat.leb n 90).

(** [chess.Move.from_uci]; a drop ("Q@e4") is outside the fragment *)
Definition from_uci (uci : string) : option Move :=
  if String.eqb uci "0000" then Some null
  else
    match list_ascii_of_string uci with
    | [f1; r1; f2; r2] =>
        match square_of_chars f1 r1, square_of_chars f2 r2 with
        | Some a, Some b =>
            if a =? b then None
            else Some {| from_square := a; to_square := b; promotion := None |}
        | _, _ => None
        end
    | [f1; r1; f2; r2; p] =>
        match square_of_chars f1 r1, square_of_chars f2 r2, piece_of_symbol p with
        | Some a, Some b, Some pt =>
            if a =? b then None
            else Some {| from_square := a; to_square := b; promotion := Some pt |}
        | _, _, _ => None
        end
    | _ => None
    end.

(** One row of the placement field: the squares of a rank, file a first. *)
Fixpoint fen_row (cs : list ascii) (previous_was_digit previous_was_piece : bool)
    : option (list (option Piece)) :=
  match cs with
  | [] => Some []
  | c :: cs' =>
      match rank_of_char c with
      | Some d =>
          if previous_was_digit then None
          else option_map (fun l => repeat None (Z.to_nat (d + 1)) ++ l)%list
                          (fen_row cs' true false)
      | None =>
          if Ascii.eqb c "~" then
            if previous_was_piece then fen_row cs' false false else None
          else
            match piece_of_symbol (lower c) with
            | Some pt =>
                option_map (cons (Some {| piece_type := pt; color := is_upper c |}))
                           (fen_row cs' false true)
            | None => None
            end
      end
  end.

Fixpoint fen_rows (rows : list string) : option (list (list (option Piece))) :=
  match rows with
  | [] => Some []
  | r :: rows' =>
      match fen_row (list_ascii_of_string r) false false, fen_rows rows' with
      | Some sq, Some rest =>
          if Nat.eqb (length sq) 8 then Some (sq :: rest) else None
      | _, _ => None
      end
  end.

(** [chess.Board(fen)]: the placement and the side to move are read; the
    castling, en-passant and clock fields are passed over. *)
Definition Board_of_fen (fen : string) : option Board :=
  match PyStr.split_ws fen with
  | [] => None
  | board_part :: parts =>
      let rows := PyStr.split_on "/" board_part in
      if negb (Nat.eqb (length rows) 8) then None
      else
        match fen_rows rows with
        | None => None
        | Some rs =>
            let placement := concat (rev rs) in
            match parts with
            | [] => Some {| squares := placement; turn := true |}
            | turn_part :: _ =>
                if String.eqb turn_part "w" then Some {| squares := placement; turn := true |}
                else if String.eqb turn_part "b" then Some {| squares := placement; turn := false |}
                else None
            end
        end
  end.

(** *** Moves on the board *)

(** [board.push(move)]: a null move passes the turn; otherwise the piece
    leaves [from_square] and a piece of the side to move (the promotion
    piece if there is one) lands on [to_square]. With no piece on
    [from_square] the call raises and the placement is as before. *)
Definition push (b : Board) (m : Move) : Board :=
  if is_null m then {| squares := squares b; turn := negb (turn b) |}
  else
    match piece_at b (from_square m) with
    | None => b
    | Some p =>
        let landed :=
          {| piece_type := match promotion m with
                           | Some pt => pt
                           | None => piece_type p
                           end;
             color := turn b |} in
        let b1 := set_piece_at b (from_square m) None in
        let b2 := set_piece_at b1 (to_square m) (Some landed) in
        {| squares := squares b2; turn := negb (turn b) |}
    end.

Definition push_ok (b : Board) (m : Move) : bool :=
  is_null m || match piece_at b (from_square m) with
               | Some _ => true
               | None => false
               end.

Definition is_empty (b : Board) (f r : Z) : bool :=
  match piece_at b (square f r) with
  | None => true
  | Some _ => false
  end.

(** the [n] squares from [(f, r)] in direction [(sf, sr)] are empty *)
Fixpoint clear (b : Board) (f r sf sr : Z) (n : nat) : bool :=
  match n with
  | O => true
  | S n' => is_empty b f r && clear b (f + sf) (r + sr) sf sr n'
  end.

Definition path_clear (b : Board) (s t : Z) : bool :=
  let df := square_file t - square_file s in
  let dr := square_rank t - square_rank s in
  let n := Z.max (Z.abs df) (Z.abs dr) in
  clear b (square_file s + Z.sgn df) (square_rank s + Z.sgn dr)
        (Z.sgn df) (Z.sgn dr) (Z.to_nat (n - 1)).

Definition on_board (sq : Z) : bool := (0 <=? sq) && (sq <? 64).

(** [attacks_mask(s)] contains [t] *)
Definition attacks (b : Board) (s t : Z) : bool :=
  on_board s && on_board t &&
  match piece_at b s with
  | None => false
  | Some p =>
      let df := square_file t - square_file s in
      let dr := square_rank t - square_rank s in
      let straight := negb (s =? t) && ((df =? 0) || (dr =? 0)) && path_clear b s t in
      let diagonal := negb (s =? t) && (Z.abs df =? Z.abs dr) && path_clear b s t in
      match piece_type p with
      | PAWN => (Z.abs df =? 1) && (dr =? (if color p then 1 else -1))
      | KNIGHT => ((Z.abs df =? 1) && (Z.abs dr =? 2))
                  || ((Z.abs df =? 2) && (Z.abs dr =? 1))
      | KING => Z.max (Z.abs df) (Z.abs dr) =? 1
      | BISHOP => diagonal
      | ROOK => straight
      | QUEEN => straight || diagonal
      end
  end.

Definition all_squares : list Z := map Z.of_nat (seq 0 64).

Definition occupied_by (b : Board) (c : bool) (sq : Z) : bool :=
  match piece_at b sq with
  | Some p => Bool.eqb (color p) c
  | None => false
  end.

(** [is_attacked_by(c, sq)] *)
Definition is_attacked_by (b : Board) (c : bool) (sq : Z) : bool :=
  existsb (fun s => occupied_by b c s && attacks b s sq) all_squares.

(** [board.king(c)]: the highest square holding a king of colour [c] *)
Definition king (b : Board) (c : bool) : option Z :=
  find (fun s => match piece_at b s with
                 | Some p => piece_type_eqb (piece_type p) KING && Bool.eqb (color p) c
                 | None => false
                 end) (rev all_squares).

Definition promotion_pieces : list PieceType := [QUEEN; ROOK; BISHOP; KNIGHT].

(** the pawn moves [generate_pseudo_legal_moves] yields, without en passant *)
Definition pawn_move (b : Board) (m : Move) : bool :=
  let s := from_square m in
  let t := to_square m in
  let up := if turn b then 1 else -1 in
  let df := square_file t - square_file s in
  let dr := square_rank t - square_rank s in
  let start_rank := if turn b then 1 else 6 in
  let capture := (Z.abs df =? 1) && (dr =? up) && occupied_by b (negb (turn b)) t in
  let single := (df =? 0) && (dr =? up) && is_empty b (square_file t) (square_rank t) in
  let double := (df =? 0) && (dr =? 2 * up) && (square_rank s =? start_rank)
                && is_empty b (square_file s) (square_rank s + up)
                && is_empty b (square_file t) (square_rank t) in
  let backrank := (square_rank t =? 0) || (square_rank t =? 7) in
  (capture || single || double) &&
  (if backrank
   then match promotion m with
        | Some pt => existsb (piece_type_eqb pt) promotion_pieces
        | None => false
        end
   else match promotion m with
        | Some _ => false
        | None => true
        end).

(** [board.is_pseudo_legal(move)], without castling *)
Definition is_pseudo_legal (b : Board) (m : Move) : bool :=
  if is_null m then false
  else if negb (on_board (from_square m) && on_board (to_square m)) then false
  else
    match piece_at b (from_square m) with
    | None => false
    | Some p =>
        if negb (Bool.eqb (color p) (turn b)) then false
        else if match promotion m with
                | Some _ =>
                    negb (piece_type_eqb (piece_type p) PAWN)
                    || negb (square_rank (to_square m) =? (if turn b then 7 else 0))
                | None => false
                end then false
        else if occupied_by b (turn b) (to_square m) then false
        else if piece_type_eqb (piece_type p) PAWN then pawn_move b m
        else attacks b (from_square m) (to_square m)
    end.

(** [board.is_into_check(move)]: the mover's king is attacked afterwards *)
Definition is_into_check (b : Board) (m : Move) : bool :=
  match king b (turn b) with
  | None => false
  | Some _ =>
      let b' := push b m in
      match king b' (turn b) with
      | None => false
      | Some k => is_attacked_by b' (negb (turn b)) k
      end
  end.

(** [move in board.legal_moves] *)
Definition is_legal (b : Board) (m : Move) : bool :=
  is_pseudo_legal b m && negb (is_into_check b m).

(** *** SAN *)

(** The groups of
    [^([NBKRQ])?([a-h])?([1-8])?[\-x]?([a-h][1-8])(=?[nbrqkNBRQK])?[\+#]?\Z]. *)
Record san_groups : Type := {
  g_piece : option PieceType;
  g_file : option Z;
  g_rank : option Z;
  g_to : Z;
  g_promotion : option PieceType
}.

Definition is_one_of (c : ascii) (s : string) : bool :=
  existsb (Ascii.eqb c) (list_ascii_of_string s).

(** [(=?[nbrqkNBRQK])?[\+#]?\Z] *)
Definition san_suffix (cs : list ascii) : bool :=
  match cs with
  | [] => true
  | [c] => is_one_of c "+#"
  | _ => false
  end.

Definition san_tail (cs : list ascii) : option (option PieceType) :=
  let letter cs' :=
    match cs' with
    | c :: rest =>
        if is_one_of c "nbrqkNBRQK" && san_suffix rest
        then Some (piece_of_symbol (lower c)) else None
    | [] => None
    end in
  match cs with
  | "="%char :: cs' =>
      letter cs'
  | _ =>
      match letter cs with
      | Some p => Some p
      | None => if san_suffix cs then Some None else None
      end
  end.

(** [[\-x]?([a-h][1-8])] and the tail *)
Definition san_target (cs : list ascii) : option (Z * option PieceType) :=
  let cs' := match cs with
             | c :: rest => if is_one_of c "-x" then rest else cs
             | [] => cs
             end in
  match cs' with
  | f :: r :: tail =>
      match square_of_chars f r, san_tail tail with
      | Some sq, Some promo => Some (sq, promo)
      | _, _ => None
      end
  | _ => None
  end.

Definition first_some {A} (l : list (option A)) : option A :=
  fold_right (fun o acc => match o with Some a => Some a | None => acc end) None l.

(** The match of the regular expression, with its backtracking order. *)
Definition san_match (san : string) : option san_groups :=
  let cs := list_ascii_of_string san in
  let '(piece, cs1) :=
    match cs with
    | c :: rest => if is_one_of c "NBKRQ" then (piece_of_symbol (lower c), rest)
                   else (None, cs)
    | [] => (None, cs)
    end in
  let groups f r cs' :=
    option_map (fun '(sq, promo) =>
                  {| g_piece := piece; g_file := f; g_rank := r;
                     g_to := sq; g_promotion := promo |})
               (san_target cs') in
  first_some
    [ match cs1 with
      | f :: r :: rest =>
          match file_of_char f, rank_of_char r with
          | Some x, Some y => groups (Some x) (Some y) rest
          | _, _ => None
          end
      | _ => None
      end;
      match cs1 with
      | f :: rest =>
          match file_of_char f with
          | Some x => groups (Some x) None rest
          | None => None
          end
      | _ => None
      end;
      match cs1 with
      | r :: rest =>
          match rank_of_char r with
          | Some y => groups None (Some y) rest
          | None => None
          end
      | _ => None
      end;
      groups None None cs1 ].

(** [board.find_move] *)
Definition find_move (b : Board) (s t : Z) (promo : option PieceType) : option Move :=
  let is_pawn := match piece_at b s with
                 | Some p => piece_type_eqb (piece_type p) PAWN
                 | None => false
                 end in
  let promo' := match promo with
                | None => if is_pawn && ((square_rank t =? 0) || (square_rank t =? 7))
                          then Some QUEEN else None
                | Some _ => promo
                end in
  let m := {| from_square := s; to_square := t; promotion := promo' |} in
  if is_legal b m then Some m else None.

Definition in_mask (o : option Z) (v : Z) : bool :=
  match o with
  | Some x => x =? v
  | None => true
  end.

(** [board.parse_san(san)]; there are no castling moves to find *)
Definition parse_san (b : Board) (san : string) : option Move :=
  if Sql.mem san ["O-O"; "O-O+"; "O-O#"; "0-0"; "0-0+"; "0-0#";
                  "O-O-O"; "O-O-O+"; "O-O-O#"; "0-0-0"; "0-0-0+"; "0-0-0#"]
  then None
  else
    match san_match san with
    | None => if Sql.mem san ["--"; "Z0"; "0000"; "@@@@"] then Some null else None
    | Some g =>
        let by_square s :=
          in_mask (g_file g) (square_file s) && in_mask (g_rank g) (square_rank s) in
        let candidates from_ok :=
          filter (fun m => is_legal b m)
                 (map (fun s => {| from_square := s; to_square := g_to g;
                                   promotion := g_promotion g |})
                      (filter (fun s => by_square s && from_ok s
                                        && negb (occupied_by b (turn b) (g_to g)))
                              all_squares)) in
        let unique l := match l with
                        | [m] => Some m
                        | _ => None
                        end in
        match g_piece g, g_file g, g_rank g with
        | Some pt, _, _ =>
            unique (candidates (fun s =>
              match piece_at b s with
              | Some p => piece_type_eqb (piece_type p) pt && Bool.eqb (color p) (turn b)
              | None => false
              end))
        | None, Some f, Some r =>
            match find_move b (square f r) (g_to g) (g_promotion g) with
            | Some m => if promotion_eqb (promotion m) (g_promotion g) then Some m else None
            | None => None
            end
        | None, f, _ =>
            unique (candidates (fun s =>
              match piece_at b s with
              | Some p => piece_type_eqb (piece_type p) PAWN
              | None => false
              end
              && match f with
                 | Some _ => true
                 | None => square_file s =? square_file (g_to g)
                 end))
        end
    end.

Definition square_name (sq : Z) : string :=
  String (ascii_of_nat (Z.to_nat (97 + square_file sq)))
    (String (ascii_of_nat (Z.to_nat (49 + square_rank sq))) EmptyString).

Definition piece_letter (pt : PieceType) : string :=
  match pt with
  | PAWN => ""
  | KNIGHT => "N"
  | BISHOP => "B"
  | ROOK => "R"
  | QUEEN => "Q"
  | KING => "K"
  end.

(** [board.san(move)]: it raises when a move that is not null starts
    from an empty square. The text given here is the long form without
    check marks; the validator does not read it. *)
Definition san (b : Board) (m : Move) : option string :=
  if is_null m then Some "--"
  else
    match piece_at b (from_square m) with
    | None => None
    | Some p =>
        Some (piece_letter (piece_type p) ++ square_name (from_square m)
              ++ (if is_empty b (square_file (to_square m)) (square_rank (to_square m))
                  then "-" else "x")
              ++ square_name (to_square m)
              ++ match promotion m with
                 | Some pt => "=" ++ piece_letter pt
                 | None => ""
                 end)
    end.

Definition engine : ChessEngine :=
  Build_ChessEngine Board Move Board_of_fen from_uci parse_san is_legal
                    push push_ok san move_eqb.

End MiniChess.

(** ** The fallback cascade as the specification words it

    An ordered list of query specifications, evaluated in order; the first
    non-empty result wins. *)

Module Cascade.

Record tier : Type := {
  t_draw : nat;                  (* which random draw the query consumes *)
  t_difficulty : option Z;
  t_phase : option string;
  t_exclude : bool;
  t_theme : option string
}.

Definition in_range (d : Z) : bool := (1 <=? d) && (d <=? 5).

Definition tiers (difficulty : Z) (phase theme : option string) : list tier :=
  (* 1: difficulty + phase + theme, excluding the solved ids *)
  ([ {| t_draw := 1; t_difficulty := Some difficulty; t_phase := phase;
        t_exclude := true; t_theme := theme |};
  (* 2: the same, repetition allowed *)
     {| t_draw := 2; t_difficulty := Some difficulty; t_phase := phase;
        t_exclude := false; t_theme := theme |} ]
  (* 3: difficulty - 1, then difficulty + 1, inside 1..5 *)
   ++ (if in_range (difficulty - 1)
       then [ {| t_draw := 3; t_difficulty := Some (difficulty - 1); t_phase := phase;
                 t_exclude := false; t_theme := theme |} ] else [])
   ++ (if in_range (difficulty + 1)
       then [ {| t_draw := 4; t_difficulty := Some (difficulty + 1); t_phase := phase;
                 t_exclude := false; t_theme := theme |} ] else [])
  (* 4: drop the phase *)
   ++ [ {| t_draw := 5; t_difficulty := Some difficulty; t_phase := None;
           t_exclude := false; t_theme := theme |} ]
  (* 5: drop the theme, if one was supplied *)
   ++ (if Py.truthy theme
       then [ {| t_draw := 6; t_difficulty := Some difficulty; t_phase := phase;
                 t_exclude := false; t_theme := None |} ] else [])
  (* 6: no constraint *)
   ++ [ {| t_draw := 7; t_difficulty := None; t_phase := None;
           t_exclude := false; t_theme := None |} ])%list.

Definition run (rand : nat -> nat) (db : Sql.Database) (exclude : list string)
    (t : tier) : outcome (option Puzzle) :=
  Selector._query_puzzle (rand (t_draw t)) db (t_difficulty t) (t_phase t)
                         exclude (t_exclude t) (t_theme t).

Fixpoint first_hit (results : list (outcome (option Puzzle))) : outcome Puzzle :=
  match results with
  | [] => Raises (Py.PuzzleNotFoundError Selector.msg_none)
  | Raises e :: _ => Raises e
  | Returns (Some puzzle) :: _ => Returns puzzle
  | Returns None :: rest => first_hit rest
  end.

Definition select (rand : nat -> nat) (db : Sql.Database) (difficulty : Z)
    (phase : option string) (exclude : list string) (theme : option string)
    : outcome Puzzle :=
  first_hit (map (run rand db exclude) (tiers difficulty phase theme)).

End Cascade.

(** ** Concrete puzzles and stores *)

Module Examples.

Definition start_fen : string := "rnbqkbnr/pppppppp/8/8/8/8/PPPPPPPP/RNBQKBNR".

Definition puzzle_of (ms : list string) : Puzzle :=
  {| puzzle_id := "ex"; fen := start_fen; moves := ms; rating := 1500;
     rating_deviation := 75; popularity := 90; nb_plays := 100;
     themes := []; game_url := ""; opening_tags := []; piece_count := 32 |}.

(** one setup move, one solution move *)
Definition two_moves : Puzzle := puzzle_of ["e2e4"; "e7e5"].
(** one setup move, three solution moves *)
Definition four_moves : Puzzle := puzzle_of ["e2e4"; "e7e5"; "g1f3"; "b8c6"].
(** a record with a setup move only *)
Definition one_move : Puzzle := puzzle_of ["e2e4"].
(** a record whose setup move is a pawn jumping three squares *)
Definition illegal_setup : Puzzle := puzzle_of ["e2e5"; "d7d6"].
(** a record whose solution move starts from the empty square a3 *)
Definition empty_square_solution : Puzzle := puzzle_of ["e2e4"; "a3a4"].
(** a record whose solution move is not UCI text *)
Definition malformed_solution : Puzzle := puzzle_of ["e2e4"; "zz"].

Definition row (id : string) (rating pieces : Z) : Sql.puzzle_row :=
  {| Sql.c_puzzle_id := id; Sql.c_fen := start_fen; Sql.c_moves := "e2e4 e7e5";
     Sql.c_rating := rating; Sql.c_rating_deviation := 75; Sql.c_popularity := 90;
     Sql.c_nb_plays := 100; Sql.c_game_url := ""; Sql.c_opening_tags := "";
     Sql.c_piece_count := pieces |}.

(** one puzzle rated exactly 1200, without themes *)
Definition db_boundary : Sql.Database :=
  {| Sql.tbl_puzzles := [row "b1200" 1200 24];
     Sql.tbl_themes := [];
     Sql.tbl_puzzle_themes := [] |}.

(** one puzzle with 20 pieces, tagged both [fork] and [endgame] *)
Definition db_tagged : Sql.Database :=
  {| Sql.tbl_puzzles := [row "fe20" 1700 20];
     Sql.tbl_themes := [(1, "fork"); (2, "endgame")];
     Sql.tbl_puzzle_themes := [("fe20", 1); ("fe20", 2)] |}.

(** two puzzles of level 2 and one of level 3 *)
Definition db_three : Sql.Database :=
  {| Sql.tbl_puzzles := [row "a" 1300 30; row "b" 1500 28; row "c" 1700 8];
     Sql.tbl_themes := [(1, "fork")];
     Sql.tbl_puzzle_themes := [("a", 1); ("c", 1)] |}.

Definition draw0 : nat -> nat := fun _ => O.

(** The position of a FEN, [b] after the move written [uci], and the move
    itself, on [MiniChess]. *)
Definition position (fen : string) : MiniChess.Board :=
  match MiniChess.Board_of_fen fen with
  | Some b => b
  | None => {| MiniChess.squares := []; MiniChess.turn := true |}
  end.

Definition uci (text : string) : MiniChess.Move :=
  match MiniChess.from_uci text with
  | Some m => m
  | None => MiniChess.null
  end.

Definition play (b : MiniChess.Board) (text : string) : MiniChess.Board :=
  MiniChess.push b (uci text).

(** The validator that [MoveValidator(p)] builds. *)
Definition built (p : Puzzle) : Validator.MoveValidator MiniChess.engine :=
  Validator.Build_MoveValidator MiniChess.engine p
    (play (position (fen p)) (hd "" (moves p))) (tl (moves p)) 0.

(** [built p] after [n] more moves of the record have been played. *)
Definition advanced (p : Puzzle) (n : nat) : Validator.MoveValidator MiniChess.engine :=
  Validator.Build_MoveValidator MiniChess.engine p
    (fold_left play (firstn n (tl (moves p)))
               (play (position (fen p)) (hd "" (moves p))))
    (tl (moves p)) (Z.of_nat n).

End Examples.

(** ** The solving loop: [validate_move] on each input in turn *)

Module Session.
Section WithEngine.

Context (E : ChessEngine).

(** The results of the calls, until one raises. *)
Fixpoint submit_all (inputs : list string) (self : Validator.MoveValidator E)
    : outcome (list (bool * string)) * Validator.MoveValidator E :=
  match inputs with
  | [] => (Returns [], self)
  | user_input :: rest =>
      match Validator.validate_move E user_input self with
      | (Raises e, self') => (Raises e, self')
      | (Returns result, self') =>
          match submit_all rest self' with
          | (Raises e, self'') => (Raises e, self'')
          | (Returns results, self'') => (Returns (result :: results), self'')
          end
      end
  end.

(** How many of the results are acceptances. *)
Definition accepted (results : list (bool * string)) : Z :=
  Py.len (filter fst results).

End WithEngine.
End Session.

(** ** core/progress_tracker.py

    The tracker's list of entries; the times and the timestamp of an entry
    are floating-point and clock values and are carried as they come. *)

Module Tracker.
Section WithTime.

Context {F : Type}.    (* float *)
Context {D : Type}.    (* datetime *)

(** [ProgressEntry] *)
Record ProgressEntry : Type := {
  e_puzzle_id : string;
  e_solved : bool;
  e_attempts : Z;
  e_time_taken : F;
  e_difficulty : Z;
  e_timestamp : D;
  e_hints_used : Z
}.

(** [record_attempt]: the entry is appended; [now] is [datetime.now()]. *)
Definition record_attempt (entries : list ProgressEntry) (now : D)
    (puzzle_id : string) (solved : bool) (attempts : Z) (time_taken : F)
    (difficulty : Z) (hints_used : Z) : list ProgressEntry :=
  (entries ++ [ {| e_puzzle_id := puzzle_id; e_solved := solved;
                   e_attempts := attempts; e_time_taken := time_taken;
                   e_difficulty := difficulty; e_timestamp := now;
                   e_hints_used := hints_used |} ])%list.

(** [solved_entries = [e for e in self.entries if e.solved]] *)
Definition solved_entries (entries : list ProgressEntry) : list ProgressEntry :=
  filter e_solved entries.

Definition total_solved (entries : list ProgressEntry) : Z :=
  Py.len (solved_entries entries).

Definition total_attempts (entries : list ProgressEntry) : Z := Py.len entries.

(** The loop of [_calculate_current_streak] over [reversed(self.entries)]. *)
Fixpoint streak_from (reversed : list ProgressEntry) (streak : Z) : Z :=
  match reversed with
  | [] => streak
  | entry :: rest => if e_solved entry then streak_from rest (streak + 1) else streak
  end.

Definition _calculate_current_streak (entries : list ProgressEntry) : Z :=
  streak_from (rev entries) 0.

(** The loop of [_calculate_best_streak]: the state is [(current, best)]. *)
Definition best_step (state : Z * Z) (entry : ProgressEntry) : Z * Z :=
  let '(current, best) := state in
  if e_solved entry then (current + 1, Z.max best (current + 1))
  else (0, best).

Definition _calculate_best_streak (entries : list ProgressEntry) : Z :=
  snd (fold_left best_step entries (0, 0)).

(** [solved_by_diff]: a dict with the keys 1..5, as an association list. *)
Definition bump (d : Z) (counts : list (Z * Z)) : list (Z * Z) :=
  map (fun kv => if fst kv =? d then (fst kv, snd kv + 1) else kv) counts.

Definition solved_by_difficulty (entries : list ProgressEntry) : list (Z * Z) :=
  fold_left (fun counts entry => bump (e_difficulty entry) counts)
            (solved_entries entries)
            [(1, 0); (2, 0); (3, 0); (4, 0); (5, 0)].

(** Whether an entry was recorded with level [d]. *)
Definition solved_at (d : Z) (e : ProgressEntry) : bool := e_difficulty e =? d.

(** [dict.get(k, 0)] on such a dict *)
Definition count_of (d : Z) (counts : list (Z * Z)) : Z :=
  match find (fun kv => fst kv =? d) counts with
  | Some kv => snd kv
  | None => 0
  end.

(** [get_solved_puzzle_ids]: a set, here without repetition. *)
Definition get_solved_puzzle_ids (entries : list ProgressEntry) : list string :=
  nodup string_dec (map e_puzzle_id (solved_entries entries)).

Definition has_attempted_puzzle (entries : list ProgressEntry) (puzzle_id : string) : bool :=
  existsb (fun e => String.eqb (e_puzzle_id e) puzzle_id) entries.

Definition has_solved_puzzle (entries : list ProgressEntry) (puzzle_id : string) : bool :=
  existsb (fun e => String.eqb (e_puzzle_id e) puzzle_id && e_solved e) entries.

End WithTime.
End Tracker.

(** ** core/puzzle_selector.py: lookup by id *)

Module Lookup.

(** [get_puzzle_by_id]: [SELECT * FROM puzzles WHERE puzzle_id = ?], first
    row. *)
Definition get_puzzle_by_id (db : Sql.Database) (puzzle_id : string) : option Puzzle :=
  option_map (Selector._row_to_puzzle db)
             (find (fun row => String.eqb (Sql.c_puzzle_id row) puzzle_id)
                   (Sql.tbl_puzzles db)).

(** [puzzle_id TEXT PRIMARY KEY] *)
Definition primary_key (db : Sql.Database) : Prop :=
  NoDup (map Sql.c_puzzle_id (Sql.tbl_puzzles db)).

End Lookup.

(** ** Example histories of attempts

    Times are whole seconds and timestamps are counters here. *)

Module History.

Definition entry (puzzle_id : string) (solved : bool) (difficulty : Z)
    : @Tracker.ProgressEntry Z Z :=
  {| Tracker.e_puzzle_id := puzzle_id; Tracker.e_solved := solved;
     Tracker.e_attempts := 1; Tracker.e_time_taken := 30;
     Tracker.e_difficulty := difficulty; Tracker.e_timestamp := 0;
     Tracker.e_hints_used := 0 |}.

(** solved, solved, failed, solved *)
Definition four_attempts : list (@Tracker.ProgressEntry Z Z) :=
  [entry "a" true 1; entry "b" true 2; entry "c" false 2; entry "a" true 1].

End History.

(** ** One more store *)

Module Stores.

(** one puzzle rated above every difficulty range *)
Definition db_extreme : Sql.Database :=
  {| Sql.tbl_puzzles := [Examples.row "x3100" 3100 24];
     Sql.tbl_themes := [];
     Sql.tbl_puzzle_themes := [] |}.

End Stores.

(** ** The chess package as the hint system uses it

    The squares of a move, the piece standing on a square, and the names
    [chess.piece_name] and [chess.square_name] give. *)

Record HintEngine (E : ChessEngine) : Type := {
  Square : Type;
  Piece : Type;
  (** [move.from_square], [move.to_square] *)
  from_square : Move E -> Square;
  to_square : Move E -> Square;
  (** [board.piece_at(square)] *)
  piece_at : Board E -> Square -> option Piece;
  (** [piece.piece_type], an int *)
  piece_type : Piece -> Z;
  (** [chess.piece_name(piece_type)] *)
  piece_name : Z -> string;
  (** [chess.square_name(square)] *)
  square_name : Square -> string
}.

(** ** [str.capitalize()] on ASCII text *)

Module PyText.

Definition upper (c : ascii) : ascii :=
  let n := nat_of_ascii c in
  if (Nat.leb 97 n && Nat.leb n 122)%bool then ascii_of_nat (n - 32) else c.

Definition lower (c : ascii) : ascii :=
  let n := nat_of_ascii c in
  if (Nat.leb 65 n && Nat.leb n 90)%bool then ascii_of_nat (n + 32) else c.

Fixpoint lower_all (s : string) : string :=
  match s with
  | EmptyString => EmptyString
  | String c s' => String (lower c) (lower_all s')
  end.

Definition capitalize (s : string) : string :=
  match s with
  | EmptyString => EmptyString
  | String c s' => String (upper c) (lower_all s')
  end.

End PyText.

(** ** core/hint_system.py *)

Module Hints.

(** The values of [Hint.reveal_data]: ints and strings. *)
Inductive value : Type :=
| VInt (n : Z)
| VStr (s : string).

(** [data.models.Hint]; [reveal_data] is a dict, kept in insertion order. *)
Record Hint : Type := {
  level : Z;
  message : string;
  reveal_data : list (string * value)
}.

Section WithEngine.

Context (E : ChessEngine).
Context (H : HintEngine E).

Record HintSystem : Type := {
  board : Board E;
  solution_move : Move E;
  current_level : Z
}.

(** [HintSystem(board, solution_move_uci)] *)
Definition __init__ (board : Board E) (solution_move_uci : string) : outcome HintSystem :=
  match from_uci E solution_move_uci with
  | None => Raises Py.ValueError
  | Some move =>
      Returns {| board := board; solution_move := move; current_level := 0 |}
  end.

(** [get_hint(level)]; it reads the object and does not change it. *)
Definition get_hint (self : HintSystem) (level : Z) : outcome Hint :=
  let move := solution_move self in
  match piece_at E H (board self) (from_square E H move) with
  | None =>
      match san E (board self) move with
      | None => Raises Py.AssertionError
      | Some s =>
          Returns {| level := 4; message := "Play " ++ s;
                     reveal_data := [("move", VStr s)] |}
      end
  | Some piece =>
      if level =? 1 then
        let name := PyText.capitalize (piece_name E H (piece_type E H piece)) in
        Returns {| level := 1; message := "Move your " ++ name;
                   reveal_data := [("piece_type", VInt (piece_type E H piece))] |}
      else if level =? 2 then
        let square := square_name E H (from_square E H move) in
        let name := PyText.capitalize (piece_name E H (piece_type E H piece)) in
        Returns {| level := 2;
                   message := "Move the " ++ name ++ " from " ++ square;
                   reveal_data := [("from_square", VStr square)] |}
      else if level =? 3 then
        let from := square_name E H (from_square E H move) in
        let to := square_name E H (to_square E H move) in
        Returns {| level := 3;
                   message := "Move from " ++ from ++ " to " ++ to;
                   reveal_data := [("from_square", VStr from);
                                   ("to_square", VStr to)] |}
      else
        match san E (board self) move with
        | None => Raises Py.AssertionError
        | Some s =>
            Returns {| level := 4; message := "Play " ++ s;
                       reveal_data :=
                         [("move", VStr s);
                          ("from_square",
                           VStr (square_name E H (from_square E H move)));
                          ("to_square",
                           VStr (square_name E H (to_square E H move)))] |}
        end
  end.

Definition set_level (self : HintSystem) (l : Z) : HintSystem :=
  {| board := board self; solution_move := solution_move self;
     current_level := l |}.

(** [get_next_hint]: the level is raised, capped at 4, before the hint is
    made; the object keeps the new level also when making the hint
    raises. *)
Definition get_next_hint (self : HintSystem) : outcome Hint * HintSystem :=
  let raised := set_level self (current_level self + 1) in
  let capped := if 4 <? current_level raised then set_level raised 4 else raised in
  (get_hint capped (current_level capped), capped).

(** [reset] *)
Definition reset (self : HintSystem) : HintSystem := set_level self 0.

(** The hints of [n] calls of [get_next_hint] in a row, until one
    raises. *)
Fixpoint next_hints (n : nat) (self : HintSystem) : outcome (list Hint) * HintSystem :=
  match n with
  | O => (Returns [], self)
  | S n' =>
      match get_next_hint self with
      | (Raises e, self') => (Raises e, self')
      | (Returns hint, self') =>
          match next_hints n' self' with
          | (Raises e, self'') => (Raises e, self'')
          | (Returns hints, self'') => (Returns (hint :: hints), self'')
          end
      end
  end.

End WithEngine.
End Hints.

(** ** The clock

    [time.time()] and [datetime.now()] are read from the outside: the
    [n]-th reading of the run is [time n], respectively [now n]. Seconds
    are floats; the program subtracts them, writes [0.0] and tests them for
    truth. *)

Record World : Type := {
  Seconds : Type;
  Date : Type;
  time : nat -> Seconds;
  now : nat -> Date;
  fsub : Seconds -> Seconds -> Seconds;
  fzero : Seconds;
  ftruthy : Seconds -> bool
}.

(** ** utils/timer.py: the stopwatch part of [PuzzleTimer] *)

Module Timer.
Section WithWorld.

Context (W : World).

Record PuzzleTimer : Type := {
  time_limit : option Z;
  start_time : option (Seconds W);
  end_time : option (Seconds W);
  is_running : bool;
  is_countdown : bool
}.

(** [PuzzleTimer(time_limit)] *)
Definition __init__ (time_limit : option Z) : PuzzleTimer :=
  {| time_limit := time_limit; start_time := None; end_time := None;
     is_running := false;
     is_countdown := match time_limit with Some _ => true | None => false end |}.

(** Truth of an [Optional[float]]. *)
Definition truthy (o : option (Seconds W)) : bool :=
  match o with
  | Some f => ftruthy W f
  | None => false
  end.

(** [start]; the methods take and give back the number of clock readings
    made so far. *)
Definition start (self : PuzzleTimer) (ticks : nat) : PuzzleTimer * nat :=
  ({| time_limit := time_limit self; start_time := Some (time W ticks);
      end_time := None; is_running := true;
      is_countdown := is_countdown self |}, S ticks).

(** [get_elapsed] *)
Definition get_elapsed (self : PuzzleTimer) (ticks : nat) : Seconds W * nat :=
  match start_time self with
  | Some started =>
      if ftruthy W started then
        match end_time self with
        | Some ended =>
            if ftruthy W ended then (fsub W ended started, ticks)
            else (fsub W (time W ticks) started, S ticks)
        | None => (fsub W (time W ticks) started, S ticks)
        end
      else (fzero W, ticks)
  | None => (fzero W, ticks)
  end.

(** [stop] *)
Definition stop (self : PuzzleTimer) (ticks : nat) : Seconds W * PuzzleTimer * nat :=
  if negb (is_running self) then (fzero W, self, ticks)
  else
    let stopped :=
      {| time_limit := time_limit self; start_time := start_time self;
         end_time := Some (time W ticks); is_running := false;
         is_countdown := is_countdown self |} in
    let '(elapsed, ticks') := get_elapsed stopped (S ticks) in
    (elapsed, stopped, ticks').

End WithWorld.
End Timer.

(** ** core/puzzle_manager.py

    The manager with its selector's store, its tracker's entries and the
    state of the current puzzle. The progress file the tracker writes is
    left out: the entries are those in memory. *)

Module Manager.

(** [timer_config]: whether ['enabled'] is set to a true value, and
    ['time_limit']. *)
Record TimerConfig : Type := {
  enabled : bool;
  tc_time_limit : option Z
}.

Section WithEngine.

Context (E : ChessEngine).
Context (H : HintEngine E).
Context (W : World).

Abbreviation Entry := (@Tracker.ProgressEntry (Seconds W) (Date W)).

Record PuzzleManager : Type := {
  db : Sql.Database;
  entries : list Entry;
  current_puzzle : option Puzzle;
  move_validator : option (Validator.MoveValidator E);
  hint_system : option (Hints.HintSystem E);
  start_time : option (Seconds W);
  move_attempts : Z;
  hints_used : Z;
  timer : option (Timer.PuzzleTimer W);
  ticks : nat
}.

(** [PuzzleManager(...)] on a store and the entries of the progress
    file. *)
Definition __init__ (db : Sql.Database) (entries : list Entry) : PuzzleManager :=
  {| db := db; entries := entries; current_puzzle := None;
     move_validator := None; hint_system := None; start_time := None;
     move_attempts := 0; hints_used := 0; timer := None; ticks := O |}.

Definition set_current_puzzle (self : PuzzleManager) (x : option Puzzle) : PuzzleManager :=
  {| db := db self; entries := entries self; current_puzzle := x;
     move_validator := move_validator self; hint_system := hint_system self;
     start_time := start_time self; move_attempts := move_attempts self;
     hints_used := hints_used self; timer := timer self; ticks := ticks self |}.

Definition set_move_validator (self : PuzzleManager)
    (x : option (Validator.MoveValidator E)) : PuzzleManager :=
  {| db := db self; entries := entries self; current_puzzle := current_puzzle self;
     move_validator := x; hint_system := hint_system self;
     start_time := start_time self; move_attempts := move_attempts self;
     hints_used := hints_used self; timer := timer self; ticks := ticks self |}.

Definition set_hint_system (self : PuzzleManager)
    (x : option (Hints.HintSystem E)) : PuzzleManager :=
  {| db := db self; entries := entries self; current_puzzle := current_puzzle self;
     move_validator := move_validator self; hint_system := x;
     start_time := start_time self; move_attempts := move_attempts self;
     hints_used := hints_used self; timer := timer self; ticks := ticks self |}.

Definition set_move_attempts (self : PuzzleManager) (x : Z) : PuzzleManager :=
  {| db := db self; entries := entries self; current_puzzle := current_puzzle self;
     move_validator := move_validator self; hint_system := hint_system self;
     start_time := start_time self; move_attempts := x;
     hints_used := hints_used self; timer := timer self; ticks := ticks self |}.

Definition set_hints_used (self : PuzzleManager) (x : Z) : PuzzleManager :=
  {| db := db self; entries := entries self; current_puzzle := current_puzzle self;
     move_validator := move_validator self; hint_system := hint_system self;
     start_time := start_time self; move_attempts := move_attempts self;
     hints_used := x; timer := timer self; ticks := ticks self |}.

(** [self.start_time = time.time()] *)
Definition read_start_time (self : PuzzleManager) : PuzzleManager :=
  {| db := db self; entries := entries self; current_puzzle := current_puzzle self;
     move_validator := move_validator self; hint_system := hint_system self;
     start_time := Some (time W (ticks self)); move_attempts := move_attempts self;
     hints_used := hints_used self; timer := timer self; ticks := S (ticks self) |}.

Definition set_timer (self : PuzzleManager) (x : option (Timer.PuzzleTimer W))
    (ticks' : nat) : PuzzleManager :=
  {| db := db self; entries := entries self; current_puzzle := current_puzzle self;
     move_validator := move_validator self; hint_system := hint_system self;
     start_time := start_time self; move_attempts := move_attempts self;
     hints_used := hints_used self; timer := x; ticks := ticks' |}.

(** The hint system is replaced when there is a pending solution move:
    [if current_move: self.hint_system = HintSystem(current_board,
    current_move)]. *)
Definition renew_hint_system (v : Validator.MoveValidator E) (self : PuzzleManager)
    : outcome unit * PuzzleManager :=
  match Validator.get_current_solution_move E v with
  | Raises e => (Raises e, self)
  | Returns current_move =>
      match current_move with
      | Some uci =>
          if Py.truthy current_move then
            match Hints.__init__ E (Validator.get_current_board E v) uci with
            | Raises e => (Raises e, self)
            | Returns h => (Returns tt, set_hint_system self (Some h))
            end
          else (Returns tt, self)
      | None => (Returns tt, self)
      end
  end.

(** [if timer_config and timer_config.get('enabled')] *)
Definition configure_timer (timer_config : option TimerConfig) (self : PuzzleManager)
    : PuzzleManager :=
  match timer_config with
  | Some config =>
      if enabled config then
        let '(t, ticks') :=
          Timer.start W (Timer.__init__ W (tc_time_limit config)) (ticks self) in
        set_timer self (Some t) ticks'
      else self
  | None => self
  end.

(** [start_puzzle]; [rand] gives the draws of the selector's queries. The
    selector returns a puzzle or raises, so the test [if not puzzle] never
    fires. *)
Definition start_puzzle (rand : nat -> nat) (difficulty : Z)
    (game_phase : option string) (theme : option string)
    (timer_config : option TimerConfig) (self : PuzzleManager)
    : outcome Puzzle * PuzzleManager :=
  let solved_ids := Tracker.get_solved_puzzle_ids (entries self) in
  match Selector.select_puzzle rand (db self) difficulty game_phase solved_ids theme with
  | Raises e => (Raises e, self)
  | Returns puzzle =>
      let self := set_current_puzzle self (Some puzzle) in
      match Validator.__init__ E puzzle with
      | Raises e => (Raises e, self)
      | Returns v =>
          let self := set_move_validator self (Some v) in
          let self := read_start_time self in
          let self := set_move_attempts self 0 in
          let self := set_hints_used self 0 in
          match renew_hint_system v self with
          | (Raises e, self) => (Raises e, self)
          | (Returns _, self) => (Returns puzzle, configure_timer timer_config self)
          end
      end
  end.

Definition msg_no_active_puzzle : string := "No active puzzle".

(** [validate_move] *)
Definition validate_move (user_input : string) (self : PuzzleManager)
    : outcome (bool * string) * PuzzleManager :=
  match move_validator self with
  | None => (Returns (false, msg_no_active_puzzle), self)
  | Some v =>
      let self := set_move_attempts self (move_attempts self + 1) in
      match Validator.validate_move E user_input v with
      | (Raises e, v') => (Raises e, set_move_validator self (Some v'))
      | (Returns (is_correct, message), v') =>
          let self := set_move_validator self (Some v') in
          if is_correct && negb (Validator.is_complete E v') then
            match renew_hint_system v' self with
            | (Raises e, self) => (Raises e, self)
            | (Returns _, self) => (Returns (is_correct, message), self)
            end
          else (Returns (is_correct, message), self)
      end
  end.

(** [get_hint] *)
Definition get_hint (self : PuzzleManager) : outcome (option Hints.Hint) * PuzzleManager :=
  match hint_system self with
  | None => (Returns None, self)
  | Some h =>
      let self := set_hints_used self (hints_used self + 1) in
      match Hints.get_next_hint E H h with
      | (Raises e, h') => (Raises e, set_hint_system self (Some h'))
      | (Returns hint, h') => (Returns (Some hint), set_hint_system self (Some h'))
      end
  end.

(** [is_puzzle_complete] *)
Definition is_puzzle_complete (self : PuzzleManager) : bool :=
  match move_validator self with
  | None => false
  | Some v => Validator.is_complete E v
  end.

(** [get_current_board] *)
Definition get_current_board (self : PuzzleManager) : option (Board E) :=
  match move_validator self with
  | None => None
  | Some v => Some (Validator.get_current_board E v)
  end.

(** The dict [finish_puzzle] returns. *)
Record Results : Type := {
  r_puzzle : Puzzle;
  r_solved : bool;
  r_attempts : Z;
  r_time_taken : Seconds W;
  r_hints_used : Z;
  r_difficulty : Z
}.

(** The time taken, as [finish_puzzle] computes it, and the number of clock
    readings afterwards. *)
Definition time_taken (self : PuzzleManager) : Seconds W * nat :=
  match timer self with
  | Some t =>
      let '(_, stopped, ticks') := Timer.stop W t (ticks self) in
      Timer.get_elapsed W stopped ticks'
  | None =>
      match start_time self with
      | Some started =>
          if ftruthy W started
          then (fsub W (time W (ticks self)) started, S (ticks self))
          else (fzero W, ticks self)
      | None => (fzero W, ticks self)
      end
  end.

(** [finish_puzzle(quit_early)]: [None] is the empty dict. *)
Definition finish_puzzle (quit_early : bool) (self : PuzzleManager)
    : option Results * PuzzleManager :=
  match current_puzzle self with
  | None => (None, self)
  | Some puzzle =>
      let '(taken, ticks') := time_taken self in
      let solved := match move_validator self with
                    | Some v => Validator.is_complete E v
                    | None => false
                    end in
      let difficulty := _rating_to_difficulty (rating puzzle) in
      let recorded :=
        if quit_early then (entries self, ticks')
        else (Tracker.record_attempt (entries self) (now W ticks')
                (puzzle_id puzzle) solved (move_attempts self) taken
                difficulty (hints_used self), S ticks') in
      (Some {| r_puzzle := puzzle; r_solved := solved;
               r_attempts := move_attempts self; r_time_taken := taken;
               r_hints_used := hints_used self; r_difficulty := difficulty |},
       {| db := db self; entries := fst recorded; current_puzzle := None;
          move_validator := None; hint_system := None; start_time := None;
          move_attempts := 0; hints_used := 0; timer := None;
          ticks := snd recorded |})
  end.

(** The moves of the solving loop: [validate_move] on each input in turn,
    until a call raises. *)
Fixpoint submit_all (inputs : list string) (self : PuzzleManager)
    : outcome (list (bool * string)) * PuzzleManager :=
  match inputs with
  | [] => (Returns [], self)
  | user_input :: rest =>
      match validate_move user_input self with
      | (Raises e, self') => (Raises e, self')
      | (Returns result, self') =>
          match submit_all rest self' with
          | (Raises e, self'') => (Raises e, self'')
          | (Returns results, self'') => (Returns (result :: results), self'')
          end
      end
  end.

(** What the updates of the hint system and of the timer leave alone. *)
Definition same_puzzle_state (a b : PuzzleManager) : Prop :=
  db a = db b /\ entries a = entries b /\
  current_puzzle a = current_puzzle b /\
  move_validator a = move_validator b /\
  move_attempts a = move_attempts b /\ hints_used a = hints_used b.

(** The states a manager goes through: built on a store and the entries of
    the progress file, then changed by its methods only. *)
Inductive reachable (db0 : Sql.Database) (entries0 : list Entry)
    : PuzzleManager -> Prop :=
| reach_init : reachable db0 entries0 (__init__ db0 entries0)
| reach_start rand difficulty game_phase theme timer_config self :
    reachable db0 entries0 self ->
    reachable db0 entries0
      (snd (start_puzzle rand difficulty game_phase theme timer_config self))
| reach_validate user_input self :
    reachable db0 entries0 self ->
    reachable db0 entries0 (snd (validate_move user_input self))
| reach_hint self :
    reachable db0 entries0 self ->
    reachable db0 entries0 (snd (get_hint self))
| reach_finish quit_early self :
    reachable db0 entries0 self ->
    reachable db0 entries0 (snd (finish_puzzle quit_early self)).

End WithEngine.
End Manager.

(** ** The example engine's pieces and squares, and an example clock *)

Module MiniHints.

(** [chess.PAWN = 1], ..., [chess.KING = 6] *)
Definition piece_type (p : MiniChess.Piece) : Z :=
  match MiniChess.piece_type p with
  | MiniChess.PAWN => 1
  | MiniChess.KNIGHT => 2
  | MiniChess.BISHOP => 3
  | MiniChess.ROOK => 4
  | MiniChess.QUEEN => 5
  | MiniChess.KING => 6
  end.

(** [chess.PIECE_NAMES] *)
Definition piece_name (piece_type : Z) : string :=
  nth (Z.to_nat piece_type)
      [""; "pawn"; "knight"; "bishop"; "rook"; "queen"; "king"] "".

Definition engine : HintEngine MiniChess.engine :=
  Build_HintEngine MiniChess.engine Z MiniChess.Piece
    MiniChess.from_square MiniChess.to_square MiniChess.piece_at
    piece_type piece_name MiniChess.square_name.

(** The hint system for the first solution move of the puzzle of four
    moves, at a given level. *)
Definition hints_at (l : Z) : Hints.HintSystem MiniChess.engine :=
  Hints.Build_HintSystem MiniChess.engine
    (Examples.play (Examples.position Examples.start_fen) "e2e4")
    (Examples.uci "e7e5") l.

End MiniHints.

Module Wall.

(** Whole seconds; a reading every ten seconds. *)
Definition world : World :=
  {| Seconds := Z; Date := Z;
     time := fun n => 100 + 10 * Z.of_nat n;
     now := fun n => Z.of_nat n;
     fsub := Z.sub; fzero := 0;
     ftruthy := fun x => negb (x =? 0) |}.

End Wall.

(** ** An example session of the manager *)

Module Desk.

(** A manager on the store of three puzzles with an empty history. *)
Definition fresh : Manager.PuzzleManager MiniChess.engine Wall.world :=
  Manager.__init__ MiniChess.engine Wall.world Examples.db_three [].

(** The puzzle of the first row. *)
Definition puzzle_a : Puzzle :=
  Selector._row_to_puzzle Examples.db_three (Examples.row "a" 1300 30).

(** After [start_puzzle(2, None)] with the first row drawn. *)
Definition started : Manager.PuzzleManager MiniChess.engine Wall.world :=
  snd (Manager.start_puzzle MiniChess.engine Wall.world Examples.draw0
         2 None None None fresh).

(** After the submissions [d5] and [e5]. *)
Definition answered : Manager.PuzzleManager MiniChess.engine Wall.world :=
  snd (Manager.submit_all MiniChess.engine Wall.world ["d5"; "e5"] started).

(** A manager at the start of the puzzle of four moves. *)
Definition at_four : Manager.PuzzleManager MiniChess.engine Wall.world :=
  Manager.set_move_validator MiniChess.engine Wall.world
    (Manager.set_current_puzzle MiniChess.engine Wall.world fresh
       (Some Examples.four_moves))
    (Some (Examples.built Examples.four_moves)).

End Desk.

(** ** data/database.py: the writes of the importer

    [INSERT OR IGNORE] skips a row whose key is taken. Theme ids are
    [AUTOINCREMENT] row ids: on a table from which nothing was deleted the
    next one is one more than the largest. *)

Module Store.

Import Sql.

Definition empty : Database :=
  {| tbl_puzzles := []; tbl_themes := []; tbl_puzzle_themes := [] |}.

(** [INSERT OR IGNORE INTO puzzles ...] *)
Definition insert_puzzle (row : puzzle_row) (db : Database) : Database :=
  if existsb (fun r => String.eqb (c_puzzle_id r) (c_puzzle_id row)) (tbl_puzzles db)
  then db
  else {| tbl_puzzles := tbl_puzzles db ++ [row];
          tbl_themes := tbl_themes db;
          tbl_puzzle_themes := tbl_puzzle_themes db |}.

(** [get_theme_id] *)
Definition get_theme_id (db : Database) (theme_name : string) : option Z :=
  option_map fst (find (fun t => String.eqb (snd t) theme_name) (tbl_themes db)).

(** [cursor.lastrowid] after an insert into [themes] *)
Definition next_theme_id (db : Database) : Z :=
  1 + fold_right Z.max 0 (map fst (tbl_themes db)).

(** [insert_theme]: the id of the theme, which is stored afterwards. An
    existing id is returned by the first lookup, or, when it is 0 and so
    not true, by the lookup after the failed insert. *)
Definition insert_theme (theme_name : string) (db : Database) : Z * Database :=
  match get_theme_id db theme_name with
  | Some theme_id => (theme_id, db)
  | None =>
      (next_theme_id db,
       {| tbl_puzzles := tbl_puzzles db;
          tbl_themes := tbl_themes db ++ [(next_theme_id db, theme_name)];
          tbl_puzzle_themes := tbl_puzzle_themes db |})
  end.

(** [INSERT OR IGNORE INTO puzzle_themes (puzzle_id, theme_id) ...] *)
Definition insert_link (puzzle_id : string) (theme_id : Z) (db : Database) : Database :=
  if existsb (fun pt => String.eqb (fst pt) puzzle_id && (snd pt =? theme_id))
             (tbl_puzzle_themes db)
  then db
  else {| tbl_puzzles := tbl_puzzles db;
          tbl_themes := tbl_themes db;
          tbl_puzzle_themes := tbl_puzzle_themes db ++ [(puzzle_id, theme_id)] |}.

(** The keys and references of the schema: [puzzle_id] is the key of
    [puzzles], [theme_id] the key of [themes], [theme_name] is unique, the
    pair is the key of [puzzle_themes], and a link refers to a stored
    puzzle and a stored theme. *)
Definition well_formed (db : Database) : Prop :=
  NoDup (map c_puzzle_id (tbl_puzzles db)) /\
  NoDup (map fst (tbl_themes db)) /\
  NoDup (map snd (tbl_themes db)) /\
  NoDup (tbl_puzzle_themes db) /\
  forall puzzle_id theme_id,
    In (puzzle_id, theme_id) (tbl_puzzle_themes db) ->
    In puzzle_id (map c_puzzle_id (tbl_puzzles db)) /\
    In theme_id (map fst (tbl_themes db)).

End Store.

(** ** data/puzzle_loader.py *)

Module Loader.

(** A row of the CSV file as [csv.DictReader] gives it, with the columns
    that are read by subscript present; [Themes] and [OpeningTags] are read
    with [row.get]. *)
Record CsvRow : Type := {
  PuzzleId : string;
  FEN : string;
  Moves : string;
  Rating : string;
  RatingDeviation : string;
  Popularity : string;
  NbPlays : string;
  Themes : option string;
  GameUrl : string;
  OpeningTags : option string
}.

(** [sep.join(l)] *)
Fixpoint join (sep : string) (l : list string) : string :=
  match l with
  | [] => ""
  | w :: ws =>
      match ws with
      | [] => w
      | _ => w ++ sep ++ join sep ws
      end
  end.

(** [row.get(key).split() if row.get(key) else []] *)
Definition words (field : option string) : list string :=
  match field with
  | Some text => if Py.truthy field then PyStr.split_ws text else []
  | None => []
  end.

(** What [_insert_batch] reads of the dict of a puzzle: the columns of the
    row and the themes. *)
Definition puzzle_data : Type := (Sql.puzzle_row * list string)%type.

Section WithEngine.

Context (E : ChessEngine).
(** [len(board.piece_map())] *)
Context (piece_map_len : Board E -> Z).
(** [int(text)]; [None] is [ValueError] *)
Context (int : string -> option Z).

(** [_transform_row]; every failure is a [ValueError]. *)
Definition _transform_row (row : CsvRow) : outcome puzzle_data :=
  match Board_of_fen E (FEN row) with
  | None => Raises Py.ValueError
  | Some board =>
      let piece_count := piece_map_len board in
      let moves := PyStr.split_ws (Moves row) in
      match moves with
      | [] => Raises Py.ValueError
      | _ :: _ =>
          let themes := words (Themes row) in
          let opening_tags := words (OpeningTags row) in
          match int (Rating row), int (RatingDeviation row),
                int (Popularity row), int (NbPlays row) with
          | Some rating, Some rating_deviation, Some popularity, Some nb_plays =>
              Returns ({| Sql.c_puzzle_id := PuzzleId row;
                          Sql.c_fen := FEN row;
                          Sql.c_moves := join " " moves;
                          Sql.c_rating := rating;
                          Sql.c_rating_deviation := rating_deviation;
                          Sql.c_popularity := popularity;
                          Sql.c_nb_plays := nb_plays;
                          Sql.c_game_url := GameUrl row;
                          Sql.c_opening_tags := join "," opening_tags;
                          Sql.c_piece_count := piece_count |}, themes)
          | _, _, _, _ => Raises Py.ValueError
          end
      end
  end.

End WithEngine.

(** The loop over [puzzle['themes']] *)
Definition insert_themes (puzzle_id : string) (themes : list string)
    (db : Sql.Database) : Sql.Database :=
  fold_left (fun db theme =>
               let '(theme_id, db) := Store.insert_theme theme db in
               Store.insert_link puzzle_id theme_id db)
            themes db.

Definition insert_one (db : Sql.Database) (puzzle : puzzle_data) : Sql.Database :=
  insert_themes (Sql.c_puzzle_id (fst puzzle)) (snd puzzle)
                (Store.insert_puzzle (fst puzzle) db).

(** [_insert_batch] *)
Definition _insert_batch (batch : list puzzle_data) (db : Sql.Database) : Sql.Database :=
  fold_left insert_one batch db.

Section WithEngine.

Context (E : ChessEngine).
Context (piece_map_len : Board E -> Z).
Context (int : string -> option Z).

(** The state of the loop of [import_from_lichess]: the batch, the
    count and the store. *)
Definition loop_state : Type := (list puzzle_data * Z * Sql.Database)%type.

(** [if len(batch) >= batch_size: ...] *)
Definition flush (batch_size : Z) (state : loop_state) : loop_state :=
  let '(batch, imported_count, db) := state in
  if batch_size <=? Py.len batch
  then ([], imported_count + Py.len batch, _insert_batch batch db)
  else state.

(** [if limit and imported_count >= limit] *)
Definition limit_reached (limit : option Z) (imported_count : Z) : bool :=
  match limit with
  | Some n => negb (n =? 0) && (n <=? imported_count)
  | None => false
  end.

(** The loop over the rows of the file: a row that cannot be transformed
    is skipped. *)
Fixpoint import_loop (batch_size : Z) (limit : option Z) (rows : list CsvRow)
    (state : loop_state) : loop_state :=
  match rows with
  | [] => state
  | row :: rest =>
      match _transform_row E piece_map_len int row with
      | Raises _ => import_loop batch_size limit rest state
      | Returns puzzle =>
          let '(batch, imported_count, db) := state in
          let state := flush batch_size ((batch ++ [puzzle])%list, imported_count, db) in
          if limit_reached limit (snd (fst state)) then state
          else import_loop batch_size limit rest state
      end
  end.

(** [if batch: ...] after the loop: the number of imported puzzles that is
    reported and the store that is left. *)
Definition insert_remaining (state : loop_state) : Z * Sql.Database :=
  let '(batch, imported_count, db) := state in
  match batch with
  | [] => (imported_count, db)
  | _ :: _ => (imported_count + Py.len batch, _insert_batch batch db)
  end.

(** [import_from_lichess] on the rows of the file, with the batch size of
    [Settings.IMPORT_BATCH_SIZE] as an argument. *)
Definition import_from_lichess (batch_size : Z) (rows : list CsvRow)
    (limit : option Z) (db : Sql.Database) : Z * Sql.Database :=
  insert_remaining (import_loop batch_size limit rows ([], 0, db)).

Definition IMPORT_BATCH_SIZE : Z := 1000.

(** The rows that [_transform_row] accepts, transformed. *)
Fixpoint transformed (rows : list CsvRow) : list puzzle_data :=
  match rows with
  | [] => []
  | row :: rest =>
      match _transform_row E piece_map_len int row with
      | Raises _ => transformed rest
      | Returns puzzle => puzzle :: transformed rest
      end
  end.

End WithEngine.

(** A word of [split()]: not empty, no white space. *)
Fixpoint no_space (s : string) : bool :=
  match s with
  | EmptyString => true
  | String c s' => negb (Py.is_space c) && no_space s'
  end.

Definition is_word (w : string) : bool := negb (String.eqb w "") && no_space w.

(** No character of the text is [c]. *)
Fixpoint free_of (c : ascii) (s : string) : bool :=
  match s with
  | EmptyString => true
  | String x s' => negb (Ascii.eqb x c) && free_of c s'
  end.

End Loader.

(** ** An example file *)

Module Csv.

(** [int] on a text of ASCII digits *)
Fixpoint digits (s : string) (acc : Z) : option Z :=
  match s with
  | EmptyString => Some acc
  | String c s' =>
      let n := Z.of_nat (nat_of_ascii c) in
      if (48 <=? n) && (n <=? 57) then digits s' (10 * acc + (n - 48)) else None
  end.

Definition decimal (s : string) : option Z :=
  match s with
  | EmptyString => None
  | String _ _ => digits s 0
  end.

(** [len(board.piece_map())] on the example engine *)
Definition piece_map_len (b : MiniChess.Board) : Z :=
  Py.len (filter (fun sq => match sq with Some _ => true | None => false end)
                 (MiniChess.squares b)).

Definition csv_row (id moves rating themes : string) : Loader.CsvRow :=
  {| Loader.PuzzleId := id; Loader.FEN := Examples.start_fen;
     Loader.Moves := moves; Loader.Rating := rating;
     Loader.RatingDeviation := "80"; Loader.Popularity := "90";
     Loader.NbPlays := "1000"; Loader.Themes := Some themes;
     Loader.GameUrl := "https://lichess.org/x";
     Loader.OpeningTags := Some "Kings_Pawn_Game Kings_Pawn_Game_Leonardis" |}.

(** One row without moves among three good ones. *)
Definition rows : list Loader.CsvRow :=
  [csv_row "p1" "e2e4 e7e5" "1500" "fork short";
   csv_row "p2" "  " "1500" "pin";
   csv_row "p3" "e2e4  e7e5 g1f3 b8c6" "1700" "fork";
   csv_row "p4" "d2d4 d7d5" "2100" ""].

(** What [_transform_row] makes of the first row. *)
Definition stored_p1 : Sql.puzzle_row :=
  {| Sql.c_puzzle_id := "p1"; Sql.c_fen := Examples.start_fen;
     Sql.c_moves := "e2e4 e7e5"; Sql.c_rating := 1500;
     Sql.c_rating_deviation := 80; Sql.c_popularity := 90;
     Sql.c_nb_plays := 1000; Sql.c_game_url := "https://lichess.org/x";
     Sql.c_opening_tags := "Kings_Pawn_Game,Kings_Pawn_Game_Leonardis";
     Sql.c_piece_count := 32 |}.

End Csv.

(** * Properties *)

(** ** Python indexing *)

Lemma index_in_range {A} (l : list A) (i : Z) :
  - Py.len l <= i < Py.len l -> exists x, Py.index l i = Some x.
Proof.
  unfold Py.index, Py.len. intros H.
  destruct (Z.leb_spec 0 i); simpl.
  - destruct (Z.ltb_spec i (Z.of_nat (length l))); [|lia].
    destruct (nth_error l (Z.to_nat i)) eqn:Hn; [eauto|].
    apply nth_error_None in Hn. lia.
  - destruct (Z.ltb_spec i (Z.of_nat (length l))); simpl;
      destruct (Z.leb_spec (- Z.of_nat (length l)) i); simpl; try lia;
      destruct (Z.ltb_spec i 0); try lia;
      (destruct (nth_error l (Z.to_nat (Z.of_nat (length l) + i))) eqn:Hn; [eauto|];
       apply nth_error_None in Hn; lia).
Qed.

Lemma index_cons_0 {A} (x : A) (l : list A) : Py.index (x :: l) 0 = Some x.
Proof.
  unfold Py.index, Py.len. simpl length.
  destruct (Z.ltb_spec 0 (Z.of_nat (S (length l)))); [reflexivity|lia].
Qed.

Lemma index_nil {A} (i : Z) : Py.index (@nil A) i = None.
Proof.
  unfold Py.index, Py.len. simpl.
  destruct (Z.leb_spec 0 i), (Z.ltb_spec i 0); simpl; try reflexivity; lia.
Qed.

(** ** The validator *)

Module ValidatorFacts.
Section WithEngine.

Context (E : ChessEngine).

Import Validator.

Abbreviation MV := (MoveValidator E).

Lemma _parse_move_state (self : MV) (s : string) :
  snd (_parse_move E s self) = self.
Proof.
  unfold _parse_move, bind, get, ret, raise.
  destruct (parse_san E _ _); [reflexivity|].
  destruct (from_uci E _); [|reflexivity].
  destruct (is_legal E _ _); reflexivity.
Qed.

Lemma _parse_move_raises (self : MV) (s : string) (e : Py.exn) :
  parsed E self s = Raises e ->
  e = Py.InvalidMoveError (invalid_format_message (Py.strip s)).
Proof.
  unfold parsed, _parse_move, bind, get, ret, raise.
  destruct (parse_san E _ _); simpl; [discriminate|].
  destruct (from_uci E _); simpl; [|congruence].
  destruct (is_legal E _ _); simpl; congruence.
Qed.

Lemma validate_move_parsed (self : MV) (s : string) (m : Move E) :
  parsed E self s = Returns m ->
  validate_move E s self = validate_parsed E m self.
Proof.
  unfold parsed, validate_move. intros H.
  pose proof (_parse_move_state self s) as Hs.
  destruct (_parse_move E s self) as [o st]; simpl in *. now subst.
Qed.

Lemma validate_move_unparsed (self : MV) (s : string) (e : Py.exn) :
  parsed E self s = Raises e ->
  validate_move E s self =
    (Returns (false, invalid_format_message (Py.strip s)), self).
Proof.
  intros H. pose proof (_parse_move_raises _ _ _ H) as ->.
  unfold parsed in H. unfold validate_move.
  pose proof (_parse_move_state self s) as Hs.
  destruct (_parse_move E s self) as [o st]; simpl in *. now subst.
Qed.

Lemma setup_board_init (p : Puzzle) (b : Board E) :
  _setup_board E p = Returns b ->
  __init__ E p = Returns {| puzzle := p; board := b;
                            solution_moves := puzzle_solution_moves p;
                            current_move_index := 0 |}.
Proof. unfold __init__. now intros ->. Qed.

Ltac run_validator :=
  unfold validate_parsed, bind, get, lift, ret, raise, modify, board_push,
         is_complete, set_index, set_board; simpl.

Ltac split_cases :=
  repeat match goal with
         | |- context [match ?x with _ => _ end] =>
             lazymatch x with
             | context [match _ with _ => _ end] => fail
             | _ => destruct x eqn:?; simpl
             end
         end.

(** [validate_move] never replaces the solution list or the puzzle. *)
Lemma validate_parsed_solution (self : MV) (m : Move E) :
  solution_moves E (snd (validate_parsed E m self)) = solution_moves E self.
Proof. run_validator. split_cases; reflexivity. Qed.

Lemma validate_move_solution (self : MV) (s : string) :
  solution_moves E (snd (validate_move E s self)) = solution_moves E self.
Proof.
  destruct (parsed E self s) as [m|e] eqn:Hp.
  - rewrite (validate_move_parsed _ _ _ Hp). apply validate_parsed_solution.
  - now rewrite (validate_move_unparsed _ _ _ Hp).
Qed.

Lemma validate_parsed_cursor (self : MV) (m : Move E) :
  cursor_in_range E self -> cursor_in_range E (snd (validate_parsed E m self)).
Proof.
  unfold cursor_in_range. run_validator. intros H.
  split_cases; simpl; try assumption;
    repeat match goal with
           | H : (_ <=? _) = _ |- _ => apply Z.leb_gt in H || apply Z.leb_le in H
           | H : (_ <? _) = _ |- _ => apply Z.ltb_lt in H || apply Z.ltb_ge in H
           end; lia.
Qed.

Lemma validate_parsed_complete (self : MV) (m : Move E) :
  is_complete E self = true ->
  exists msg, validate_parsed E m self = (Returns (false, msg), self).
Proof.
  unfold is_complete. intros H. unfold validate_parsed, bind, get, ret.
  destruct (negb (is_legal E (board E self) m)); [eauto|].
  rewrite H. eauto.
Qed.

Lemma reset_cursor (self : MV) :
  cursor_in_range E self -> cursor_in_range E (snd (reset E self)).
Proof.
  unfold cursor_in_range, reset. intros H.
  destruct (_setup_board E (puzzle E self)); simpl; [|assumption].
  unfold Py.len in *. lia.
Qed.

(** *** Construction *)

(** C8: constructing a validator from a puzzle [m0, m1, ...] applies the
    setup move [m0] to the position of [fen], takes [moves[1:]] as the
    solution with the cursor at 0, and [get_current_solution_move] is
    then [m1]. *)
Theorem init_applies_setup_move
    (p : Puzzle) (m0 m1 : string) (rest : list string)
    (b0 : Board E) (first_move : Move E) :
  moves p = m0 :: m1 :: rest ->
  Board_of_fen E (fen p) = Some b0 ->
  from_uci E m0 = Some first_move ->
  push_ok E b0 first_move = true ->
  exists v,
    __init__ E p = Returns v /\
    puzzle E v = p /\
    board E v = push E b0 first_move /\
    solution_moves E v = m1 :: rest /\
    current_move_index E v = 0 /\
    is_complete E v = false /\
    get_current_solution_move E v = Returns (Some m1).
Proof.
  intros Hm Hb Hu Hp.
  assert (Hs : _setup_board E p = Returns (push E b0 first_move)).
  { unfold _setup_board. rewrite Hb, Hm, index_cons_0, Hu, Hp. reflexivity. }
  eexists. split; [apply (setup_board_init _ _ Hs)|].
  unfold puzzle_solution_moves, get_current_solution_move, is_complete,
         Py.slice_from_1.
  cbn [puzzle board solution_moves current_move_index].
  rewrite Hm. cbn [tl]. rewrite index_cons_0.
  repeat split; reflexivity.
Qed.

(** C9, as the code has it: construction raises exactly when the engine
    cannot read [fen], when [moves] is empty, when [moves[0]] is not UCI
    text, or when the engine's [push] refuses it. Nothing else is looked
    at: a record with a single move is constructed, and is complete from
    the start. *)
Theorem init_raises_iff (p : Puzzle) :
  ((exists e, __init__ E p = Raises e) <->
     Board_of_fen E (fen p) = None \/
     moves p = [] \/
     (exists b m0 rest,
         Board_of_fen E (fen p) = Some b /\ moves p = m0 :: rest /\
         (from_uci E m0 = None \/
          exists mv, from_uci E m0 = Some mv /\ push_ok E b mv = false)))
  /\ (forall m0 v, moves p = [m0] -> __init__ E p = Returns v ->
        is_complete E v = true /\ get_current_solution_move E v = Returns None).
Proof.
  split.
  - unfold __init__, _setup_board. split.
    + intros [e He].
      destruct (Board_of_fen E (fen p)) as [b|] eqn:Hb; [|now left].
      right. destruct (moves p) as [|m0 rest] eqn:Hm; [now left|].
      right. exists b, m0, rest. repeat split.
      rewrite index_cons_0 in He.
      destruct (from_uci E m0) as [mv|]; [|now left].
      right. exists mv. split; [reflexivity|].
      destruct (push_ok E b mv); [discriminate|reflexivity].
    + intros [Hb|[Hm|(b & m0 & rest & Hb & Hm & H)]].
      * rewrite Hb. eauto.
      * destruct (Board_of_fen E (fen p)); [|eauto].
        rewrite Hm, index_nil. eauto.
      * rewrite Hb, Hm, index_cons_0.
        destruct H as [Hu|(mv & Hu & Hp)]; rewrite Hu; [eauto|].
        rewrite Hp. eauto.
  - intros m0 v Hm Hi. unfold __init__ in Hi.
    destruct (_setup_board E p); [|discriminate].
    injection Hi as <-.
    unfold is_complete, get_current_solution_move, puzzle_solution_moves.
    simpl. rewrite Hm. simpl. split; reflexivity.
Qed.

(** *** The cursor *)

(** C10: [0 <= current_move_index <= len(solution_moves)] holds after
    construction and is kept by [validate_move] and [reset], whether they
    return or raise; so [get_moves_remaining] is the difference and is not
    negative; and on a complete validator [validate_move] rejects every
    input and changes nothing. *)
Theorem cursor_invariant :
  (forall p v, __init__ E p = Returns v -> cursor_in_range E v) /\
  (forall self : MV, cursor_in_range E self ->
     (forall s, cursor_in_range E (snd (validate_move E s self))) /\
     cursor_in_range E (snd (reset E self)) /\
     get_moves_remaining E self
       = Py.len (solution_moves E self) - current_move_index E self /\
     0 <= get_moves_remaining E self /\
     (is_complete E self = true ->
      forall s, exists msg, validate_move E s self = (Returns (false, msg), self))).
Proof.
  split.
  - intros p v H. unfold __init__ in H.
    destruct (_setup_board E p); [|discriminate]. injection H as <-.
    unfold cursor_in_range, Py.len. simpl. lia.
  - intros self H. repeat split.
    + destruct (parsed E self s) as [m|e] eqn:Hp.
      * rewrite (validate_move_parsed _ _ _ Hp).
        apply (validate_parsed_cursor self m H).
      * rewrite (validate_move_unparsed _ _ _ Hp). apply H.
    + destruct (parsed E self s) as [m|e] eqn:Hp.
      * rewrite (validate_move_parsed _ _ _ Hp).
        apply (validate_parsed_cursor self m H).
      * rewrite (validate_move_unparsed _ _ _ Hp). apply H.
    + apply (reset_cursor self H).
    + apply (reset_cursor self H).
    + unfold get_moves_remaining, cursor_in_range in *. lia.
    + unfold get_moves_remaining. lia.
    + intros Hc s. destruct (parsed E self s) as [m|e] eqn:Hp.
      * rewrite (validate_move_parsed _ _ _ Hp).
        apply validate_parsed_complete, Hc.
      * rewrite (validate_move_unparsed _ _ _ Hp). eauto.
Qed.

(** *** A correct move *)

Lemma index_some_range {A} (l : list A) (i : Z) (x : A) :
  Py.index l i = Some x -> - Py.len l <= i < Py.len l.
Proof.
  unfold Py.index.
  destruct (Z.leb_spec 0 i), (Z.ltb_spec i (Py.len l)); simpl; try lia;
    destruct (Z.leb_spec (- Py.len l) i), (Z.ltb_spec i 0); simpl;
    try discriminate; lia.
Qed.

Ltac vstep :=
  cbn [negb board solution_moves current_move_index puzzle set_index set_board
       fst snd].

Lemma validate_parsed_last (self : MV) (m e : Move E) (u : string) :
  legal_moves_push E ->
  is_legal E (board E self) m = true ->
  is_complete E self = false ->
  Py.index (solution_moves E self) (current_move_index E self) = Some u ->
  from_uci E u = Some e ->
  move_eqb E m e = true ->
  Py.len (solution_moves E self) <= current_move_index E self + 1 ->
  validate_parsed E m self = (Returns (true, msg_solved), after_move E self m).
Proof.
  intros L Hl Hc Hi Hu He Hlast. unfold is_complete in Hc.
  unfold validate_parsed, bind, get, lift, ret, modify, board_push, after_move.
  vstep. rewrite Hl. vstep. rewrite Hc, Hi. vstep. rewrite Hu. vstep.
  rewrite He. vstep. rewrite (L _ _ Hl). vstep.
  unfold is_complete. vstep.
  destruct (Z.leb_spec (Py.len (solution_moves E self))
                       (current_move_index E self + 1)); [reflexivity|lia].
Qed.

Lemma validate_parsed_reply (self : MV) (m e r : Move E) (u u' : string) :
  legal_moves_push E ->
  is_legal E (board E self) m = true ->
  is_complete E self = false ->
  Py.index (solution_moves E self) (current_move_index E self) = Some u ->
  from_uci E u = Some e ->
  move_eqb E m e = true ->
  current_move_index E self + 1 < Py.len (solution_moves E self) ->
  Py.index (solution_moves E self) (current_move_index E self + 1) = Some u' ->
  from_uci E u' = Some r ->
  push_ok E (push E (board E self) m) r = true ->
  validate_parsed E m self =
    (Returns (true, if is_complete E (after_move E (after_move E self m) r)
                    then msg_solved else msg_continue),
     after_move E (after_move E self m) r).
Proof.
  intros L Hl Hc Hi Hu He Hmore Hi' Hu' Hp. unfold is_complete in Hc.
  unfold validate_parsed, bind, get, lift, ret, modify, board_push, after_move.
  vstep. rewrite Hl. vstep. rewrite Hc, Hi. vstep. rewrite Hu. vstep.
  rewrite He. vstep. rewrite (L _ _ Hl). vstep.
  unfold is_complete. vstep.
  destruct (Z.leb_spec (Py.len (solution_moves E self))
                       (current_move_index E self + 1)); [lia|].
  destruct (Z.ltb_spec (current_move_index E self + 1)
                       (Py.len (solution_moves E self))); [|lia].
  rewrite Hi'. vstep. rewrite Hu'. vstep. rewrite Hp. vstep.
  destruct (Py.len (solution_moves E self) <=? current_move_index E self + 1 + 1);
    reflexivity.
Qed.

(** C1: on a validator that is not complete, an input that denotes the
    legal move equal to [solution_moves[cursor]] is applied and the cursor
    incremented; if that reaches the end the result is the completion
    message and [is_complete] holds; otherwise the next solution move is
    applied as the reply and the cursor incremented again, and the result
    is the completion message if that reaches the end and the
    continuation message if not. *)
Theorem validate_move_correct
    (self : MV) (user_input expected_uci : string) (move expected_move : Move E) :
  legal_moves_push E ->
  is_complete E self = false ->
  parsed E self user_input = Returns move ->
  is_legal E (board E self) move = true ->
  Py.index (solution_moves E self) (current_move_index E self) = Some expected_uci ->
  from_uci E expected_uci = Some expected_move ->
  move_eqb E move expected_move = true ->
  let played := after_move E self move in
  board E played = push E (board E self) move /\
  current_move_index E played = current_move_index E self + 1 /\
  (Py.len (solution_moves E self) <= current_move_index E played ->
     validate_move E user_input self = (Returns (true, msg_solved), played) /\
     is_complete E played = true) /\
  (current_move_index E played < Py.len (solution_moves E self) ->
     exists reply_uci,
       Py.index (solution_moves E self) (current_move_index E played) = Some reply_uci /\
       forall reply,
         from_uci E reply_uci = Some reply ->
         push_ok E (board E played) reply = true ->
         let replied := after_move E played reply in
         board E replied = push E (board E played) reply /\
         current_move_index E replied = current_move_index E self + 2 /\
         validate_move E user_input self =
           (Returns (true, if is_complete E replied then msg_solved else msg_continue),
            replied) /\
         (is_complete E replied = true <->
            Py.len (solution_moves E self) <= current_move_index E self + 2)).
Proof.
  intros L Hc Hp Hl Hi Hu He played.
  rewrite (validate_move_parsed _ _ _ Hp).
  split; [reflexivity|]. split; [reflexivity|]. split.
  - intros Hlast. split.
    + apply (validate_parsed_last self move expected_move expected_uci); auto.
    + unfold is_complete. simpl. now apply Z.leb_le.
  - intros Hmore. simpl in Hmore.
    pose proof (index_some_range _ _ _ Hi) as Hr.
    destruct (index_in_range (solution_moves E self) (current_move_index E self + 1))
      as [reply_uci Hi']; [lia|].
    exists reply_uci. split; [exact Hi'|].
    intros reply Hu' Hok replied.
    split; [reflexivity|]. split; [simpl; lia|]. split.
    + apply (validate_parsed_reply self move expected_move reply expected_uci reply_uci);
        auto.
    + unfold is_complete. simpl. rewrite Z.leb_le. lia.
Qed.

(** *** A rejected move *)

(** A rejection never comes with a changed validator. *)
Lemma validate_parsed_rejected_state (self self' : MV) (m : Move E) (msg : string) :
  validate_parsed E m self = (Returns (false, msg), self') -> self' = self.
Proof.
  unfold validate_parsed, bind, get, lift, ret, modify, board_push, is_complete.
  vstep. split_cases; intros H; inversion H; reflexivity.
Qed.

Lemma validate_parsed_mismatch_state (self : MV) (m e : Move E) (u : string) :
  Py.index (solution_moves E self) (current_move_index E self) = Some u ->
  from_uci E u = Some e ->
  move_eqb E m e = false ->
  snd (validate_parsed E m self) = self.
Proof.
  intros Hi Hu He.
  unfold validate_parsed, bind, get, lift, ret.
  destruct (negb (is_legal E (board E self) m)); [reflexivity|].
  destruct (Py.len (solution_moves E self) <=? current_move_index E self);
    [reflexivity|].
  rewrite Hi. vstep. rewrite Hu. vstep. rewrite He. vstep.
  destruct (san E (board E self) e); reflexivity.
Qed.

(** C2, as the code has it: an input that does not parse, or parses to an
    illegal move, is rejected with a message and nothing changes; an input
    that parses to a legal move other than the pending solution move is
    rejected with a message and nothing changes when the engine can render
    the pending move in SAN; a rejection never changes the validator; and
    when the pending move is UCI text that the input does not match, the
    validator is unchanged even if the call raises. *)
Theorem validate_move_rejects (self : MV) (user_input : string) :
  (forall e, parsed E self user_input = Raises e ->
     validate_move E user_input self =
       (Returns (false, invalid_format_message (Py.strip user_input)), self)) /\
  (forall move,
     parsed E self user_input = Returns move ->
     is_legal E (board E self) move = false ->
     validate_move E user_input self = (Returns (false, msg_illegal), self)) /\
  (forall move expected_uci expected_move text,
     parsed E self user_input = Returns move ->
     is_legal E (board E self) move = true ->
     Py.index (solution_moves E self) (current_move_index E self) = Some expected_uci ->
     from_uci E expected_uci = Some expected_move ->
     move_eqb E move expected_move = false ->
     (is_complete E self = false ->
      san E (board E self) expected_move = Some text ->
      validate_move E user_input self = (Returns (false, msg_incorrect), self)) /\
     snd (validate_move E user_input self) = self) /\
  (forall msg self',
     validate_move E user_input self = (Returns (false, msg), self') ->
     self' = self /\
     current_move_index E self' = current_move_index E self /\
     get_current_board E self' = get_current_board E self /\
     is_complete E self' = is_complete E self).
Proof.
  repeat split.
  - intros e He. apply (validate_move_unparsed _ _ _ He).
  - intros move Hp Hl. rewrite (validate_move_parsed _ _ _ Hp).
    unfold validate_parsed, bind, get, ret. now rewrite Hl.
  - intros Hc Hs. rewrite (validate_move_parsed _ _ _ H).
    unfold is_complete in Hc.
    unfold validate_parsed, bind, get, lift, ret.
    rewrite H0, Hc, H1. vstep. rewrite H2. vstep. rewrite H3. vstep.
    rewrite Hs. reflexivity.
  - rewrite (validate_move_parsed _ _ _ H).
    apply (validate_parsed_mismatch_state self move expected_move expected_uci);
      assumption.
  - destruct (parsed E self user_input) as [m|e] eqn:Hp.
    + rewrite (validate_move_parsed _ _ _ Hp) in H.
      apply (validate_parsed_rejected_state _ _ _ _ H).
    + rewrite (validate_move_unparsed _ _ _ Hp) in H. now inversion H.
  - destruct (parsed E self user_input) as [m|e] eqn:Hp.
    + rewrite (validate_move_parsed _ _ _ Hp) in H.
      now rewrite (validate_parsed_rejected_state _ _ _ _ H).
    + rewrite (validate_move_unparsed _ _ _ Hp) in H. now inversion H.
  - destruct (parsed E self user_input) as [m|e] eqn:Hp.
    + rewrite (validate_move_parsed _ _ _ Hp) in H.
      now rewrite (validate_parsed_rejected_state _ _ _ _ H).
    + rewrite (validate_move_unparsed _ _ _ Hp) in H. now inversion H.
  - destruct (parsed E self user_input) as [m|e] eqn:Hp.
    + rewrite (validate_move_parsed _ _ _ Hp) in H.
      now rewrite (validate_parsed_rejected_state _ _ _ _ H).
    + rewrite (validate_move_unparsed _ _ _ Hp) in H. now inversion H.
Qed.

(** *** Two notations for one move *)

Lemma parsed_san (self : MV) (s : string) (m : Move E) :
  parse_san E (board E self) (Py.strip s) = Some m ->
  parsed E self s = Returns m.
Proof.
  intros H. unfold parsed, _parse_move, bind, get, ret. vstep. now rewrite H.
Qed.

Lemma parsed_uci (self : MV) (s : string) (m : Move E) :
  from_uci E (Py.strip s) = Some m ->
  is_legal E (board E self) m = true ->
  (forall m', parse_san E (board E self) (Py.strip s) = Some m' -> m' = m) ->
  parsed E self s = Returns m.
Proof.
  intros Hu Hl Hs. unfold parsed, _parse_move, bind, get, ret, raise. vstep.
  destruct (parse_san E (board E self) (Py.strip s)) as [m'|] eqn:Hp.
  - now rewrite (Hs m' eq_refl).
  - now rewrite Hu, Hl.
Qed.

(** Two inputs that denote the same move get the same result and leave
    the same validator. *)
Lemma same_move_same_result (self : MV) (san_text uci_text : string) (move : Move E) :
  parse_san E (board E self) (Py.strip san_text) = Some move ->
  from_uci E (Py.strip uci_text) = Some move ->
  is_legal E (board E self) move = true ->
  (forall m', parse_san E (board E self) (Py.strip uci_text) = Some m' -> m' = move) ->
  validate_move E san_text self = validate_move E uci_text self.
Proof.
  intros Hs Hu Hl Hc.
  rewrite (validate_move_parsed _ _ _ (parsed_san _ _ _ Hs)).
  rewrite (validate_move_parsed _ _ _ (parsed_uci _ _ _ Hu Hl Hc)).
  reflexivity.
Qed.

(** *** A puzzle of four moves *)

Lemma init_fields (p : Puzzle) (v : MV) :
  __init__ E p = Returns v ->
  solution_moves E v = tl (moves p) /\ current_move_index E v = 0.
Proof.
  unfold __init__. destruct (_setup_board E p); [|discriminate].
  intros H. injection H as <-. split; reflexivity.
Qed.

(** C6, as the code has it: with [moves = [m0, m1, m2, m3]] the correct
    move for [m1] advances the cursor to 1, [m2] is applied as the reply
    and the cursor is 2; the solution has three moves, so the validator is
    not complete, the result is the continuation message and the pending
    move is [m3]. The correct move for [m3] then completes the puzzle:
    two correct submissions, not one. *)
Theorem four_moves_take_two_submissions
    (p : Puzzle) (m0 m1 m2 m3 : string) (v : MV)
    (input1 input2 : string) (mv1 e1 reply mv3 e3 : Move E) :
  legal_moves_push E ->
  moves p = [m0; m1; m2; m3] ->
  __init__ E p = Returns v ->
  parsed E v input1 = Returns mv1 ->
  is_legal E (board E v) mv1 = true ->
  from_uci E m1 = Some e1 ->
  move_eqb E mv1 e1 = true ->
  from_uci E m2 = Some reply ->
  push_ok E (push E (board E v) mv1) reply = true ->
  let v1 := after_move E (after_move E v mv1) reply in
  validate_move E input1 v = (Returns (true, msg_continue), v1) /\
  current_move_index E v1 = 2 /\
  is_complete E v1 = false /\
  get_current_solution_move E v1 = Returns (Some m3) /\
  (parsed E v1 input2 = Returns mv3 ->
   is_legal E (board E v1) mv3 = true ->
   from_uci E m3 = Some e3 ->
   move_eqb E mv3 e3 = true ->
   let v2 := after_move E v1 mv3 in
   validate_move E input2 v1 = (Returns (true, msg_solved), v2) /\
   current_move_index E v2 = 3 /\
   is_complete E v2 = true).
Proof.
  intros L Hm Hi Hp1 Hl1 Hu1 He1 Hu2 Hok v1.
  destruct (init_fields _ _ Hi) as [Hs Hc]. rewrite Hm in Hs. cbn [tl] in Hs.
  assert (Hn1 : is_complete E v1 = false).
  { unfold is_complete, v1, after_move. vstep. rewrite Hs, Hc. reflexivity. }
  assert (Hv1 : validate_move E input1 v = (Returns (true, msg_continue), v1)).
  { rewrite (validate_move_parsed _ _ _ Hp1).
    rewrite (validate_parsed_reply v mv1 e1 reply m1 m2); auto.
    - fold v1. rewrite Hn1. reflexivity.
    - unfold is_complete. rewrite Hs, Hc. reflexivity.
    - rewrite Hs, Hc. reflexivity.
    - rewrite Hs, Hc. reflexivity.
    - rewrite Hs, Hc. reflexivity. }
  assert (Hs1 : solution_moves E v1 = [m1; m2; m3]) by exact Hs.
  assert (Hc1 : current_move_index E v1 = 2).
  { unfold v1, after_move. vstep. rewrite Hc. reflexivity. }
  split; [exact Hv1|]. split; [exact Hc1|].
  split; [exact Hn1|].
  split; [unfold get_current_solution_move; rewrite Hs1, Hc1; reflexivity|].
  intros Hp3 Hl3 Hu3 He3 v2.
  assert (Hc2 : current_move_index E v2 = 3).
  { unfold v2, after_move at 1. vstep. rewrite Hc1. reflexivity. }
  split; [|split; [exact Hc2|]].
  - rewrite (validate_move_parsed _ _ _ Hp3).
    apply (validate_parsed_last v1 mv3 e3 m3);
      try assumption; rewrite Hs1, Hc1; try reflexivity.
  - unfold is_complete. rewrite Hc2.
    change (solution_moves E v2) with (solution_moves E v1).
    rewrite Hs1. reflexivity.
Qed.

End WithEngine.
End ValidatorFacts.

(** ** The validator on [MiniChess] *)

Module OnMiniChess.

Import Validator Examples.

Abbreviation E := MiniChess.engine.

Lemma minichess_pushes_legal_moves : legal_moves_push E.
Proof.
  intros b m. simpl.
  unfold MiniChess.is_legal, MiniChess.is_pseudo_legal, MiniChess.push_ok.
  intros H. apply andb_true_iff in H as [H _].
  destruct (MiniChess.is_null m); [discriminate|]. simpl.
  destruct (negb _); [discriminate|].
  destruct (MiniChess.piece_at b (MiniChess.from_square m));
    [reflexivity|discriminate].
Qed.

(** What construction gives on the example records. *)
Lemma init_two_moves : __init__ E two_moves = Returns (built two_moves).
Proof. reflexivity. Qed.

Lemma init_four_moves : __init__ E four_moves = Returns (built four_moves).
Proof. reflexivity. Qed.

Lemma init_one_move : __init__ E one_move = Returns (built one_move).
Proof. reflexivity. Qed.

(** The puzzle of two moves is solved by [e5] and by [e7e5]. *)
Lemma two_moves_scenario (input : string) :
  input = "e5" \/ input = "e7e5" ->
  validate_move E input (built two_moves)
    = (Returns (true, msg_solved), advanced two_moves 1) /\
  is_complete E (advanced two_moves 1) = true.
Proof. intros [->| ->]; split; reflexivity. Qed.

(** C7: when a SAN text and a coordinate text denote the same legal
    move of the current position, [validate_move] gives both the same
    result and leaves the same validator (so the same accepted value and
    the same cursor); and for the puzzle of two moves on the initial
    position, after [e2e4], [e5] and [e7e5] are both accepted and complete
    the puzzle. *)
Theorem san_and_uci_agree :
  (forall (G : ChessEngine) (self : MoveValidator G)
          (san_text uci_text : string) (move : Move G),
      parse_san G (board G self) (Py.strip san_text) = Some move ->
      from_uci G (Py.strip uci_text) = Some move ->
      is_legal G (board G self) move = true ->
      (forall m', parse_san G (board G self) (Py.strip uci_text) = Some m' ->
                  m' = move) ->
      validate_move G san_text self = validate_move G uci_text self) /\
  (exists v,
      __init__ E two_moves = Returns v /\
      forall input, input = "e5" \/ input = "e7e5" ->
        exists v', validate_move E input v = (Returns (true, msg_solved), v') /\
                   is_complete E v' = true).
Proof.
  split.
  - intros G self san_text uci_text move.
    apply ValidatorFacts.same_move_same_result.
  - exists (built two_moves). split; [exact init_two_moves|].
    intros input H. exists (advanced two_moves 1).
    apply (two_moves_scenario input H).
Qed.

Lemma san_and_uci_agree_witness :
  validate_move E "e5" (built two_moves) = validate_move E "e7e5" (built two_moves).
Proof.
  apply (proj1 san_and_uci_agree E (built two_moves) "e5" "e7e5" (uci "e7e5")).
  - vm_compute. reflexivity.
  - vm_compute. reflexivity.
  - vm_compute. reflexivity.
  - intros m'. vm_compute. intros H. injection H as <-. reflexivity.
Defined.

(** *** Witnesses *)

Lemma init_applies_setup_move_witness :
  exists v,
    __init__ E four_moves = Returns v /\
    solution_moves E v = ["e7e5"; "g1f3"; "b8c6"] /\
    current_move_index E v = 0 /\
    get_current_solution_move E v = Returns (Some "e7e5").
Proof.
  destruct (ValidatorFacts.init_applies_setup_move E four_moves
              "e2e4" "e7e5" ["g1f3"; "b8c6"] (position start_fen) (uci "e2e4"))
    as (v & Hi & _ & _ & Hs & Hc & _ & Hg).
  - reflexivity.
  - vm_compute. reflexivity.
  - vm_compute. reflexivity.
  - vm_compute. reflexivity.
  - exists v. repeat split; assumption.
Defined.

Lemma init_raises_iff_witness :
  is_complete E (built one_move) = true /\
  get_current_solution_move E (built one_move) = Returns None.
Proof.
  apply (proj2 (ValidatorFacts.init_raises_iff E one_move) "e2e4" (built one_move)).
  - reflexivity.
  - exact init_one_move.
Defined.

Lemma cursor_in_range_built : cursor_in_range E (built four_moves).
Proof. unfold cursor_in_range. vm_compute. split; discriminate. Qed.

Lemma cursor_invariant_witness :
  cursor_in_range E (snd (validate_move E "e5" (built four_moves))) /\
  get_moves_remaining E (built four_moves) = 3.
Proof.
  destruct (proj2 (ValidatorFacts.cursor_invariant E) (built four_moves)
                  cursor_in_range_built) as (Hv & _ & Hr & _).
  split; [apply Hv|]. rewrite Hr. vm_compute. reflexivity.
Defined.

Lemma validate_move_correct_witness :
  validate_move E "e5" (built two_moves)
    = (Returns (true, msg_solved), after_move E (built two_moves) (uci "e7e5")) /\
  is_complete E (after_move E (built two_moves) (uci "e7e5")) = true.
Proof.
  destruct (ValidatorFacts.validate_move_correct E (built two_moves) "e5" "e7e5"
              (uci "e7e5") (uci "e7e5")) as (_ & _ & Hlast & _).
  - exact minichess_pushes_legal_moves.
  - vm_compute. reflexivity.
  - vm_compute. reflexivity.
  - vm_compute. reflexivity.
  - vm_compute. reflexivity.
  - vm_compute. reflexivity.
  - vm_compute. reflexivity.
  - apply Hlast. vm_compute. discriminate.
Defined.

Lemma validate_move_rejects_witness :
  validate_move E "zz" (built two_moves)
    = (Returns (false, invalid_format_message "zz"), built two_moves) /\
  validate_move E "--" (built two_moves)
    = (Returns (false, msg_illegal), built two_moves) /\
  validate_move E "d5" (built two_moves)
    = (Returns (false, msg_incorrect), built two_moves).
Proof.
  pose proof (ValidatorFacts.validate_move_rejects E (built two_moves)) as R.
  split; [|split].
  - apply (proj1 (R "zz") (Py.InvalidMoveError (invalid_format_message "zz"))).
    vm_compute. reflexivity.
  - apply (proj1 (proj2 (R "--")) MiniChess.null).
    + vm_compute. reflexivity.
    + vm_compute. reflexivity.
  - apply (proj1 (proj2 (proj2 (R "d5"))) (uci "d7d5") "e7e5" (uci "e7e5") "e7-e5").
    + vm_compute. reflexivity.
    + vm_compute. reflexivity.
    + vm_compute. reflexivity.
    + vm_compute. reflexivity.
    + vm_compute. reflexivity.
    + vm_compute. reflexivity.
    + vm_compute. reflexivity.
Defined.

Lemma four_moves_take_two_submissions_witness :
  validate_move E "e5" (built four_moves)
    = (Returns (true, msg_continue), advanced four_moves 2) /\
  is_complete E (advanced four_moves 2) = false /\
  validate_move E "Nc6" (advanced four_moves 2)
    = (Returns (true, msg_solved), advanced four_moves 3) /\
  is_complete E (advanced four_moves 3) = true.
Proof.
  destruct (ValidatorFacts.four_moves_take_two_submissions E four_moves
              "e2e4" "e7e5" "g1f3" "b8c6" (built four_moves) "e5" "Nc6"
              (uci "e7e5") (uci "e7e5") (uci "g1f3") (uci "b8c6") (uci "b8c6"))
    as (H1 & _ & Hn & _ & H2).
  - exact minichess_pushes_legal_moves.
  - reflexivity.
  - exact init_four_moves.
  - vm_compute. reflexivity.
  - vm_compute. reflexivity.
  - vm_compute. reflexivity.
  - vm_compute. reflexivity.
  - vm_compute. reflexivity.
  - vm_compute. reflexivity.
  - split; [exact H1|]. split; [exact Hn|].
    destruct H2 as (H3 & _ & Hc).
    + vm_compute. reflexivity.
    + vm_compute. reflexivity.
    + vm_compute. reflexivity.
    + vm_compute. reflexivity.
    + split; [exact H3|exact Hc].
Defined.

(** *** Where the statements of the specification fail *)

(** C2 as stated fails: on the validator of [e2e4 a3a4] the input [e5]
    parses to a legal move, the pending solution move [a3a4] is UCI text
    and another move, and [validate_move] raises instead of returning a
    rejection: [board.san] is asked for the SAN of a move that starts from
    an empty square. *)
Lemma validate_move_can_raise :
  __init__ E empty_square_solution = Returns (built empty_square_solution) /\
  parsed E (built empty_square_solution) "e5" = Returns (uci "e7e5") /\
  is_legal E (board E (built empty_square_solution)) (uci "e7e5") = true /\
  get_current_solution_move E (built empty_square_solution) = Returns (Some "a3a4") /\
  from_uci E "a3a4" = Some (uci "a3a4") /\
  move_eqb E (uci "e7e5") (uci "a3a4") = false /\
  validate_move E "e5" (built empty_square_solution)
    = (Raises Py.AssertionError, built empty_square_solution).
Proof.
  split; [reflexivity|].
  split; [vm_compute; reflexivity|].
  split; [vm_compute; reflexivity|].
  split; [vm_compute; reflexivity|].
  split; [vm_compute; reflexivity|].
  split; [vm_compute; reflexivity|].
  reflexivity.
Qed.

(** The same with a pending solution move that is not UCI text: the
    [ValueError] of [chess.Move.from_uci] is not caught. *)
Lemma validate_move_can_raise_on_text :
  __init__ E malformed_solution = Returns (built malformed_solution) /\
  validate_move E "e5" (built malformed_solution)
    = (Raises Py.ValueError, built malformed_solution).
Proof. split; reflexivity. Qed.

(** C6 as stated fails: after the one correct submission [e5] on the
    puzzle [e2e4 e7e5 g1f3 b8c6] the cursor is 2 of 3, the validator is
    not complete and the result is the continuation message. *)
Lemma four_moves_not_complete_after_one :
  __init__ E four_moves = Returns (built four_moves) /\
  Py.len (moves four_moves) = 4 /\
  Py.len (solution_moves E (built four_moves)) = 3 /\
  validate_move E "e5" (built four_moves)
    = (Returns (true, msg_continue), advanced four_moves 2) /\
  current_move_index E (advanced four_moves 2) = 2 /\
  is_complete E (advanced four_moves 2) = false.
Proof. repeat split; reflexivity. Qed.

(** C9 as stated fails: a record with a single move is constructed
    without error, and so is a record whose setup move [e2e5] is illegal
    in the position of its [fen]. *)
Lemma init_accepts_corrupt_records :
  (Py.len (moves one_move) < 2 /\
   __init__ E one_move = Returns (built one_move)) /\
  (Board_of_fen E (fen illegal_setup) = Some (position start_fen) /\
   Py.index (moves illegal_setup) 0 = Some "e2e5" /\
   from_uci E "e2e5" = Some (uci "e2e5") /\
   is_legal E (position start_fen) (uci "e2e5") = false /\
   __init__ E illegal_setup = Returns (built illegal_setup)).
Proof.
  split.
  - split; [vm_compute; reflexivity|reflexivity].
  - split; [vm_compute; reflexivity|].
    split; [vm_compute; reflexivity|].
    split; [vm_compute; reflexivity|].
    split; [vm_compute; reflexivity|reflexivity].
Qed.

End OnMiniChess.

(** ** The selector *)

Module SelectorFacts.

Import Sql Selector.

Lemma random_one_none {A} (r : nat) (l : list A) :
  random_one r l = None <-> l = [].
Proof.
  destruct l as [|x l]; simpl; [tauto|]. split; [|discriminate].
  intros H. apply nth_error_None in H.
  pose proof (Nat.mod_upper_bound r (S (length l)) (Nat.neq_succ_0 _)) as Hb.
  simpl in *. lia.
Qed.

Lemma random_one_in {A} (r : nat) (l : list A) (x : A) :
  random_one r l = Some x -> In x l.
Proof.
  destruct l as [|y l]; simpl; [discriminate|]. apply nth_error_In.
Qed.

(** Whether a query finds a puzzle does not depend on the draw. *)
Lemma query_none_any_draw (r r' : nat) db d ph ex b th :
  _query_puzzle r db d ph ex b th = Returns None ->
  _query_puzzle r' db d ph ex b th = Returns None.
Proof.
  unfold _query_puzzle. destruct (where_clauses d ph ex b th) as [cs|e]; [|discriminate].
  intros H. injection H as H.
  destruct (random_one r (matching db cs)) eqn:Hr; [discriminate|].
  apply random_one_none in Hr. rewrite Hr. reflexivity.
Qed.

(** With nothing to exclude, the exclusion flag changes no query. *)
Lemma where_clauses_no_solved d ph th :
  where_clauses d ph [] true th = where_clauses d ph [] false th.
Proof. reflexivity. Qed.

Lemma get_difficulty_range_in_range (d : Z) :
  Cascade.in_range d = true ->
  exists lo hi, Settings.get_difficulty_range d = Returns (lo, hi).
Proof.
  unfold Cascade.in_range. intros H.
  apply andb_true_iff in H as [H1 H2]. apply Z.leb_le in H1, H2.
  assert (Hd : d = 1 \/ d = 2 \/ d = 3 \/ d = 4 \/ d = 5) by lia.
  destruct Hd as [->|[->|[->|[->| ->]]]]; do 2 eexists; reflexivity.
Qed.

Lemma query_returns (r : nat) db (d : option Z) ph ex b th :
  match d with Some x => Cascade.in_range x = true | None => True end ->
  exists o, _query_puzzle r db d ph ex b th = Returns o.
Proof.
  unfold _query_puzzle, where_clauses. destruct d as [x|]; [|eauto].
  intros H. destruct (get_difficulty_range_in_range x H) as (lo & hi & ->). eauto.
Qed.

Lemma where_sql_all (cs : list clause) (r : join_row) :
  where_sql cs r = Some true -> forall c, In c cs -> eval c r = Some true.
Proof.
  induction cs as [|c cs IH]; simpl; [tauto|].
  intros H c' [<-|Hin].
  - destruct (eval c r) as [[|]|], (where_sql cs r) as [[|]|];
      simpl in H; congruence.
  - apply IH; [|assumption].
    destruct (eval c r) as [[|]|], (where_sql cs r) as [[|]|];
      simpl in H; congruence.
Qed.

(** A puzzle a query returns comes from a row that satisfies every clause
    on one of its joined rows. *)
Lemma query_some db (r : nat) d ph ex b th (p : Puzzle) :
  _query_puzzle r db d ph ex b th = Returns (Some p) ->
  exists cs row t,
    where_clauses d ph ex b th = Returns cs /\
    In row (tbl_puzzles db) /\ In t (joined_themes db row) /\
    p = _row_to_puzzle db row /\
    forall c, In c cs -> eval c (row, t) = Some true.
Proof.
  unfold _query_puzzle.
  destruct (where_clauses d ph ex b th) as [cs|e]; [|discriminate].
  intros H. injection H as H.
  destruct (random_one r (matching db cs)) as [row|] eqn:Hr; [|discriminate].
  injection H as <-. apply random_one_in in Hr.
  unfold matching in Hr. apply filter_In in Hr as [Hin Hex].
  apply existsb_exists in Hex as ([row' t] & Hj & Hw).
  unfold joined in Hj. apply in_map_iff in Hj as (t' & Heq & Ht).
  injection Heq as <- <-.
  exists cs, row, t'. repeat split; try assumption.
  apply where_sql_all.
  destruct (where_sql cs (row, t')) as [[|]|]; congruence.
Qed.

(** Tier 1 never returns an excluded puzzle. *)
Lemma tier1_not_excluded db (r : nat) d ph ex th (p : Puzzle) :
  _query_puzzle r db d ph ex true th = Returns (Some p) ->
  mem (puzzle_id p) ex = false.
Proof.
  intros H. destruct ex as [|x ex]; [reflexivity|].
  destruct (query_some _ _ _ _ _ _ _ _ H) as (cs & row & t & Hc & _ & _ & -> & Hall).
  assert (Hin : In (IdNotIn (x :: ex)) cs).
  { unfold where_clauses in Hc.
    assert (Hrest : forall l1 l2 : list clause,
               In (IdNotIn (x :: ex)) (l1 ++ l2 ++ [IdNotIn (x :: ex)])%list).
    { intros l1 l2. apply in_or_app. right. apply in_or_app. right. now left. }
    simpl in Hc. destruct d as [dd|].
    - destruct (Settings.get_difficulty_range dd) as [[lo hi]|]; [|discriminate].
      injection Hc as <-. right. apply Hrest.
    - injection Hc as <-. apply Hrest. }
  specialize (Hall _ Hin). simpl in Hall. injection Hall as Hall.
  apply negb_true_iff in Hall. exact Hall.
Qed.

Lemma first_hit_cons (q : outcome (option Puzzle)) rest :
  Cascade.first_hit (q :: rest) = or_else q (Cascade.first_hit rest).
Proof. destruct q as [[p|]|e]; reflexivity. Qed.

Lemma first_hit_raises (rs : list (outcome (option Puzzle))) (e : Py.exn) :
  (forall q, In q rs -> exists o, q = Returns o) ->
  Cascade.first_hit rs = Raises e ->
  e = Py.PuzzleNotFoundError msg_none /\ forall q, In q rs -> q = Returns None.
Proof.
  induction rs as [|q rs IH]; simpl.
  - intros _ H. injection H as <-. split; [reflexivity|tauto].
  - intros Hall H. destruct (Hall q (or_introl eq_refl)) as [[p|] ->].
    + discriminate.
    + destruct (IH (fun q' Hq => Hall q' (or_intror Hq)) H) as [-> Hn].
      split; [reflexivity|]. intros q' [<-|Hq]; [reflexivity|now apply Hn].
Qed.

Lemma tiers_return rand db ex (d : Z) ph th :
  1 <= d <= 5 ->
  forall q, In q (map (Cascade.run rand db ex) (Cascade.tiers d ph th)) ->
            exists o, q = Returns o.
Proof.
  intros Hd q Hq. apply in_map_iff in Hq as (t & <- & Ht).
  unfold Cascade.run. apply query_returns.
  assert (Hr : Cascade.in_range d = true).
  { unfold Cascade.in_range. apply andb_true_iff. split; apply Z.leb_le; lia. }
  unfold Cascade.tiers in Ht.
  destruct (Cascade.in_range (d - 1)) eqn:H1, (Cascade.in_range (d + 1)) eqn:H2,
           (Py.truthy th); simpl in Ht;
    repeat (destruct Ht as [<-|Ht]; [simpl; auto|]); destruct Ht.
Qed.

Lemma joined_themes_not_nil db (p : puzzle_row) : joined_themes db p <> [].
Proof.
  unfold joined_themes. destruct (links db p) as [|l ls]; [discriminate|].
  simpl. unfold left_pad at 1. destruct (theme_names db l); discriminate.
Qed.

(** The unconstrained query matches every stored puzzle. *)
Lemma matching_no_clause db : matching db [] = tbl_puzzles db.
Proof.
  unfold matching.
  assert (Hall : forall p,
             existsb (fun r : join_row => match where_sql [] r with
                                          | Some true => true
                                          | _ => false
                                          end) (joined db p) = true).
  { intros p. unfold joined. pose proof (joined_themes_not_nil db p) as Hn.
    destruct (joined_themes db p); [contradiction|reflexivity]. }
  induction (tbl_puzzles db) as [|p ps IH]; [reflexivity|].
  cbn [filter]. rewrite Hall, IH. reflexivity.
Qed.

Lemma select_is_cascade rand db (d : Z) ph ex th :
  select_puzzle rand db d ph ex th = Cascade.select rand db d ph ex th.
Proof.
  unfold select_puzzle, Cascade.select, Cascade.tiers.
  change ((1 <=? d - 1) && (d - 1 <=? 5)) with (Cascade.in_range (d - 1)).
  change ((1 <=? d + 1) && (d + 1 <=? 5)) with (Cascade.in_range (d + 1)).
  cbn [fold_right].
  change ((1 <=? d - 1) && (d - 1 <=? 5)) with (Cascade.in_range (d - 1)).
  change ((1 <=? d + 1) && (d + 1 <=? 5)) with (Cascade.in_range (d + 1)).
  destruct (Cascade.in_range (d - 1)), (Cascade.in_range (d + 1)), (Py.truthy th);
    cbn [map app]; rewrite !first_hit_cons; unfold Cascade.run;
    cbn [Cascade.t_draw Cascade.t_difficulty Cascade.t_phase Cascade.t_exclude
         Cascade.t_theme Cascade.first_hit];
    (destruct ex as [|x ex];
     [ cbn [length Nat.eqb negb];
       change (_query_puzzle (rand 1%nat) db (Some d) ph [] true th)
         with (_query_puzzle (rand 1%nat) db (Some d) ph [] false th);
       destruct (_query_puzzle (rand 1%nat) db (Some d) ph [] false th)
         as [[p|]|e] eqn:Hq; try reflexivity;
       rewrite (query_none_any_draw _ (rand 2%nat) _ _ _ _ _ _ Hq); reflexivity
     | reflexivity ]).
Qed.

(** C3: for a difficulty in 1..5, [select_puzzle] is the cascade of the
    tiers in their fixed order, the first non-empty result winning; a
    puzzle whose id is excluded is returned only if tier 1 found nothing;
    and the call fails, with [PuzzleNotFoundError] and nothing else, only
    if every tier found nothing, the unconstrained tier included, so only
    on an empty store. *)
Theorem select_puzzle_cascade rand db (difficulty : Z) phase exclude theme :
  1 <= difficulty <= 5 ->
  select_puzzle rand db difficulty phase exclude theme
    = Cascade.select rand db difficulty phase exclude theme /\
  (forall puzzle,
      select_puzzle rand db difficulty phase exclude theme = Returns puzzle ->
      mem (puzzle_id puzzle) exclude = true ->
      _query_puzzle (rand 1%nat) db (Some difficulty) phase exclude true theme
        = Returns None) /\
  (forall e,
      select_puzzle rand db difficulty phase exclude theme = Raises e ->
      e = Py.PuzzleNotFoundError msg_none /\
      (forall t, In t (Cascade.tiers difficulty phase theme) ->
                 Cascade.run rand db exclude t = Returns None) /\
      tbl_puzzles db = []) /\
  (tbl_puzzles db <> [] ->
   exists puzzle, select_puzzle rand db difficulty phase exclude theme = Returns puzzle).
Proof.
  intros Hd.
  assert (Hraise : forall e,
             select_puzzle rand db difficulty phase exclude theme = Raises e ->
             e = Py.PuzzleNotFoundError msg_none /\
             (forall t, In t (Cascade.tiers difficulty phase theme) ->
                        Cascade.run rand db exclude t = Returns None) /\
             tbl_puzzles db = []).
  { intros e He. rewrite select_is_cascade in He. unfold Cascade.select in He.
    destruct (first_hit_raises _ _ (tiers_return rand db exclude difficulty phase theme Hd) He)
      as [-> Hall].
    assert (Ht : forall t, In t (Cascade.tiers difficulty phase theme) ->
                           Cascade.run rand db exclude t = Returns None).
    { intros t Hin. apply Hall. now apply in_map. }
    split; [reflexivity|]. split; [exact Ht|].
    assert (H7 : In {| Cascade.t_draw := 7; Cascade.t_difficulty := None;
                       Cascade.t_phase := None; Cascade.t_exclude := false;
                       Cascade.t_theme := None |}
                    (Cascade.tiers difficulty phase theme)).
    { unfold Cascade.tiers. repeat (apply in_or_app; right). now left. }
    specialize (Ht _ H7).
    unfold Cascade.run, _query_puzzle in Ht.
    cbn [Cascade.t_draw Cascade.t_difficulty Cascade.t_phase Cascade.t_exclude
         Cascade.t_theme] in Ht.
    change (where_clauses None None exclude false None) with (@Returns (list clause) [])
      in Ht.
    cbv beta iota in Ht. rewrite matching_no_clause in Ht.
    destruct (random_one (rand 7%nat) (tbl_puzzles db)) eqn:Hr; [discriminate|].
    apply random_one_none in Hr. exact Hr. }
  split; [apply select_is_cascade|]. split; [|split; [exact Hraise|]].
  - intros puzzle Hs Hmem. unfold select_puzzle in Hs.
    destruct (_query_puzzle (rand 1%nat) db (Some difficulty) phase exclude true theme)
      as [[p|]|e] eqn:Hq; [|reflexivity|discriminate].
    simpl in Hs. injection Hs as <-.
    rewrite (tier1_not_excluded _ _ _ _ _ _ _ Hq) in Hmem. discriminate.
  - intros Hne.
    destruct (select_puzzle rand db difficulty phase exclude theme) as [p|e] eqn:Hs;
      [eauto|].
    destruct (Hraise e eq_refl) as (_ & _ & Hnil). contradiction.
Qed.

(** *** Phase filters *)

Lemma joined_some db (p : puzzle_row) (t : string) :
  In (Some t) (joined_themes db p) <-> In t (themes_of db p).
Proof.
  unfold joined_themes, themes_of.
  assert (Hpad : forall l, In (Some t) (left_pad l) <-> In t l).
  { intros [|x l].
    - simpl. split; [intros [H|[]]; discriminate|tauto].
    - unfold left_pad. rewrite in_map_iff. split.
      + intros (y & Hy & Hin). injection Hy as ->. exact Hin.
      + intros Hin. exists t. split; [reflexivity|exact Hin]. }
  destruct (links db p) as [|l ls] eqn:Hl.
  - simpl. split; [intros [H|[]]; discriminate|tauto].
  - rewrite !in_flat_map. split.
    + intros (i & Hi & Hin). exists i. split; [exact Hi|]. now apply Hpad.
    + intros (i & Hi & Hin). exists i. split; [exact Hi|]. now apply Hpad.
Qed.

Lemma matching_in db (cs : list clause) (row : puzzle_row) :
  In row (matching db cs) <->
  In row (tbl_puzzles db) /\
  exists t, In t (joined_themes db row) /\ where_sql cs (row, t) = Some true.
Proof.
  unfold matching. rewrite filter_In, existsb_exists. split.
  - intros [Hin ([row' t] & Hj & Hw)]. split; [exact Hin|].
    unfold joined in Hj. apply in_map_iff in Hj as (t' & Heq & Ht).
    injection Heq as <- <-. exists t'. split; [exact Ht|].
    destruct (where_sql cs (row, t')) as [[|]|]; congruence.
  - intros [Hin (t & Ht & Hw)]. split; [exact Hin|].
    exists (row, t). split; [unfold joined; now apply in_map|].
    now rewrite Hw.
Qed.

Lemma split_on_not_nil (sep : ascii) (s : string) : PyStr.split_on sep s <> [].
Proof.
  destruct s as [|c s]; simpl; [discriminate|].
  destruct (Ascii.eqb c sep); [discriminate|].
  destruct (PyStr.split_on sep s); discriminate.
Qed.

Lemma row_opening_tags db (row : puzzle_row) :
  opening_tags (_row_to_puzzle db row) <> [] <-> c_opening_tags row <> "".
Proof.
  simpl. destruct (String.eqb_spec (c_opening_tags row) "") as [->|Hne].
  - tauto.
  - split; [intros _; exact Hne|intros _; apply split_on_not_nil].
Qed.

Lemma where_opening (ths : list string) (row : puzzle_row) (t : option string) :
  where_sql [OpeningPhase ths] (row, t) = Some true <->
  c_opening_tags row <> "" \/ exists x, t = Some x /\ mem x ths = true.
Proof.
  unfold where_sql, fold_right, eval, tv_in.
  destruct (String.eqb_spec (c_opening_tags row) "") as [He|Hne]; cbn [negb].
  - destruct t as [x|]; cbn [option_map].
    + destruct (mem x ths) eqn:Hm; cbn [tv_or tv_and]; split.
      * intros _. right. exists x. split; [reflexivity|exact Hm].
      * intros _. reflexivity.
      * discriminate.
      * intros [H|(y & Hy & Hm')]; [contradiction|].
        injection Hy as <-. congruence.
    + cbn [tv_or tv_and]. split; [discriminate|].
      intros [H|(y & Hy & _)]; [contradiction|discriminate].
  - split; [intros _; now left|intros _].
    destruct t as [x|]; cbn [option_map]; [destruct (mem x ths)|]; reflexivity.
Qed.

Lemma where_endgame (thr : Z) (ths : list string) (row : puzzle_row) (t : option string) :
  where_sql [EndgamePhase thr ths] (row, t) = Some true <->
  c_piece_count row < thr \/ exists x, t = Some x /\ mem x ths = true.
Proof.
  unfold where_sql, fold_right, eval, tv_in.
  destruct (Z.ltb_spec (c_piece_count row) thr) as [Hlt|Hge].
  - split; [intros _; now left|intros _].
    destruct t as [x|]; cbn [option_map]; [destruct (mem x ths)|]; reflexivity.
  - destruct t as [x|]; cbn [option_map].
    + destruct (mem x ths) eqn:Hm; cbn [tv_or tv_and]; split.
      * intros _. right. exists x. split; [reflexivity|exact Hm].
      * intros _. reflexivity.
      * discriminate.
      * intros [H|(y & Hy & Hm')]; [lia|].
        injection Hy as <-. congruence.
    + cbn [tv_or tv_and]. split; [discriminate|].
      intros [H|(y & Hy & _)]; [lia|discriminate].
Qed.

Lemma where_middlegame (thr : Z) (ths : list string) (row : puzzle_row) (t : option string) :
  where_sql [MiddlegamePhase thr ths] (row, t) = Some true <->
  thr <= c_piece_count row /\
  (t = None \/ exists x, t = Some x /\ mem x ths = false).
Proof.
  unfold where_sql, fold_right, eval, tv_in, tv_not, is_null.
  destruct (Z.leb_spec thr (c_piece_count row)) as [Hge|Hlt].
  - destruct t as [x|]; cbn [option_map].
    + destruct (mem x ths) eqn:Hm; cbn [tv_or tv_and negb]; split.
      * discriminate.
      * intros [_ [H|(y & Hy & Hm')]]; [discriminate|].
        injection Hy as <-. congruence.
      * intros _. split; [exact Hge|]. right. exists x. split; [reflexivity|exact Hm].
      * intros _. reflexivity.
    + cbn [tv_or tv_and]. split; [intros _; split; [exact Hge|now left]|reflexivity].
  - split; [|intros [H _]; lia].
    destruct t as [x|]; cbn [option_map]; [destruct (mem x ths)|];
      cbn [tv_or tv_and negb]; discriminate.
Qed.

(** The opening filter selects a stored puzzle iff it has opening tags or
    one of its themes is an opening theme. *)
Lemma phase_opening db (row : puzzle_row) :
  In row (tbl_puzzles db) ->
  (In row (matching db [_build_phase_filter "opening"]) <->
   opening_tags (_row_to_puzzle db row) <> [] \/
   exists t, In t (themes (_row_to_puzzle db row)) /\
             mem t Constants.OPENING_THEMES = true).
Proof.
  intros Hin. rewrite matching_in, row_opening_tags.
  change (_build_phase_filter "opening") with (OpeningPhase Constants.OPENING_THEMES).
  cbn [themes _row_to_puzzle]. split.
  - intros [_ (t & Ht & Hw)]. apply where_opening in Hw as [Hne|(x & -> & Hm)].
    + now left.
    + right. exists x. split; [now apply joined_some|exact Hm].
  - intros H. split; [exact Hin|]. destruct H as [Hne|(x & Hx & Hm)].
    + destruct (joined_themes db row) as [|t ts] eqn:Hj;
        [now apply joined_themes_not_nil in Hj|].
      exists t. split; [now left|]. apply where_opening. now left.
    + exists (Some x). split; [now apply joined_some|].
      apply where_opening. right. eauto.
Qed.

(** The endgame filter selects a stored puzzle iff it has fewer than 12
    pieces or one of its themes is an endgame theme. *)
Lemma phase_endgame db (row : puzzle_row) :
  In row (tbl_puzzles db) ->
  (In row (matching db [_build_phase_filter "endgame"]) <->
   piece_count (_row_to_puzzle db row) < 12 \/
   exists t, In t (themes (_row_to_puzzle db row)) /\
             mem t Constants.ENDGAME_THEMES = true).
Proof.
  intros Hin. rewrite matching_in.
  change (_build_phase_filter "endgame")
    with (EndgamePhase 12 Constants.ENDGAME_THEMES).
  cbn [themes piece_count _row_to_puzzle]. split.
  - intros [_ (t & Ht & Hw)]. apply where_endgame in Hw as [Hlt|(x & -> & Hm)].
    + now left.
    + right. exists x. split; [now apply joined_some|exact Hm].
  - intros H. split; [exact Hin|]. destruct H as [Hlt|(x & Hx & Hm)].
    + destruct (joined_themes db row) as [|t ts] eqn:Hj;
        [now apply joined_themes_not_nil in Hj|].
      exists t. split; [now left|]. apply where_endgame. now left.
    + exists (Some x). split; [now apply joined_some|].
      apply where_endgame. right. eauto.
Qed.

(** The middlegame filter selects a stored puzzle iff it has at least 12
    pieces and its join has a row without theme or with a theme that is
    not an endgame theme: one such theme is enough, the other themes of the
    puzzle are not looked at. *)
Lemma phase_middlegame db (row : puzzle_row) :
  In row (tbl_puzzles db) ->
  (In row (matching db [_build_phase_filter "middlegame"]) <->
   12 <= piece_count (_row_to_puzzle db row) /\
   (In None (joined_themes db row) \/
    exists t, In t (themes (_row_to_puzzle db row)) /\
              mem t Constants.ENDGAME_THEMES = false)).
Proof.
  intros Hin. rewrite matching_in.
  change (_build_phase_filter "middlegame")
    with (MiddlegamePhase 12 Constants.ENDGAME_THEMES).
  cbn [themes piece_count _row_to_puzzle]. split.
  - intros [_ (t & Ht & Hw)]. apply where_middlegame in Hw as [Hge H].
    split; [exact Hge|]. destruct H as [->|(x & -> & Hm)]; [now left|].
    right. exists x. split; [now apply joined_some|exact Hm].
  - intros [Hge H]. split; [exact Hin|].
    destruct H as [Hn|(x & Hx & Hm)].
    + exists None. split; [exact Hn|]. apply where_middlegame. auto.
    + exists (Some x). split; [now apply joined_some|].
      apply where_middlegame. split; [exact Hge|]. right. eauto.
Qed.

(** C4 at the failing input: the store holds one puzzle with 20 pieces
    and the themes [fork] and [endgame]; [endgame] is an endgame keyword,
    so the puzzle is no middlegame puzzle by the stated predicate, yet the
    middlegame filter selects it and [select_puzzle] returns it at tier 1:
    the joined row of [fork] satisfies the filter by itself. *)
Theorem middlegame_filter_keeps_endgame_theme :
  let row := Examples.row "fe20" 1700 20 in
  let p := _row_to_puzzle Examples.db_tagged row in
  themes p = ["fork"; "endgame"] /\
  piece_count p = 20 /\
  mem "endgame" Constants.ENDGAME_THEMES = true /\
  matching Examples.db_tagged [_build_phase_filter "middlegame"] = [row] /\
  _query_puzzle 0 Examples.db_tagged (Some 3) (Some "middlegame") [] true None
    = Returns (Some p) /\
  select_puzzle Examples.draw0 Examples.db_tagged 3 (Some "middlegame") [] None
    = Returns p.
Proof. repeat split; vm_compute; reflexivity. Qed.

(** *** Rating intervals *)

(** The buckets of [_rating_to_difficulty]: lower bound included, upper
    bound excluded, the first and the last open-ended. *)
Lemma rating_buckets (r : Z) :
  (_rating_to_difficulty r = 1 <-> r < 1200) /\
  (_rating_to_difficulty r = 2 <-> 1200 <= r < 1600) /\
  (_rating_to_difficulty r = 3 <-> 1600 <= r < 2000) /\
  (_rating_to_difficulty r = 4 <-> 2000 <= r < 2400) /\
  (_rating_to_difficulty r = 5 <-> 2400 <= r).
Proof.
  unfold _rating_to_difficulty.
  destruct (Z.ltb_spec r 1200), (Z.ltb_spec r 1600), (Z.ltb_spec r 2000),
           (Z.ltb_spec r 2400); repeat split; intros; try lia; try discriminate.
Qed.

(** The interval of a query: both bounds included. *)
Lemma query_rating_closed db (r : nat) (d : Z) ph ex b th (p : Puzzle) :
  _query_puzzle r db (Some d) ph ex b th = Returns (Some p) ->
  exists lo hi,
    Settings.get_difficulty_range d = Returns (lo, hi) /\ lo <= rating p <= hi.
Proof.
  intros H.
  destruct (query_some _ _ _ _ _ _ _ _ H) as (cs & row & t & Hc & _ & _ & -> & Hall).
  unfold where_clauses in Hc.
  destruct (Settings.get_difficulty_range d) as [[lo hi]|]; [|discriminate].
  injection Hc as <-. exists lo, hi. split; [reflexivity|].
  specialize (Hall _ (or_introl eq_refl)). simpl in Hall.
  injection Hall as Hall. apply andb_true_iff in Hall as [H1 H2].
  apply Z.leb_le in H1, H2. simpl. lia.
Qed.

(** C5 at the failing input: the store holds one puzzle rated 1200; its
    bucket is 2, and the query for difficulty 1, whose interval is 600 to
    1200 with both bounds included, returns it, as does the query for
    difficulty 2. *)
Theorem boundary_rating_in_two_levels :
  let p := _row_to_puzzle Examples.db_boundary (Examples.row "b1200" 1200 24) in
  rating p = 1200 /\
  _rating_to_difficulty (rating p) = 2 /\
  Settings.get_difficulty_range 1 = Returns (600, 1200) /\
  Settings.get_difficulty_range 2 = Returns (1200, 1600) /\
  _query_puzzle 0 Examples.db_boundary (Some 1) None [] true None = Returns (Some p) /\
  _query_puzzle 0 Examples.db_boundary (Some 2) None [] true None = Returns (Some p) /\
  select_puzzle Examples.draw0 Examples.db_boundary 1 None [] None = Returns p.
Proof. repeat split; vm_compute; reflexivity. Qed.

(** *** The cascade on a store of three puzzles *)

Lemma select_puzzle_cascade_witness :
  select_puzzle Examples.draw0 Examples.db_three 2 None ["a"] None
    = Cascade.select Examples.draw0 Examples.db_three 2 None ["a"] None /\
  exists puzzle,
    select_puzzle Examples.draw0 Examples.db_three 2 None ["a"] None = Returns puzzle.
Proof.
  destruct (select_puzzle_cascade Examples.draw0 Examples.db_three 2 None ["a"] None)
    as (H1 & _ & _ & H4); [lia|].
  split; [exact H1|]. apply H4. discriminate.
Defined.

(** With both puzzles of level 2 excluded, tier 1 is empty and tier 2
    returns an excluded one. *)
Example select_repeats_when_all_solved :
  _query_puzzle 0 Examples.db_three (Some 2) None ["a"; "b"] true None = Returns None /\
  option_map puzzle_id
    (match select_puzzle Examples.draw0 Examples.db_three 2 None ["a"; "b"] None with
     | Returns p => Some p
     | Raises _ => None
     end) = Some "a".
Proof. split; vm_compute; reflexivity. Qed.

(** An endgame request at level 5 finds nothing at levels 5 and 4 and
    falls back to dropping the phase, then to any puzzle. *)
Example select_falls_back_to_any :
  option_map puzzle_id
    (match select_puzzle Examples.draw0 Examples.db_three 5 (Some "endgame") [] None with
     | Returns p => Some p
     | Raises _ => None
     end) = Some "a".
Proof. vm_compute. reflexivity. Qed.

End SelectorFacts.

(** ** More on the validator *)

Module ValidatorMore.
Section WithEngine.

Context (E : ChessEngine).

Import Validator.

Abbreviation MV := (MoveValidator E).

Ltac vstep :=
  cbn [negb board solution_moves current_move_index puzzle set_index set_board
       fst snd].

Ltac vstep_in H :=
  cbn [negb board solution_moves current_move_index puzzle set_index set_board
       fst snd] in H.

Lemma validate_move_accepted_inv (self self' : MV) (user_input msg : string) :
  validate_move E user_input self = (Returns (true, msg), self') ->
  exists move expected_uci expected_move,
    parsed E self user_input = Returns move /\
    is_legal E (board E self) move = true /\
    is_complete E self = false /\
    Py.index (solution_moves E self) (current_move_index E self) = Some expected_uci /\
    from_uci E expected_uci = Some expected_move /\
    move_eqb E move expected_move = true /\
    solution_moves E self' = solution_moves E self /\
    current_move_index E self'
      = Z.min (current_move_index E self + 2) (Py.len (solution_moves E self)) /\
    (msg = msg_solved /\ is_complete E self' = true \/
     msg = msg_continue /\ is_complete E self' = false).
Proof.
  intros H.
  destruct (parsed E self user_input) as [m|e] eqn:Hp;
    [|rewrite (ValidatorFacts.validate_move_unparsed E _ _ _ Hp) in H; discriminate].
  rewrite (ValidatorFacts.validate_move_parsed E _ _ _ Hp) in H.
  unfold validate_parsed, bind, get, lift, ret, modify, board_push in H.
  vstep_in H.
  destruct (is_legal E (board E self) m) eqn:Hl; vstep_in H; [|discriminate].
  destruct (Py.len (solution_moves E self) <=? current_move_index E self) eqn:Hc;
    vstep_in H; [discriminate|].
  destruct (Py.index (solution_moves E self) (current_move_index E self))
    as [u|] eqn:Hi; vstep_in H; [|discriminate].
  destruct (from_uci E u) as [x|] eqn:Hu; vstep_in H; [|discriminate].
  destruct (move_eqb E m x) eqn:He; vstep_in H;
    [|destruct (san E (board E self) x); vstep_in H; discriminate].
  exists m, u, x. apply Z.leb_gt in Hc.
  repeat (split; [first [reflexivity | assumption | now apply Z.leb_gt]|]).
  destruct (push_ok E (board E self) m); vstep_in H; [|discriminate].
  unfold is_complete in H. vstep_in H.
  destruct (Z.leb_spec (Py.len (solution_moves E self))
                       (current_move_index E self + 1)) as [Hend|Hmore].
  - injection H as <- <-. unfold is_complete. vstep.
    split; [reflexivity|]. split; [lia|]. left. split; [reflexivity|].
    apply Z.leb_le. lia.
  - destruct (Z.ltb_spec (current_move_index E self + 1)
                         (Py.len (solution_moves E self))) as [_|Hge]; [|lia].
    destruct (Py.index (solution_moves E self) (current_move_index E self + 1))
      as [u'|]; vstep_in H; [|discriminate].
    destruct (from_uci E u') as [reply|]; vstep_in H; [|discriminate].
    destruct (push_ok E (push E (board E self) m) reply); vstep_in H; [|discriminate].
    unfold is_complete.
    destruct (Z.leb_spec (Py.len (solution_moves E self))
                         (current_move_index E self + 1 + 1)) as [Hend|Hnot];
      injection H as <- <-; vstep; (split; [reflexivity|]); (split; [lia|]).
    + left. split; [reflexivity|]. apply Z.leb_le. lia.
    + right. split; [reflexivity|]. apply Z.leb_gt. lia.
Qed.

(** X1: [validate_move] accepts an input only on a validator that is not
    complete and only when the input parses to a legal move equal to the
    pending solution move; the cursor then advances by two, or by one onto
    the end, and the message is the completion message exactly when the
    validator has become complete. *)
Theorem accepted_only_on_match (self self' : MV) (user_input msg : string) :
  validate_move E user_input self = (Returns (true, msg), self') ->
  exists move expected_uci expected_move,
    parsed E self user_input = Returns move /\
    is_legal E (board E self) move = true /\
    is_complete E self = false /\
    Py.index (solution_moves E self) (current_move_index E self) = Some expected_uci /\
    from_uci E expected_uci = Some expected_move /\
    move_eqb E move expected_move = true /\
    solution_moves E self' = solution_moves E self /\
    current_move_index E self'
      = Z.min (current_move_index E self + 2) (Py.len (solution_moves E self)) /\
    (msg = msg_solved /\ is_complete E self' = true \/
     msg = msg_continue /\ is_complete E self' = false).
Proof. apply validate_move_accepted_inv. Qed.

Lemma validate_move_rejected_inv (self self' : MV) (user_input msg : string) :
  validate_move E user_input self = (Returns (false, msg), self') -> self' = self.
Proof.
  intros H. destruct (parsed E self user_input) as [m|e] eqn:Hp.
  - rewrite (ValidatorFacts.validate_move_parsed E _ _ _ Hp) in H.
    apply (ValidatorFacts.validate_parsed_rejected_state E _ _ _ _ H).
  - rewrite (ValidatorFacts.validate_move_unparsed E _ _ _ Hp) in H.
    now inversion H.
Qed.

Lemma accepted_cons (b : bool) (msg : string) (results : list (bool * string)) :
  Session.accepted ((b, msg) :: results)
    = (if b then 1 else 0) + Session.accepted results.
Proof.
  unfold Session.accepted, Py.len. simpl. destruct b; simpl length; lia.
Qed.

Lemma accepted_nonneg (results : list (bool * string)) : 0 <= Session.accepted results.
Proof. unfold Session.accepted, Py.len. lia. Qed.

Lemma submit_all_cursor (inputs : list string) :
  forall (self self' : MV) (results : list (bool * string)),
    cursor_in_range E self ->
    Session.submit_all E inputs self = (Returns results, self') ->
    solution_moves E self' = solution_moves E self /\
    current_move_index E self'
      = Z.min (current_move_index E self + 2 * Session.accepted results)
              (Py.len (solution_moves E self)).
Proof.
  induction inputs as [|s inputs IH]; intros self self' results Hinv H.
  - simpl in H. injection H as <- <-. split; [reflexivity|].
    unfold cursor_in_range in Hinv. unfold Session.accepted, Py.len in *. simpl. lia.
  - simpl in H.
    destruct (validate_move E s self) as [[[b msg]|e] s1] eqn:Hv; [|discriminate].
    destruct (Session.submit_all E inputs s1) as [[rs|e] s2] eqn:Hr; [|discriminate].
    injection H as <- <-. rewrite accepted_cons.
    pose proof (accepted_nonneg rs) as Hnn.
    destruct b.
    + destruct (validate_move_accepted_inv _ _ _ _ Hv)
        as (mv & eu & em & _ & _ & _ & _ & _ & _ & Hs & Hc & _).
      assert (Hinv1 : cursor_in_range E s1).
      { unfold cursor_in_range in *. rewrite Hs, Hc. lia. }
      destruct (IH _ _ _ Hinv1 Hr) as [Hs2 Hc2].
      split; [congruence|]. rewrite Hc2, Hs, Hc.
      unfold cursor_in_range in Hinv. lia.
    + pose proof (validate_move_rejected_inv _ _ _ _ Hv) as ->.
      destruct (IH _ _ _ Hinv Hr) as [Hs2 Hc2].
      split; [exact Hs2|]. rewrite Hc2. f_equal.
Qed.

(** X2: after any run of submissions in which no call raised, the cursor
    is the start cursor plus twice the number of accepted submissions,
    capped at the length of the solution; so a solution of [n] moves is
    complete exactly when twice the accepted submissions reach [n]. *)
Theorem cursor_counts_acceptances
    (inputs : list string) (self self' : MV) (results : list (bool * string)) :
  cursor_in_range E self ->
  Session.submit_all E inputs self = (Returns results, self') ->
  current_move_index E self'
    = Z.min (current_move_index E self + 2 * Session.accepted results)
            (Py.len (solution_moves E self)) /\
  (is_complete E self' = true <->
   Py.len (solution_moves E self)
     <= current_move_index E self + 2 * Session.accepted results).
Proof.
  intros Hinv H. destruct (submit_all_cursor _ _ _ _ Hinv H) as [Hs Hc].
  split; [exact Hc|]. unfold is_complete. rewrite Hs, Hc, Z.leb_le. lia.
Qed.

Ltac split_cases :=
  repeat match goal with
         | |- context [match ?x with _ => _ end] =>
             lazymatch x with
             | context [match _ with _ => _ end] => fail
             | _ => destruct x eqn:?; simpl
             end
         end.

(** [validate_move] keeps the puzzle and the solution list, whatever the
    outcome. *)
Lemma validate_move_keeps (self : MV) (s : string) :
  puzzle E (snd (validate_move E s self)) = puzzle E self /\
  solution_moves E (snd (validate_move E s self)) = solution_moves E self.
Proof.
  destruct (parsed E self s) as [m|e] eqn:Hp.
  - rewrite (ValidatorFacts.validate_move_parsed E _ _ _ Hp).
    unfold validate_parsed, bind, get, lift, ret, raise, modify, board_push,
           is_complete, set_index, set_board; simpl.
    split; split_cases; reflexivity.
  - rewrite (ValidatorFacts.validate_move_unparsed E _ _ _ Hp). split; reflexivity.
Qed.

Lemma submit_all_keeps (inputs : list string) :
  forall self : MV,
    puzzle E (snd (Session.submit_all E inputs self)) = puzzle E self /\
    solution_moves E (snd (Session.submit_all E inputs self)) = solution_moves E self.
Proof.
  induction inputs as [|s inputs IH]; intros self; [split; reflexivity|].
  simpl. pose proof (validate_move_keeps self s) as [Hp Hs].
  destruct (validate_move E s self) as [[r|e] s1]; simpl in *; [|split; assumption].
  specialize (IH s1) as [Hp1 Hs1].
  destruct (Session.submit_all E inputs s1) as [[rs|e] s2]; simpl in *;
    split; congruence.
Qed.

(** X3: [reset] after any run of submissions, accepted, rejected or
    raising, gives back the validator that construction gave. *)
Theorem reset_restores_construction (p : Puzzle) (v : MV) (inputs : list string) :
  __init__ E p = Returns v ->
  reset E (snd (Session.submit_all E inputs v)) = (Returns tt, v).
Proof.
  intros Hi. unfold __init__ in Hi.
  destruct (_setup_board E p) as [b|e] eqn:Hb; [|discriminate].
  injection Hi as <-.
  pose proof (submit_all_keeps inputs
                {| puzzle := p; board := b;
                   solution_moves := puzzle_solution_moves p;
                   current_move_index := 0 |}) as [Hp Hs].
  simpl in Hp, Hs. unfold reset. rewrite Hp, Hb.
  unfold set_index, set_board. simpl. rewrite Hp, Hs. reflexivity.
Qed.

(** *** White space around the input *)






(** X5: the three read accessors agree: the validator is complete exactly
    when no move remains and exactly when there is no pending solution
    move; inside the cursor range [get_current_solution_move] does not
    raise and, before the end, returns a move of the solution. *)
Theorem accessors_agree (self : MV) :
  (is_complete E self = true <-> get_moves_remaining E self = 0) /\
  (is_complete E self = true <-> get_current_solution_move E self = Returns None) /\
  (cursor_in_range E self -> is_complete E self = false ->
   exists u, get_current_solution_move E self = Returns (Some u) /\
             In u (solution_moves E self)).
Proof.
  unfold is_complete, get_moves_remaining, get_current_solution_move, cursor_in_range.
  split; [rewrite Z.leb_le; lia|]. split.
  - destruct (Py.len (solution_moves E self) <=? current_move_index E self);
      [tauto|].
    split; [discriminate|].
    destruct (Py.index (solution_moves E self) (current_move_index E self));
      discriminate.
  - intros Hinv Hc. rewrite Hc. apply Z.leb_gt in Hc.
    unfold Py.index.
    destruct (Z.leb_spec 0 (current_move_index E self)); [|lia].
    destruct (Z.ltb_spec (current_move_index E self) (Py.len (solution_moves E self)));
      [|lia].
    simpl.
    destruct (nth_error (solution_moves E self) (Z.to_nat (current_move_index E self)))
      as [u|] eqn:Hn.
    + exists u. split; [reflexivity|]. eapply nth_error_In, Hn.
    + apply nth_error_None in Hn. unfold Py.len in *. lia.
Qed.

End WithEngine.

(** *** On the example puzzles *)

Import Validator Examples.

Abbreviation ME := MiniChess.engine.

Lemma accepted_only_on_match_witness :
  exists move,
    parsed ME (built two_moves) "e5" = Returns move /\
    is_legal ME (board ME (built two_moves)) move = true.
Proof.
  destruct (accepted_only_on_match ME (built two_moves) (advanced two_moves 1)
              "e5" msg_solved) as (move & eu & em & Hp & Hl & _).
  - reflexivity.
  - exists move. split; assumption.
Defined.

Lemma cursor_counts_acceptances_witness :
  current_move_index ME (advanced four_moves 2)
    = Z.min (current_move_index ME (built four_moves)
             + 2 * Session.accepted [(false, msg_incorrect); (true, msg_continue)])
            (Py.len (solution_moves ME (built four_moves))) /\
  (is_complete ME (advanced four_moves 2) = true <->
   Py.len (solution_moves ME (built four_moves))
     <= current_move_index ME (built four_moves)
        + 2 * Session.accepted [(false, msg_incorrect); (true, msg_continue)]).
Proof.
  apply (cursor_counts_acceptances ME ["d5"; "e5"]).
  - unfold cursor_in_range. vm_compute. split; discriminate.
  - reflexivity.
Defined.

Lemma reset_restores_construction_witness :
  reset ME (snd (Session.submit_all ME ["d5"; "e5"] (built four_moves)))
    = (Returns tt, built four_moves).
Proof. apply (reset_restores_construction ME four_moves). reflexivity. Defined.

Lemma accessors_agree_witness :
  exists u, get_current_solution_move ME (built four_moves) = Returns (Some u) /\
            In u (solution_moves ME (built four_moves)).
Proof.
  apply (proj2 (proj2 (accessors_agree ME (built four_moves)))).
  - unfold cursor_in_range. vm_compute. split; discriminate.
  - reflexivity.
Defined.

End ValidatorMore.

(** ** More on the selector *)

Module SelectorMore.

Import Sql Selector.

(** *** Ratings and levels *)

(** X6: [_rating_to_difficulty] always gives a level from 1 to 5 and
    never gives a higher rating a lower level. *)
Theorem rating_level_monotone (r1 r2 : Z) :
  1 <= _rating_to_difficulty r1 <= 5 /\
  (r1 <= r2 -> _rating_to_difficulty r1 <= _rating_to_difficulty r2).
Proof.
  unfold _rating_to_difficulty.
  destruct (Z.ltb_spec r1 1200), (Z.ltb_spec r1 1600), (Z.ltb_spec r1 2000),
           (Z.ltb_spec r1 2400), (Z.ltb_spec r2 1200), (Z.ltb_spec r2 1600),
           (Z.ltb_spec r2 2000), (Z.ltb_spec r2 2400); lia.
Qed.

Lemma range_cases (d lo hi : Z) :
  Settings.get_difficulty_range d = Returns (lo, hi) ->
  (d = 1 /\ lo = 600 /\ hi = 1200) \/ (d = 2 /\ lo = 1200 /\ hi = 1600) \/
  (d = 3 /\ lo = 1600 /\ hi = 2000) \/ (d = 4 /\ lo = 2000 /\ hi = 2400) \/
  (d = 5 /\ lo = 2400 /\ hi = 3000).
Proof.
  unfold Settings.get_difficulty_range.
  destruct (Z.eqb_spec d 1); [intros H; injection H as <- <-; tauto|].
  destruct (Z.eqb_spec d 2); [intros H; injection H as <- <-; tauto|].
  destruct (Z.eqb_spec d 3); [intros H; injection H as <- <-; tauto|].
  destruct (Z.eqb_spec d 4); [intros H; injection H as <- <-; tauto|].
  destruct (Z.eqb_spec d 5); [intros H; injection H as <- <-; tauto|].
  discriminate.
Qed.

(** X7: a puzzle that a query for level [d] returns is rated between 600
    and 3000 and its own level is [d], or [d + 1] when its rating is the
    upper bound of the range of [d]. *)
Theorem query_level_of_result db (r : nat) (d : Z) ph ex b th (p : Puzzle) :
  _query_puzzle r db (Some d) ph ex b th = Returns (Some p) ->
  1 <= d <= 5 /\
  600 <= rating p <= 3000 /\
  (_rating_to_difficulty (rating p) = d \/
   _rating_to_difficulty (rating p) = d + 1 /\
   exists lo, Settings.get_difficulty_range d = Returns (lo, rating p)).
Proof.
  intros H.
  destruct (SelectorFacts.query_rating_closed _ _ _ _ _ _ _ _ H) as (lo & hi & Hr & Hb).
  pose proof (SelectorFacts.rating_buckets (rating p)) as (B1 & B2 & B3 & B4 & B5).
  destruct (range_cases _ _ _ Hr)
    as [(-> & -> & ->)|[(-> & -> & ->)|[(-> & -> & ->)|[(-> & -> & ->)|(-> & -> & ->)]]]].
  - split; [lia|]. split; [lia|].
    destruct (Z.eq_dec (rating p) 1200) as [He|Hn].
    + right. split; [apply B2; lia|]. exists 600. now rewrite He.
    + left. apply B1. lia.
  - split; [lia|]. split; [lia|].
    destruct (Z.eq_dec (rating p) 1600) as [He|Hn].
    + right. split; [apply B3; lia|]. exists 1200. now rewrite He.
    + left. apply B2. lia.
  - split; [lia|]. split; [lia|].
    destruct (Z.eq_dec (rating p) 2000) as [He|Hn].
    + right. split; [apply B4; lia|]. exists 1600. now rewrite He.
    + left. apply B3. lia.
  - split; [lia|]. split; [lia|].
    destruct (Z.eq_dec (rating p) 2400) as [He|Hn].
    + right. split; [apply B5; lia|]. exists 2000. now rewrite He.
    + left. apply B4. lia.
  - split; [lia|]. split; [lia|]. left. apply B5. lia.
Qed.

(** X8: a difficulty outside 1..5 makes [select_puzzle] raise
    [ValueError] at its first query, whatever the store holds. *)
Theorem select_rejects_bad_difficulty rand db (d : Z) ph ex th :
  ~ (1 <= d <= 5) ->
  select_puzzle rand db d ph ex th = Raises Py.ValueError.
Proof.
  intros Hd. unfold select_puzzle, _query_puzzle, where_clauses,
                    Settings.get_difficulty_range.
  destruct (Z.eqb_spec d 1); [lia|]. destruct (Z.eqb_spec d 2); [lia|].
  destruct (Z.eqb_spec d 3); [lia|]. destruct (Z.eqb_spec d 4); [lia|].
  destruct (Z.eqb_spec d 5); [lia|]. reflexivity.
Qed.

(** *** What a query returns *)

Lemma where_sql_iff (cs : list clause) (r : join_row) :
  where_sql cs r = Some true <-> forall c, In c cs -> eval c r = Some true.
Proof.
  split; [apply SelectorFacts.where_sql_all|].
  induction cs as [|c cs IH]; intros H; [reflexivity|].
  simpl. rewrite (H c (or_introl eq_refl)), IH; [reflexivity|].
  intros c' Hc. apply H. now right.
Qed.

(** The clauses of a query, one by one. *)
Lemma where_clauses_in (d : option Z) ph ex (b : bool) th (cs : list clause) (c : clause) :
  where_clauses d ph ex b th = Returns cs ->
  (In c cs <->
   (exists x lo hi, d = Some x /\ Settings.get_difficulty_range x = Returns (lo, hi) /\
                    c = RatingBetween lo hi) \/
   (exists name, ph = Some name /\ name <> "" /\ c = _build_phase_filter name) \/
   (exists name, th = Some name /\ name <> "" /\ c = ThemeIs name) \/
   (b = true /\ ex <> [] /\ c = IdNotIn ex)).
Proof.
  unfold where_clauses. intros H.
  set (rest := (_ ++ _ ++ _)%list) in H.
  assert (Hrest : In c rest <->
            (exists name, ph = Some name /\ name <> "" /\ c = _build_phase_filter name) \/
            (exists name, th = Some name /\ name <> "" /\ c = ThemeIs name) \/
            (b = true /\ ex <> [] /\ c = IdNotIn ex)).
  { unfold rest. rewrite !in_app_iff.
    assert (H1 : In c match ph with
                      | Some name => if Py.truthy ph then [_build_phase_filter name] else []
                      | None => []
                      end <->
                 exists name, ph = Some name /\ name <> "" /\ c = _build_phase_filter name).
    { destruct ph as [name|]; simpl.
      - destruct (String.eqb_spec name "") as [->|Hn]; simpl.
        + split; [tauto|]. intros (n & Hn & Hne & _). injection Hn as <-. congruence.
        + split.
          * intros [<-|[]]. exists name. auto.
          * intros (n & Hn' & _ & ->). injection Hn' as <-. now left.
      - split; [tauto|]. intros (n & Hn & _). discriminate. }
    assert (H2 : In c match th with
                      | Some name => if Py.truthy th then [ThemeIs name] else []
                      | None => []
                      end <->
                 exists name, th = Some name /\ name <> "" /\ c = ThemeIs name).
    { destruct th as [name|]; simpl.
      - destruct (String.eqb_spec name "") as [->|Hn]; simpl.
        + split; [tauto|]. intros (n & Hn & Hne & _). injection Hn as <-. congruence.
        + split.
          * intros [<-|[]]. exists name. auto.
          * intros (n & Hn' & _ & ->). injection Hn' as <-. now left.
      - split; [tauto|]. intros (n & Hn & _). discriminate. }
    assert (H3 : In c (if b && negb (Nat.eqb (length ex) 0) then [IdNotIn ex] else []) <->
                 b = true /\ ex <> [] /\ c = IdNotIn ex).
    { destruct b; simpl; [|split; [tauto|intros [Hb _]; discriminate]].
      destruct ex as [|x ex]; simpl.
      - split; [tauto|]. intros (_ & Hne & _). congruence.
      - split; [intros [<-|[]]; repeat split; discriminate|].
        intros (_ & _ & ->). now left. }
    rewrite H1, H2, H3. reflexivity. }
  destruct d as [x|].
  - destruct (Settings.get_difficulty_range x) as [[lo hi]|e] eqn:Hr; [|discriminate].
    injection H as <-. simpl. rewrite Hrest. split.
    + intros [<-|Hc]; [left; exists x, lo, hi; auto|right; exact Hc].
    + intros [(x' & lo' & hi' & Hx & Hr' & ->)|Hc]; [|right; exact Hc].
      injection Hx as <-. rewrite Hr in Hr'. injection Hr' as <- <-. now left.
  - injection H as <-. rewrite Hrest. split; [intros Hc; right; exact Hc|].
    intros [(x' & _ & _ & Hx & _)|Hc]; [discriminate|exact Hc].
Qed.

(** X9: a puzzle returned by a query is a stored puzzle that meets every
    constraint the query was given: its rating lies in the closed range of
    the difficulty, it carries the requested theme, it is not among the
    excluded ids when exclusion is on, and it passes the phase test of an
    opening or endgame request and the piece count of a middlegame one. *)
Theorem query_result_meets_constraints
    db (r : nat) (d : option Z) ph ex (b : bool) th (p : Puzzle) :
  _query_puzzle r db d ph ex b th = Returns (Some p) ->
  (exists row, In row (tbl_puzzles db) /\ p = _row_to_puzzle db row) /\
  (forall x, d = Some x ->
     exists lo hi, Settings.get_difficulty_range x = Returns (lo, hi) /\
                   lo <= rating p <= hi) /\
  (forall name, th = Some name -> name <> "" -> In name (themes p)) /\
  (b = true -> mem (puzzle_id p) ex = false) /\
  (ph = Some "opening" ->
     opening_tags p <> [] \/
     exists t, In t (themes p) /\ mem t Constants.OPENING_THEMES = true) /\
  (ph = Some "endgame" ->
     piece_count p < 12 \/
     exists t, In t (themes p) /\ mem t Constants.ENDGAME_THEMES = true) /\
  (ph = Some "middlegame" -> 12 <= piece_count p).
Proof.
  intros H.
  destruct (SelectorFacts.query_some _ _ _ _ _ _ _ _ H)
    as (cs & row & t & Hc & Hin & Ht & -> & Hall).
  pose proof (fun c => proj2 (where_clauses_in d ph ex b th cs c Hc)) as Hcl.
  split; [exists row; auto|]. split; [|split; [|split; [|split; [|split]]]].
  - intros x ->. subst. eapply SelectorFacts.query_rating_closed, H.
  - intros name -> Hne.
    assert (He : eval (ThemeIs name) (row, t) = Some true).
    { apply Hall, Hcl. right. right. left. exists name. auto. }
    simpl in He. destruct t as [y|]; [|discriminate]. simpl in He.
    injection He as He. apply String.eqb_eq in He. subst y.
    now apply SelectorFacts.joined_some.
  - intros ->. subst. eapply SelectorFacts.tier1_not_excluded, H.
  - intros ->.
    assert (He : where_sql [OpeningPhase Constants.OPENING_THEMES] (row, t) = Some true).
    { apply where_sql_iff. intros c [<-|[]]. apply Hall, Hcl.
      right. left. exists "opening". repeat split. discriminate. }
    apply SelectorFacts.where_opening in He.
    destruct He as [Hne|(x & -> & Hm)].
    + left. now apply SelectorFacts.row_opening_tags.
    + right. exists x. split; [now apply SelectorFacts.joined_some|exact Hm].
  - intros ->.
    assert (He : where_sql [EndgamePhase 12 Constants.ENDGAME_THEMES] (row, t) = Some true).
    { apply where_sql_iff. intros c [<-|[]]. apply Hall, Hcl.
      right. left. exists "endgame". repeat split. discriminate. }
    apply SelectorFacts.where_endgame in He.
    destruct He as [Hlt|(x & -> & Hm)].
    + left. exact Hlt.
    + right. exists x. split; [now apply SelectorFacts.joined_some|exact Hm].
  - intros ->.
    assert (He : where_sql [MiddlegamePhase 12 Constants.ENDGAME_THEMES] (row, t) = Some true).
    { apply where_sql_iff. intros c [<-|[]]. apply Hall, Hcl.
      right. left. exists "middlegame". repeat split. discriminate. }
    apply SelectorFacts.where_middlegame in He. exact (proj1 He).
Qed.

(** *** Which tier serves *)

Lemma random_one_some {A} (r : nat) (l : list A) :
  l <> [] -> exists x, random_one r l = Some x /\ In x l.
Proof.
  intros Hne. destruct (random_one r l) as [x|] eqn:Hr.
  - exists x. split; [reflexivity|]. eapply SelectorFacts.random_one_in, Hr.
  - apply SelectorFacts.random_one_none in Hr. contradiction.
Qed.

(** More clauses select fewer rows. *)
Lemma matching_incl db (cs cs' : list clause) (row : puzzle_row) :
  (forall c, In c cs -> In c cs') ->
  In row (matching db cs') -> In row (matching db cs).
Proof.
  intros Hsub. rewrite !SelectorFacts.matching_in.
  intros [Hin (t & Ht & Hw)]. split; [exact Hin|]. exists t. split; [exact Ht|].
  apply where_sql_iff. intros c Hc. apply (proj1 (where_sql_iff cs' _) Hw), Hsub, Hc.
Qed.

(** X10: when the store holds a puzzle that meets the requested
    difficulty, phase and theme, exclusion aside, [select_puzzle] returns a
    puzzle that meets them, from tier 1 or tier 2; the later tiers are not
    reached. *)
Theorem exact_match_is_served
    rand db (difficulty : Z) phase exclude theme (cs : list clause) :
  where_clauses (Some difficulty) phase exclude false theme = Returns cs ->
  matching db cs <> [] ->
  exists row,
    In row (matching db cs) /\
    select_puzzle rand db difficulty phase exclude theme
      = Returns (_row_to_puzzle db row) /\
    (_query_puzzle (rand 1%nat) db (Some difficulty) phase exclude true theme
       = Returns (Some (_row_to_puzzle db row)) \/
     _query_puzzle (rand 1%nat) db (Some difficulty) phase exclude true theme
       = Returns None /\
     _query_puzzle (rand 2%nat) db (Some difficulty) phase exclude false theme
       = Returns (Some (_row_to_puzzle db row))).
Proof.
  intros Hcs Hne. unfold select_puzzle.
  destruct (_query_puzzle (rand 1%nat) db (Some difficulty) phase exclude true theme)
    as [[p|]|e] eqn:Hq1.
  - destruct (SelectorFacts.query_some _ _ _ _ _ _ _ _ Hq1)
      as (cs1 & row & t & Hc1 & Hin & Ht & -> & Hall).
    exists row. split; [|split; [reflexivity|now left]].
    apply (matching_incl db cs cs1).
    + intros c Hc. apply (where_clauses_in _ _ _ _ _ _ c Hc1).
      apply (where_clauses_in _ _ _ _ _ _ c Hcs) in Hc.
      destruct Hc as [Hc|[Hc|[Hc|(Hf & _)]]]; [tauto|tauto|tauto|discriminate].
    + apply SelectorFacts.matching_in. split; [exact Hin|]. exists t.
      split; [exact Ht|]. now apply where_sql_iff.
  - assert (Hex : exclude <> []).
    { intros ->. unfold _query_puzzle in Hq1.
      change (where_clauses (Some difficulty) phase [] true theme)
        with (where_clauses (Some difficulty) phase [] false theme) in Hq1.
      rewrite Hcs in Hq1. injection Hq1 as Hq1.
      destruct (random_one (rand 1%nat) (matching db cs)) eqn:Hr; [discriminate|].
      apply SelectorFacts.random_one_none in Hr. contradiction. }
    destruct (random_one_some (rand 2%nat) _ Hne) as (row & Hr & Hin).
    assert (Hq2 : _query_puzzle (rand 2%nat) db (Some difficulty) phase exclude false theme
                  = Returns (Some (_row_to_puzzle db row))).
    { unfold _query_puzzle. rewrite Hcs, Hr. reflexivity. }
    exists row. split; [exact Hin|]. split; [|right; split; [reflexivity|exact Hq2]].
    destruct exclude as [|x ex]; [contradiction|].
    cbn [or_else length Nat.eqb negb]. rewrite Hq2. reflexivity.
  - exfalso. unfold _query_puzzle, where_clauses in Hq1, Hcs.
    destruct (Settings.get_difficulty_range difficulty) as [[lo hi]|e']; discriminate.
Qed.

Lemma first_hit_in {A} (f : A -> outcome (option Puzzle)) (ts : list A) (p : Puzzle) :
  Cascade.first_hit (map f ts) = Returns p ->
  exists t, In t ts /\ f t = Returns (Some p).
Proof.
  induction ts as [|t ts IH]; simpl; [discriminate|].
  destruct (f t) as [[q|]|e] eqn:Hf; [|intros H|discriminate].
  - intros H. injection H as ->. exists t. split; [now left|exact Hf].
  - destruct (IH H) as (t' & Hin & Ht). exists t'. split; [now right|exact Ht].
Qed.

Lemma first_hit_last {A} (f : A -> outcome (option Puzzle)) (front : list A)
    (last : A) (p : Puzzle) :
  Cascade.first_hit (map f (front ++ [last])) = Returns p ->
  (exists t, In t front /\ f t = Returns (Some p)) \/
  ((forall t, In t front -> f t = Returns None) /\ f last = Returns (Some p)).
Proof.
  induction front as [|t front IH]; simpl.
  - destruct (f last) as [[q|]|e]; [|discriminate|discriminate].
    intros H. injection H as ->. right. split; [tauto|reflexivity].
  - destruct (f t) as [[q|]|e] eqn:Hf; [|intros H|discriminate].
    + intros H. injection H as ->. left. exists t. split; [now left|exact Hf].
    + destruct (IH H) as [(t' & Hin & Ht)|[Hall Hl]].
      * left. exists t'. split; [now right|exact Ht].
      * right. split; [|exact Hl]. intros t' [<-|Hin]; [exact Hf|now apply Hall].
Qed.

(** The tiers are the constrained ones followed by the unconstrained one. *)
Lemma tiers_front (d : Z) ph th :
  exists front,
    Cascade.tiers d ph th
      = (front ++ [ {| Cascade.t_draw := 7; Cascade.t_difficulty := None;
                       Cascade.t_phase := None; Cascade.t_exclude := false;
                       Cascade.t_theme := None |} ])%list /\
    forall t, In t front -> exists x, Cascade.t_difficulty t = Some x.
Proof.
  unfold Cascade.tiers.
  destruct (Cascade.in_range (d - 1)), (Cascade.in_range (d + 1)), (Py.truthy th);
    cbn [app];
    match goal with
    | |- exists front, ?l = _ /\ _ => exists (removelast l)
    end; (split; [reflexivity|]); cbn [removelast];
    intros t Ht; simpl in Ht;
    repeat (destruct Ht as [<-|Ht]; [simpl; eauto|]); destruct Ht.
Qed.

(** X11: [select_puzzle] only returns stored puzzles, and a puzzle rated
    below 600 or above 3000 only as the last resort: every tier that names
    a difficulty found nothing, and the unconstrained query returned it. *)
Theorem extreme_rating_only_last_resort
    rand db (difficulty : Z) phase exclude theme (p : Puzzle) :
  select_puzzle rand db difficulty phase exclude theme = Returns p ->
  (exists row, In row (tbl_puzzles db) /\ p = _row_to_puzzle db row) /\
  (rating p < 600 \/ 3000 < rating p ->
   (forall t, In t (Cascade.tiers difficulty phase theme) ->
              Cascade.t_difficulty t <> None ->
              Cascade.run rand db exclude t = Returns None) /\
   _query_puzzle (rand 7%nat) db None None exclude false None = Returns (Some p)).
Proof.
  intros H. rewrite SelectorFacts.select_is_cascade in H. unfold Cascade.select in H.
  split.
  - destruct (first_hit_in _ _ _ H) as (t & _ & Ht). unfold Cascade.run in Ht.
    destruct (SelectorFacts.query_some _ _ _ _ _ _ _ _ Ht)
      as (cs & row & j & _ & Hin & _ & -> & _).
    exists row. auto.
  - intros Hr. destruct (tiers_front difficulty phase theme) as (front & Heq & Hfront).
    rewrite Heq in H |- *.
    assert (Hno : forall t, In t front ->
                            Cascade.run rand db exclude t <> Returns (Some p)).
    { intros t Hin Ht. destruct (Hfront t Hin) as [x Hx].
      unfold Cascade.run in Ht. rewrite Hx in Ht.
      destruct (SelectorFacts.query_rating_closed _ _ _ _ _ _ _ _ Ht)
        as (lo & hi & Hrange & Hb).
      destruct (range_cases _ _ _ Hrange)
        as [(_ & -> & ->)|[(_ & -> & ->)|[(_ & -> & ->)|[(_ & -> & ->)|(_ & -> & ->)]]]];
        lia. }
    destruct (first_hit_last _ _ _ _ H) as [(t & Hin & Ht)|[Hall Hl]].
    + exfalso. apply (Hno t Hin Ht).
    + split; [|exact Hl]. intros t Hin Hd. apply in_app_iff in Hin as [Hin|[<-|[]]].
      * now apply Hall.
      * simpl in Hd. congruence.
Qed.

(** *** Phase and theme together *)

Lemma theme_is (name : string) (row : puzzle_row) (t : option string) :
  eval (ThemeIs name) (row, t) = Some true <-> t = Some name.
Proof.
  simpl. destruct t as [y|]; simpl; [|split; discriminate].
  destruct (String.eqb_spec y name) as [->|Hn]; split; try reflexivity.
  - discriminate.
  - intros H. injection H as ->. contradiction.
Qed.

Lemma matching_with_theme db (cs : list clause) (name : string) (row : puzzle_row) :
  In (ThemeIs name) cs ->
  (In row (matching db cs) <->
   In row (tbl_puzzles db) /\ In name (themes_of db row) /\
   where_sql cs (row, Some name) = Some true).
Proof.
  intros Hc. rewrite SelectorFacts.matching_in. split.
  - intros [Hin (t & Ht & Hw)].
    assert (Hn : t = Some name).
    { apply (theme_is name row). apply (proj1 (where_sql_iff _ _) Hw), Hc. }
    subst t. repeat split; try assumption. now apply SelectorFacts.joined_some.
  - intros (Hin & Hth & Hw). split; [exact Hin|]. exists (Some name).
    split; [now apply SelectorFacts.joined_some|exact Hw].
Qed.

Lemma where_three (lo hi : Z) (c : clause) (name : string) (row : puzzle_row) :
  where_sql [RatingBetween lo hi; c; ThemeIs name] (row, Some name) = Some true <->
  lo <= c_rating row <= hi /\ where_sql [c] (row, Some name) = Some true.
Proof.
  rewrite !where_sql_iff. split.
  - intros H. split.
    + specialize (H _ (or_introl eq_refl)). simpl in H. injection H as H.
      apply andb_true_iff in H as [H1 H2]. apply Z.leb_le in H1, H2. lia.
    + intros c' [<-|[]]. apply H. right. now left.
  - intros [Hr Hc] c' [<-|[<-|[<-|[]]]].
    + simpl. f_equal. apply andb_true_iff. split; apply Z.leb_le; lia.
    + apply Hc. now left.
    + now apply theme_is.
Qed.

Lemma where_clauses_phase_theme (d lo hi : Z) (ph name : string) ex :
  Settings.get_difficulty_range d = Returns (lo, hi) ->
  ph <> "" -> name <> "" ->
  where_clauses (Some d) (Some ph) ex false (Some name)
    = Returns [RatingBetween lo hi; _build_phase_filter ph; ThemeIs name].
Proof.
  intros Hr Hp Hn. unfold where_clauses. rewrite Hr. simpl.
  destruct (String.eqb_spec ph "") as [->|_]; [contradiction|].
  destruct (String.eqb_spec name "") as [->|_]; [contradiction|].
  reflexivity.
Qed.

(** X12: in a query with a theme, the theme part of the phase test looks
    at the requested theme only. Such a query for the opening phase selects
    a stored puzzle iff its rating is in the closed range, it carries the
    theme, and it has opening tags or the theme itself is an opening
    keyword; for the endgame phase, iff rating and theme fit and it has
    fewer than 12 pieces or the theme itself is an endgame keyword; for the
    middlegame phase, iff rating and theme fit, it has at least 12 pieces
    and the theme itself is no endgame keyword. *)
Theorem phase_test_sees_requested_theme_only
    db (d lo hi : Z) (name : string) ex (row : puzzle_row) :
  Settings.get_difficulty_range d = Returns (lo, hi) ->
  name <> "" ->
  In row (tbl_puzzles db) ->
  let p := _row_to_puzzle db row in
  let selects phase :=
    exists cs, where_clauses (Some d) (Some phase) ex false (Some name) = Returns cs /\
               In row (matching db cs) in
  (selects "opening" <->
   lo <= rating p <= hi /\ In name (themes p) /\
   (opening_tags p <> [] \/ mem name Constants.OPENING_THEMES = true)) /\
  (selects "endgame" <->
   lo <= rating p <= hi /\ In name (themes p) /\
   (piece_count p < 12 \/ mem name Constants.ENDGAME_THEMES = true)) /\
  (selects "middlegame" <->
   lo <= rating p <= hi /\ In name (themes p) /\ 12 <= piece_count p /\
   mem name Constants.ENDGAME_THEMES = false).
Proof.
  intros Hr Hn Hin p selects. unfold p.
  cbn [themes piece_count rating _row_to_puzzle].
  rewrite SelectorFacts.row_opening_tags.
  assert (Hsel : forall ph, ph <> "" ->
            (selects ph <->
             In row (matching db [RatingBetween lo hi; _build_phase_filter ph;
                                  ThemeIs name]))).
  { intros ph Hp. unfold selects.
    rewrite (where_clauses_phase_theme d lo hi ph name ex Hr Hp Hn). split.
    - intros (cs & Hcs & H). injection Hcs as <-. exact H.
    - intros H. eexists. split; [reflexivity|exact H]. }
  rewrite (Hsel "opening"), (Hsel "endgame"), (Hsel "middlegame") by discriminate.
  change (_build_phase_filter "opening") with (OpeningPhase Constants.OPENING_THEMES).
  change (_build_phase_filter "endgame")
    with (EndgamePhase 12 Constants.ENDGAME_THEMES).
  change (_build_phase_filter "middlegame")
    with (MiddlegamePhase 12 Constants.ENDGAME_THEMES).
  rewrite !(matching_with_theme db _ name row) by (right; right; now left).
  rewrite !where_three.
  rewrite SelectorFacts.where_opening, SelectorFacts.where_endgame,
          SelectorFacts.where_middlegame.
  split; [|split].
  - split.
    + intros (_ & Hth & Hb & [H|(x & Hx & Hm)]); repeat split; auto; try lia.
      injection Hx as <-. now right.
    + intros (Hb & Hth & [H|H]); repeat split; auto; try lia. right. eauto.
  - split.
    + intros (_ & Hth & Hb & [H|(x & Hx & Hm)]); repeat split; auto; try lia.
      injection Hx as <-. now right.
    + intros (Hb & Hth & [H|H]); repeat split; auto; try lia. right. eauto.
  - split.
    + intros (_ & Hth & Hb & Hge & [H|(x & Hx & Hm)]); [discriminate|].
      injection Hx as <-. repeat split; auto; lia.
    + intros (Hb & Hth & Hge & Hm); repeat split; auto; try lia. right. eauto.
Qed.

(** *** Lookup by id *)

Lemma find_unique (rows : list puzzle_row) (row : puzzle_row) :
  NoDup (map c_puzzle_id rows) ->
  In row rows ->
  find (fun r => String.eqb (c_puzzle_id r) (c_puzzle_id row)) rows = Some row.
Proof.
  induction rows as [|r rows IH]; simpl; [tauto|].
  intros Hnd [->|Hin]; [now rewrite String.eqb_refl|].
  inversion Hnd as [|? ? Hnot Hnd']; subst.
  destruct (String.eqb_spec (c_puzzle_id r) (c_puzzle_id row)) as [He|_].
  - exfalso. apply Hnot. rewrite He. now apply in_map.
  - now apply IH.
Qed.

(** X13: [get_puzzle_by_id] returns a puzzle with the id asked for, or
    nothing exactly when no stored puzzle has that id; and on a store whose
    ids are unique, looking up the id of a puzzle that [select_puzzle]
    returned gives that same puzzle back. *)
Theorem lookup_by_id db :
  (forall id p, Lookup.get_puzzle_by_id db id = Some p -> puzzle_id p = id) /\
  (forall id, Lookup.get_puzzle_by_id db id = None <->
              ~ In id (map c_puzzle_id (tbl_puzzles db))) /\
  (Lookup.primary_key db ->
   forall rand difficulty phase exclude theme p,
     select_puzzle rand db difficulty phase exclude theme = Returns p ->
     Lookup.get_puzzle_by_id db (puzzle_id p) = Some p).
Proof.
  unfold Lookup.get_puzzle_by_id, Lookup.primary_key. split; [|split].
  - intros id p H.
    destruct (find _ (tbl_puzzles db)) as [row|] eqn:Hf; [|discriminate].
    injection H as <-. apply find_some in Hf as [_ He].
    apply String.eqb_eq in He. exact He.
  - intros id. destruct (find _ (tbl_puzzles db)) as [row|] eqn:Hf.
    + split; [discriminate|]. intros Hn. exfalso. apply Hn.
      apply find_some in Hf as [Hin He]. apply String.eqb_eq in He.
      rewrite <- He. now apply in_map.
    + split; [|reflexivity]. intros _ Hin. apply in_map_iff in Hin as (row & He & Hin).
      pose proof (find_none _ _ Hf row Hin) as Hn. simpl in Hn.
      rewrite He, String.eqb_refl in Hn. discriminate.
  - intros Hnd rand difficulty phase exclude theme p H.
    rewrite SelectorFacts.select_is_cascade in H. unfold Cascade.select in H.
    destruct (first_hit_in _ _ _ H) as (t & _ & Ht). unfold Cascade.run in Ht.
    destruct (SelectorFacts.query_some _ _ _ _ _ _ _ _ Ht)
      as (cs & row & j & _ & Hin & _ & -> & _).
    cbn [puzzle_id _row_to_puzzle]. now rewrite (find_unique _ _ Hnd Hin).
Qed.

(** *** On the example stores *)

Lemma rating_level_monotone_witness :
  _rating_to_difficulty 1000 <= _rating_to_difficulty 2500.
Proof. apply (proj2 (rating_level_monotone 1000 2500)). lia. Defined.

Lemma query_level_of_result_witness :
  1 <= 1 <= 5 /\
  600 <= rating (_row_to_puzzle Examples.db_boundary (Examples.row "b1200" 1200 24))
      <= 3000 /\
  (_rating_to_difficulty
     (rating (_row_to_puzzle Examples.db_boundary (Examples.row "b1200" 1200 24))) = 1 \/
   _rating_to_difficulty
     (rating (_row_to_puzzle Examples.db_boundary (Examples.row "b1200" 1200 24))) = 1 + 1 /\
   exists lo, Settings.get_difficulty_range 1
     = Returns (lo, rating (_row_to_puzzle Examples.db_boundary
                                           (Examples.row "b1200" 1200 24)))).
Proof.
  apply (query_level_of_result Examples.db_boundary 0 1 None [] true None).
  vm_compute. reflexivity.
Defined.

Lemma select_rejects_bad_difficulty_witness :
  select_puzzle Examples.draw0 Examples.db_three 0 (Some "opening") [] None
    = Raises Py.ValueError.
Proof. apply select_rejects_bad_difficulty. lia. Defined.

Lemma query_result_meets_constraints_witness :
  In "fork" (themes (_row_to_puzzle Examples.db_three (Examples.row "c" 1700 8))) /\
  mem (puzzle_id (_row_to_puzzle Examples.db_three (Examples.row "c" 1700 8))) ["a"]
    = false.
Proof.
  destruct (query_result_meets_constraints Examples.db_three 0 (Some 3)
              (Some "endgame") ["a"] true (Some "fork")
              (_row_to_puzzle Examples.db_three (Examples.row "c" 1700 8)))
    as (_ & _ & Ht & Hx & _).
  - vm_compute. reflexivity.
  - split.
    + apply (Ht "fork"); [reflexivity|discriminate].
    + apply Hx. reflexivity.
Defined.

Lemma exact_match_is_served_witness :
  exists row,
    In row (tbl_puzzles Examples.db_three) /\
    select_puzzle Examples.draw0 Examples.db_three 2 None ["a"; "b"] None
      = Returns (_row_to_puzzle Examples.db_three row).
Proof.
  destruct (exact_match_is_served Examples.draw0 Examples.db_three 2 None ["a"; "b"]
              None [RatingBetween 1200 1600]) as (row & Hin & Hs & _).
  - reflexivity.
  - vm_compute. discriminate.
  - exists row. split; [|exact Hs].
    apply SelectorFacts.matching_in in Hin. apply Hin.
Defined.

Lemma extreme_rating_only_last_resort_witness :
  _query_puzzle (Examples.draw0 7%nat) Stores.db_extreme None None [] false None
    = Returns (Some (_row_to_puzzle Stores.db_extreme (Examples.row "x3100" 3100 24))).
Proof.
  destruct (extreme_rating_only_last_resort Examples.draw0 Stores.db_extreme 5
              (Some "endgame") [] None
              (_row_to_puzzle Stores.db_extreme (Examples.row "x3100" 3100 24)))
    as (_ & H).
  - vm_compute. reflexivity.
  - apply H. right. vm_compute. reflexivity.
Defined.

Lemma phase_test_sees_requested_theme_only_witness :
  exists cs,
    where_clauses (Some 3) (Some "endgame") [] false (Some "fork") = Returns cs /\
    In (Examples.row "c" 1700 8) (matching Examples.db_three cs).
Proof.
  pose proof (phase_test_sees_requested_theme_only Examples.db_three 3 1600 2000
                "fork" [] (Examples.row "c" 1700 8)) as H.
  cbv zeta in H. destruct H as (_ & He & _).
  - reflexivity.
  - discriminate.
  - right. right. now left.
  - apply He. vm_compute. repeat split; try discriminate.
    + now left.
    + now left.
Defined.

Lemma lookup_by_id_witness :
  Lookup.get_puzzle_by_id Examples.db_three "a"
    = Some (_row_to_puzzle Examples.db_three (Examples.row "a" 1300 30)).
Proof.
  assert (Hk : Lookup.primary_key Examples.db_three).
  { unfold Lookup.primary_key. simpl.
    repeat constructor; simpl; intuition discriminate. }
  apply (proj2 (proj2 (lookup_by_id Examples.db_three)) Hk
           Examples.draw0 2 None [] None
           (_row_to_puzzle Examples.db_three (Examples.row "a" 1300 30))).
  vm_compute. reflexivity.
Defined.

End SelectorMore.


(** ** The progress tracker *)

Module TrackerFacts.
Section WithTime.

Context {F : Type}.
Context {D : Type}.

Import Tracker.

Abbreviation Entry := (@ProgressEntry F D).

Lemma len_app {A} (l l' : list A) : Py.len (l ++ l') = Py.len l + Py.len l'.
Proof. unfold Py.len. rewrite length_app. lia. Qed.

Lemma len_nonneg {A} (l : list A) : 0 <= Py.len l.
Proof. unfold Py.len. lia. Qed.

Lemma streak_from_shift (l : list Entry) (s : Z) :
  streak_from l s = s + streak_from l 0.
Proof.
  revert s. induction l as [|e l IH]; intros s; simpl; [lia|].
  destruct (e_solved e); [|lia].
  rewrite (IH (s + 1)), (IH 1). lia.
Qed.

Lemma current_streak_snoc (es : list Entry) (e : Entry) :
  _calculate_current_streak (es ++ [e]) =
  if e_solved e then _calculate_current_streak es + 1 else 0.
Proof.
  unfold _calculate_current_streak. rewrite rev_app_distr. simpl.
  destruct (e_solved e); [|reflexivity].
  rewrite streak_from_shift. lia.
Qed.

Lemma total_solved_snoc (es : list Entry) (e : Entry) :
  total_solved (es ++ [e]) = total_solved es + (if e_solved e then 1 else 0).
Proof.
  unfold total_solved, solved_entries. rewrite filter_app, len_app. simpl.
  destruct (e_solved e); reflexivity.
Qed.

Lemma best_fold_snoc (es : list Entry) (e : Entry) :
  fold_left best_step (es ++ [e]) (0, 0) =
  best_step (fold_left best_step es (0, 0)) e.
Proof. now rewrite fold_left_app. Qed.

(** The running counter of the best-streak loop is the current streak. *)
Lemma best_fold_current (es : list Entry) :
  fst (fold_left best_step es (0, 0)) = _calculate_current_streak es.
Proof.
  induction es as [|e es IH] using rev_ind; [reflexivity|].
  rewrite best_fold_snoc, current_streak_snoc.
  destruct (fold_left best_step es (0, 0)) as [c b]. simpl in IH. subst c.
  unfold best_step. destruct (e_solved e); reflexivity.
Qed.

Lemma best_streak_snoc (es : list Entry) (e : Entry) :
  _calculate_best_streak (es ++ [e]) =
  if e_solved e
  then Z.max (_calculate_best_streak es) (_calculate_current_streak es + 1)
  else _calculate_best_streak es.
Proof.
  unfold _calculate_best_streak. rewrite best_fold_snoc.
  rewrite <- best_fold_current.
  destruct (fold_left best_step es (0, 0)) as [c b]. unfold best_step.
  destruct (e_solved e); reflexivity.
Qed.

Lemma streaks_chain (es : list Entry) :
  0 <= _calculate_current_streak es /\
  _calculate_current_streak es <= _calculate_best_streak es /\
  _calculate_best_streak es <= total_solved es.
Proof.
  induction es as [|e es IH] using rev_ind.
  - cbv. repeat split; discriminate.
  - rewrite current_streak_snoc, best_streak_snoc, total_solved_snoc.
    destruct (e_solved e); lia.
Qed.

(** X14: the statistics are ordered: the current streak is at most the best
    streak, the best streak at most the number of solved attempts, and that
    at most the number of attempts; none is negative. *)
Theorem statistics_ordered (es : list Entry) :
  0 <= _calculate_current_streak es /\
  _calculate_current_streak es <= _calculate_best_streak es /\
  _calculate_best_streak es <= total_solved es /\
  total_solved es <= total_attempts es.
Proof.
  destruct (streaks_chain es) as (H0 & H1 & H2). repeat split; try assumption.
  unfold total_solved, total_attempts, solved_entries, Py.len.
  apply inj_le, filter_length_le.
Qed.

(** X15: what recording an attempt does to the statistics. A solved attempt
    lengthens the current streak by one, raises the best streak to the new
    current streak if that is longer, and counts as solved; a failed one
    sets the current streak to zero and leaves the best streak and the
    number of solved attempts as they were. Either counts as an attempt. *)
Theorem record_attempt_statistics (es : list Entry) (now : D) (puzzle_id : string)
    (solved : bool) (attempts : Z) (time_taken : F) (difficulty hints_used : Z) :
  let es' := record_attempt es now puzzle_id solved attempts time_taken
                            difficulty hints_used in
  total_attempts es' = total_attempts es + 1 /\
  if solved
  then _calculate_current_streak es' = _calculate_current_streak es + 1 /\
       _calculate_best_streak es' =
         Z.max (_calculate_best_streak es) (_calculate_current_streak es + 1) /\
       total_solved es' = total_solved es + 1
  else _calculate_current_streak es' = 0 /\
       _calculate_best_streak es' = _calculate_best_streak es /\
       total_solved es' = total_solved es.
Proof.
  cbv zeta. unfold record_attempt.
  rewrite current_streak_snoc, best_streak_snoc, total_solved_snoc.
  unfold total_attempts. rewrite len_app. cbn [e_solved].
  split; [reflexivity|]. destruct solved; repeat split; lia.
Qed.

Lemma has_solved_iff (es : list Entry) (puzzle_id : string) :
  has_solved_puzzle es puzzle_id = true <->
  exists e, In e es /\ e_puzzle_id e = puzzle_id /\ e_solved e = true.
Proof.
  unfold has_solved_puzzle. rewrite existsb_exists. split.
  - intros (e & Hin & H). apply andb_true_iff in H as [H1 H2].
    apply String.eqb_eq in H1. eauto.
  - intros (e & Hin & H1 & H2). exists e. split; [exact Hin|].
    apply andb_true_iff. split; [now apply String.eqb_eq|exact H2].
Qed.

Lemma solved_ids_iff (es : list Entry) (puzzle_id : string) :
  In puzzle_id (get_solved_puzzle_ids es) <->
  exists e, In e es /\ e_puzzle_id e = puzzle_id /\ e_solved e = true.
Proof.
  unfold get_solved_puzzle_ids, solved_entries.
  rewrite nodup_In, in_map_iff. split.
  - intros (e & Hid & Hin). apply filter_In in Hin as [Hin Hs]. eauto.
  - intros (e & Hin & Hid & Hs). exists e. split; [exact Hid|].
    apply filter_In. now split.
Qed.

(** X16: the three questions about the history agree. A puzzle id is in the
    set of solved ids exactly when [has_solved_puzzle] says so; a solved
    puzzle has been attempted; and the set names no id twice and no more
    ids than there are solved attempts. *)
Theorem solved_queries_agree (es : list Entry) (puzzle_id : string) :
  (In puzzle_id (get_solved_puzzle_ids es) <-> has_solved_puzzle es puzzle_id = true) /\
  (has_solved_puzzle es puzzle_id = true -> has_attempted_puzzle es puzzle_id = true) /\
  NoDup (get_solved_puzzle_ids es) /\
  Py.len (get_solved_puzzle_ids es) <= total_solved es.
Proof.
  repeat split.
  - intros H. apply has_solved_iff. now apply solved_ids_iff.
  - intros H. apply solved_ids_iff. now apply has_solved_iff.
  - intros H. apply has_solved_iff in H as (e & Hin & Hid & _).
    unfold has_attempted_puzzle. apply existsb_exists. exists e.
    split; [exact Hin|now apply String.eqb_eq].
  - apply NoDup_nodup.
  - unfold get_solved_puzzle_ids, total_solved, Py.len.
    apply inj_le. rewrite <- (length_map e_puzzle_id (solved_entries es)).
    apply NoDup_incl_length; [apply NoDup_nodup|].
    intros x Hx. apply nodup_In in Hx. exact Hx.
Qed.

(** X17: the set of solved ids only grows, and only by solved attempts:
    after recording an attempt it holds the ids it held before, and the
    recorded id if and only if the attempt was solved or the id was there
    already. *)
Theorem record_attempt_solved_ids (es : list Entry) (now : D) (puzzle_id : string)
    (solved : bool) (attempts : Z) (time_taken : F) (difficulty hints_used : Z)
    (id : string) :
  In id (get_solved_puzzle_ids
           (record_attempt es now puzzle_id solved attempts time_taken
                           difficulty hints_used)) <->
  In id (get_solved_puzzle_ids es) \/ (solved = true /\ id = puzzle_id).
Proof.
  unfold record_attempt. rewrite !solved_ids_iff. split.
  - intros (e & Hin & Hid & Hs). apply in_app_iff in Hin as [Hin|[<-|[]]].
    + left. eauto.
    + right. cbn in Hid, Hs. now split.
  - intros [(e & Hin & Hid & Hs)|[-> ->]].
    + exists e. split; [apply in_app_iff; now left|now split].
    + eexists. split; [apply in_app_iff; right; now left|]. now split.
Qed.

(** The per-level counts *)

Lemma count_of_bump (d d' : Z) (counts : list (Z * Z)) :
  count_of d' (bump d counts) =
  count_of d' counts +
  (if (d' =? d) && existsb (fun kv => fst kv =? d') counts then 1 else 0).
Proof.
  unfold count_of, bump. induction counts as [|[k v] counts IH].
  - cbn. now rewrite andb_false_r.
  - cbn [map find existsb fst snd].
    destruct (Z.eqb_spec k d) as [->|Hkd]; cbn [fst snd].
    + destruct (Z.eqb_spec d d') as [->|Hdd'].
      * rewrite Z.eqb_refl. reflexivity.
      * rewrite IH. cbn [orb]. reflexivity.
    + destruct (Z.eqb_spec k d') as [->|Hkd'].
      * destruct (Z.eqb_spec d' d); [congruence|]. cbn. lia.
      * rewrite IH. reflexivity.
Qed.

Lemma keys_bump (d d' : Z) (counts : list (Z * Z)) :
  existsb (fun kv => fst kv =? d') (bump d counts) =
  existsb (fun kv => fst kv =? d') counts.
Proof.
  unfold bump. induction counts as [|[k v] counts IH]; [reflexivity|].
  cbn [map existsb fst snd]. rewrite IH.
  destruct (k =? d); reflexivity.
Qed.

Lemma count_of_fold (d : Z) (l : list Entry) (counts : list (Z * Z)) :
  count_of d (fold_left (fun counts entry => bump (e_difficulty entry) counts)
                        l counts) =
  count_of d counts +
  (if existsb (fun kv => fst kv =? d) counts
   then Py.len (filter (solved_at d) l) else 0).
Proof.
  revert counts. induction l as [|e l IH]; intros counts.
  - simpl. destruct (existsb _ counts); cbv [Py.len length Z.of_nat]; lia.
  - cbn [fold_left filter]. rewrite IH, keys_bump, count_of_bump.
    unfold solved_at at 2. rewrite (Z.eqb_sym (e_difficulty e) d).
    destruct (existsb _ counts); [|rewrite andb_false_r; lia].
    rewrite andb_true_r. destruct (d =? e_difficulty e).
    + unfold Py.len. cbn [length]. lia.
    + lia.
Qed.

Lemma filter_split5 (l : list Entry) :
  (forall e, In e l -> 1 <= e_difficulty e <= 5) ->
  Py.len l =
  Py.len (filter (solved_at 1) l) + Py.len (filter (solved_at 2) l) +
  Py.len (filter (solved_at 3) l) + Py.len (filter (solved_at 4) l) +
  Py.len (filter (solved_at 5) l).
Proof.
  induction l as [|e l IH]; intros H; [reflexivity|].
  assert (He := H e (or_introl eq_refl)).
  specialize (IH (fun x Hx => H x (or_intror Hx))).
  assert (Hs : forall k, solved_at k e = (e_difficulty e =? k)) by reflexivity.
  cbn [filter]. rewrite !Hs.
  unfold Py.len in *. cbn [length].
  destruct (Z.eqb_spec (e_difficulty e) 1), (Z.eqb_spec (e_difficulty e) 2),
    (Z.eqb_spec (e_difficulty e) 3), (Z.eqb_spec (e_difficulty e) 4),
    (Z.eqb_spec (e_difficulty e) 5); cbn [length]; lia.
Qed.

(** X18: the breakdown by difficulty. The count shown for a level from 1
    to 5 is the number of solved attempts recorded with that level, and any
    other level shows nothing: a solved attempt recorded with a level
    outside 1..5 is counted in the total and in no level. When every solved
    attempt has a level from 1 to 5, the five counts add up to the total. *)
Theorem solved_by_difficulty_counts (es : list Entry) (d : Z) :
  count_of d (solved_by_difficulty es) =
    (if (1 <=? d) && (d <=? 5)
     then Py.len (filter (solved_at d) (solved_entries es)) else 0) /\
  ((forall e, In e es -> e_solved e = true -> 1 <= e_difficulty e <= 5) ->
   count_of 1 (solved_by_difficulty es) + count_of 2 (solved_by_difficulty es) +
   count_of 3 (solved_by_difficulty es) + count_of 4 (solved_by_difficulty es) +
   count_of 5 (solved_by_difficulty es) = total_solved es).
Proof.
  assert (Hc : forall k, count_of k (solved_by_difficulty es) =
            if (1 <=? k) && (k <=? 5)
            then Py.len (filter (solved_at k) (solved_entries es)) else 0).
  { intros k. unfold solved_by_difficulty. rewrite count_of_fold.
    cbn [existsb fst]. unfold count_of. cbn [find fst snd].
    destruct (Z.eqb_spec 1 k) as [<-|]; [reflexivity|].
    destruct (Z.eqb_spec 2 k) as [<-|]; [reflexivity|].
    destruct (Z.eqb_spec 3 k) as [<-|]; [reflexivity|].
    destruct (Z.eqb_spec 4 k) as [<-|]; [reflexivity|].
    destruct (Z.eqb_spec 5 k) as [<-|]; [reflexivity|].
    cbn [orb]. destruct (Z.leb_spec 1 k), (Z.leb_spec k 5); cbn; lia. }
  split; [apply Hc|]. intros H. rewrite !Hc. cbn [Z.leb andb].
  unfold total_solved. symmetry. apply filter_split5.
  intros e He. unfold solved_entries in He. apply filter_In in He as [Hin Hs].
  now apply H.
Qed.

End WithTime.

(** *** On an example history *)

Lemma solved_by_difficulty_counts_witness :
  Tracker.count_of 1 (Tracker.solved_by_difficulty History.four_attempts) +
  Tracker.count_of 2 (Tracker.solved_by_difficulty History.four_attempts) +
  Tracker.count_of 3 (Tracker.solved_by_difficulty History.four_attempts) +
  Tracker.count_of 4 (Tracker.solved_by_difficulty History.four_attempts) +
  Tracker.count_of 5 (Tracker.solved_by_difficulty History.four_attempts)
    = Tracker.total_solved History.four_attempts.
Proof.
  apply (proj2 (solved_by_difficulty_counts History.four_attempts 1)).
  intros e He _. simpl in He.
  destruct He as [<-|[<-|[<-|[<-|[]]]]]; vm_compute; split; discriminate.
Defined.

End TrackerFacts.


(** ** The hint system *)

Module HintFacts.
Section WithEngine.

Context (E : ChessEngine).
Context (H : HintEngine E).

Import Hints.

Abbreviation HS := (HintSystem E).

Lemma get_next_hint_level (self : HS) :
  current_level E (snd (get_next_hint E H self))
    = Z.min (current_level E self + 1) 4.
Proof.
  unfold get_next_hint. cbn [snd set_level current_level].
  destruct (Z.ltb_spec 4 (current_level E self + 1));
    cbn [set_level current_level]; lia.
Qed.

Lemma get_next_hint_keeps (self : HS) :
  board E (snd (get_next_hint E H self)) = board E self /\
  solution_move E (snd (get_next_hint E H self)) = solution_move E self.
Proof.
  unfold get_next_hint. cbn [snd set_level current_level].
  destruct (4 <? current_level E self + 1); split; reflexivity.
Qed.

(** One call on a system whose move starts from an occupied square. *)
Lemma get_next_hint_occupied (self : HS) piece :
  piece_at E H (board E self) (from_square E H (solution_move E self)) = Some piece ->
  0 <= current_level E self ->
  (current_level E self < 3 \/ san E (board E self) (solution_move E self) <> None) ->
  exists hint,
    fst (get_next_hint E H self) = Returns hint /\
    level hint = Z.min (current_level E self + 1) 4.
Proof.
  intros Hp H0 Hs. unfold get_next_hint. cbn [fst set_level current_level].
  destruct (Z.ltb_spec 4 (current_level E self + 1)) as [Hc|Hc];
    cbn [current_level set_level]; unfold get_hint;
    cbn [board solution_move set_level]; rewrite Hp.
  - cbn [Z.eqb Pos.eqb].
    destruct Hs as [Hs|Hs]; [lia|].
    destruct (san E (board E self) (solution_move E self)); [|congruence].
    eexists. split; [reflexivity|]. cbn [level]. lia.
  - destruct (Z.eqb_spec (current_level E self + 1) 1);
      [eexists; split; [reflexivity|cbn [level]; lia]|].
    destruct (Z.eqb_spec (current_level E self + 1) 2);
      [eexists; split; [reflexivity|cbn [level]; lia]|].
    destruct (Z.eqb_spec (current_level E self + 1) 3);
      [eexists; split; [reflexivity|cbn [level]; lia]|].
    destruct Hs as [Hs|Hs]; [lia|].
    destruct (san E (board E self) (solution_move E self)); [|congruence].
    eexists. split; [reflexivity|]. cbn [level]. lia.
Qed.

Lemma next_hints_levels (n : nat) (self : HS) piece :
  piece_at E H (board E self) (from_square E H (solution_move E self)) = Some piece ->
  0 <= current_level E self <= 4 ->
  (current_level E self + Z.of_nat n <= 3 \/
   san E (board E self) (solution_move E self) <> None) ->
  exists hints self',
    next_hints E H n self = (Returns hints, self') /\
    map level hints
      = map (fun k => Z.min (current_level E self + Z.of_nat k) 4) (seq 1 n) /\
    current_level E self' = Z.min (current_level E self + Z.of_nat n) 4.
Proof.
  revert self. induction n as [|n IH]; intros self Hp H0 Hs.
  - exists [], self. repeat split. cbn. lia.
  - destruct (get_next_hint_occupied self piece Hp (proj1 H0)) as (hint & Hh & Hl).
    { destruct Hs as [Hs|Hs]; [left; lia|now right]. }
    pose proof (get_next_hint_level self) as Hlev.
    destruct (get_next_hint_keeps self) as [Hb Hm].
    cbn [next_hints].
    destruct (get_next_hint E H self) as [r self1]. cbn [fst snd] in *. subst r.
    destruct (IH self1) as (hints & self' & Hrun & Hlevels & Hlast).
    + now rewrite Hb, Hm.
    + lia.
    + rewrite Hb, Hm. destruct Hs as [Hs|Hs]; [left; lia|now right].
    + rewrite Hrun. exists (hint :: hints), self'. split; [reflexivity|]. split.
      * cbn [map seq]. rewrite Hl, Hlevels. f_equal.
        rewrite <- (seq_shift n 1), map_map. apply map_ext_in. intros k Hk.
        apply in_seq in Hk. rewrite Hlev. lia.
      * rewrite Hlast, Hlev. lia.
Qed.

(** X19: hints come in the order 1, 2, 3, 4, 4, ...: on a fresh hint
    system whose solution move starts from an occupied square, [n] calls of
    [get_next_hint] return hints of the levels [min(k, 4)] for [k] from 1
    to [n] and leave the level at [min(n, 4)]. The first three calls never
    raise; the later ones do not raise when the move has a SAN text. *)
Theorem hint_levels_in_order (n : nat) (self : HS) piece :
  current_level E self = 0 ->
  piece_at E H (board E self) (from_square E H (solution_move E self)) = Some piece ->
  (n <= 3)%nat \/ san E (board E self) (solution_move E self) <> None ->
  exists hints self',
    next_hints E H n self = (Returns hints, self') /\
    map level hints = map (fun k => Z.min (Z.of_nat k) 4) (seq 1 n) /\
    current_level E self' = Z.min (Z.of_nat n) 4.
Proof.
  intros H0 Hp Hs.
  destruct (next_hints_levels n self piece Hp) as (hints & self' & Hrun & Hl & Hc).
  - lia.
  - destruct Hs as [Hs|Hs]; [left; lia|now right].
  - exists hints, self'. rewrite H0 in Hl, Hc. now repeat split.
Qed.

End WithEngine.

(** *** On the example position *)

Lemma hint_levels_in_order_witness :
  exists hints self',
    Hints.next_hints MiniChess.engine MiniHints.engine 5 (MiniHints.hints_at 0)
      = (Returns hints, self') /\
    map Hints.level hints = map (fun k => Z.min (Z.of_nat k) 4) (seq 1 5) /\
    Hints.current_level MiniChess.engine self' = Z.min (Z.of_nat 5) 4.
Proof.
  apply (hint_levels_in_order MiniChess.engine MiniHints.engine 5
           (MiniHints.hints_at 0)
           {| MiniChess.piece_type := MiniChess.PAWN; MiniChess.color := false |}).
  - reflexivity.
  - vm_compute. reflexivity.
  - right. vm_compute. discriminate.
Defined.

End HintFacts.


(** ** The puzzle manager *)

Module ManagerFacts.
Section WithEngine.

Context (E : ChessEngine).
Context (H : HintEngine E).
Context (W : World).

Import Manager.

Abbreviation PM := (PuzzleManager E W).
Abbreviation Entry := (@Tracker.ProgressEntry (Seconds W) (Date W)).

Lemma same_puzzle_state_refl (a : PM) : same_puzzle_state E W a a.
Proof. unfold same_puzzle_state. tauto. Qed.

Lemma renew_hint_system_same (v : Validator.MoveValidator E) (self : PM) :
  same_puzzle_state E W (snd (renew_hint_system E W v self)) self.
Proof.
  unfold renew_hint_system.
  destruct (Validator.get_current_solution_move E v) as [[u|]|e];
    try apply same_puzzle_state_refl.
  destruct (Py.truthy (Some u)); [|apply same_puzzle_state_refl].
  destruct (Hints.__init__ E (Validator.get_current_board E v) u);
    [|apply same_puzzle_state_refl].
  unfold same_puzzle_state. cbn. tauto.
Qed.

Lemma configure_timer_same tc (self : PM) :
  same_puzzle_state E W (configure_timer E W tc self) self.
Proof.
  unfold configure_timer. destruct tc as [c|]; [|apply same_puzzle_state_refl].
  destruct (enabled c); [|apply same_puzzle_state_refl].
  unfold same_puzzle_state. cbn. tauto.
Qed.

(** What a call of [start_puzzle] that returns has done. *)
Lemma start_puzzle_returns rand d ph th tc (self self' : PM) (p : Puzzle) :
  start_puzzle E W rand d ph th tc self = (Returns p, self') ->
  Selector.select_puzzle rand (db E W self) d ph
    (Tracker.get_solved_puzzle_ids (entries E W self)) th = Returns p /\
  (exists v, Validator.__init__ E p = Returns v /\ move_validator E W self' = Some v) /\
  current_puzzle E W self' = Some p /\
  entries E W self' = entries E W self /\
  db E W self' = db E W self /\
  move_attempts E W self' = 0 /\
  hints_used E W self' = 0.
Proof.
  unfold start_puzzle.
  destruct (Selector.select_puzzle rand (db E W self) d ph
              (Tracker.get_solved_puzzle_ids (entries E W self)) th) as [q|e];
    [|discriminate].
  destruct (Validator.__init__ E q) as [v|e] eqn:Hinit; [|discriminate].
  match goal with
  | |- context [renew_hint_system E W v ?s] =>
      pose proof (renew_hint_system_same v s) as Hr;
      destruct (renew_hint_system E W v s) as [[u|e] s1]
  end; [|discriminate].
  intros Heq. injection Heq as <- <-.
  pose proof (configure_timer_same tc s1) as Hc.
  unfold same_puzzle_state in *. cbn [snd] in Hr.
  destruct Hr as (R1 & R2 & R3 & R4 & R5 & R6).
  destruct Hc as (C1 & C2 & C3 & C4 & C5 & C6).
  cbn in R1, R2, R3, R4, R5, R6.
  split; [reflexivity|]. split; [exists v; split; [exact Hinit|congruence]|].
  repeat split; congruence.
Qed.

(** One call of [validate_move] with an active puzzle. *)
Lemma validate_move_active (user_input : string) (self : PM) v :
  move_validator E W self = Some v ->
  move_validator E W (snd (validate_move E W user_input self))
    = Some (snd (Validator.validate_move E user_input v)) /\
  move_attempts E W (snd (validate_move E W user_input self))
    = move_attempts E W self + 1 /\
  entries E W (snd (validate_move E W user_input self)) = entries E W self /\
  current_puzzle E W (snd (validate_move E W user_input self))
    = current_puzzle E W self /\
  db E W (snd (validate_move E W user_input self)) = db E W self /\
  hints_used E W (snd (validate_move E W user_input self)) = hints_used E W self /\
  (forall result, fst (validate_move E W user_input self) = Returns result ->
                  fst (Validator.validate_move E user_input v) = Returns result).
Proof.
  intros Hv. unfold validate_move. rewrite Hv.
  destruct (Validator.validate_move E user_input v) as [[[ok msg]|e] v'];
    [|cbn; repeat split; try reflexivity; discriminate].
  destruct (ok && negb (Validator.is_complete E v'));
    [|cbn; repeat split; try reflexivity; tauto].
  match goal with
  | |- context [renew_hint_system E W v' ?s] =>
      pose proof (renew_hint_system_same v' s) as Hr;
      destruct (renew_hint_system E W v' s) as [[u|e] s1]
  end; unfold same_puzzle_state in Hr; cbn in Hr;
    destruct Hr as (R1 & R2 & R3 & R4 & R5 & R6); cbn [fst snd];
    repeat split; try assumption; try tauto; discriminate.
Qed.

Lemma validate_move_inactive (user_input : string) (self : PM) :
  move_validator E W self = None ->
  validate_move E W user_input self = (Returns (false, msg_no_active_puzzle), self).
Proof. intros Hv. unfold validate_move. now rewrite Hv. Qed.

(** A run of submissions with an active puzzle. *)
Lemma submit_all_active (inputs : list string) :
  forall (self self' : PM) v results,
    move_validator E W self = Some v ->
    submit_all E W inputs self = (Returns results, self') ->
    (exists v', move_validator E W self' = Some v' /\
                Session.submit_all E inputs v = (Returns results, v')) /\
    move_attempts E W self' = move_attempts E W self + Py.len inputs /\
    entries E W self' = entries E W self /\
    current_puzzle E W self' = current_puzzle E W self /\
    db E W self' = db E W self /\
    hints_used E W self' = hints_used E W self.
Proof.
  induction inputs as [|s inputs IH]; intros self self' v results Hv Hrun.
  - cbn in Hrun. injection Hrun as <- <-. split; [exists v; now split|].
    unfold Py.len. cbn. repeat split; lia.
  - cbn [submit_all] in Hrun.
    destruct (validate_move_active s self v Hv)
      as (A1 & A2 & A3 & A4 & A5 & A6 & A7).
    destruct (validate_move E W s self) as [[r|e] s1]; [|discriminate].
    cbn [fst snd] in *. specialize (A7 r eq_refl).
    destruct (submit_all E W inputs s1) as [[rs|e] s2] eqn:Hrest; [|discriminate].
    injection Hrun as <- <-.
    destruct (IH s1 s2 _ rs A1 Hrest) as ((v' & B1 & B0) & B2 & B3 & B4 & B5 & B6).
    split.
    + exists v'. split; [exact B1|]. cbn [Session.submit_all].
      destruct (Validator.validate_move E s v) as [r' v1]. cbn [fst snd] in *.
      subst r'. rewrite B0. reflexivity.
    + unfold Py.len in *. cbn [length]. repeat split; try congruence; lia.
Qed.

(** X20: with an active puzzle every submission counts as one attempt and
    is answered by the validator: after a run of submissions in which no
    call raised, the attempts have grown by the number of submissions, the
    answers are those of the validator on the same inputs, and the history
    and the current puzzle are unchanged. Without an active puzzle every
    submission is answered "No active puzzle" and changes nothing. *)
Theorem submissions_are_attempts (inputs : list string) (self : PM) :
  (forall v self' results,
     move_validator E W self = Some v ->
     submit_all E W inputs self = (Returns results, self') ->
     move_attempts E W self' = move_attempts E W self + Py.len inputs /\
     (exists v', move_validator E W self' = Some v' /\
                 Session.submit_all E inputs v = (Returns results, v')) /\
     entries E W self' = entries E W self /\
     current_puzzle E W self' = current_puzzle E W self) /\
  (move_validator E W self = None ->
   submit_all E W inputs self
     = (Returns (map (fun _ => (false, msg_no_active_puzzle)) inputs), self)).
Proof.
  split.
  - intros v self' results Hv Hrun.
    destruct (submit_all_active inputs self self' v results Hv Hrun)
      as (B1 & B2 & B3 & B4 & _). now repeat split.
  - intros Hv. induction inputs as [|s inputs IH]; [reflexivity|].
    cbn [submit_all map]. rewrite (validate_move_inactive s self Hv), IH.
    reflexivity.
Qed.

Lemma level_in_range (r : Z) : 1 <= _rating_to_difficulty r <= 5.
Proof.
  unfold _rating_to_difficulty.
  destruct (r <? 1200), (r <? 1600), (r <? 2000), (r <? 2400); lia.
Qed.

(** [finish_puzzle] with a current puzzle, in full. *)
Lemma finish_puzzle_some (quit_early : bool) (self : PM) (p : Puzzle) :
  current_puzzle E W self = Some p ->
  finish_puzzle E W quit_early self =
    (Some {| r_puzzle := p;
             r_solved := is_puzzle_complete E W self;
             r_attempts := move_attempts E W self;
             r_time_taken := fst (time_taken E W self);
             r_hints_used := hints_used E W self;
             r_difficulty := _rating_to_difficulty (rating p) |},
     {| db := db E W self;
        entries :=
          if quit_early then entries E W self
          else Tracker.record_attempt (entries E W self)
                 (now W (snd (time_taken E W self))) (puzzle_id p)
                 (is_puzzle_complete E W self) (move_attempts E W self)
                 (fst (time_taken E W self))
                 (_rating_to_difficulty (rating p)) (hints_used E W self);
        current_puzzle := None; move_validator := None; hint_system := None;
        start_time := None; move_attempts := 0; hints_used := 0; timer := None;
        ticks := if quit_early then snd (time_taken E W self)
                 else S (snd (time_taken E W self)) |}).
Proof.
  intros Hp. unfold finish_puzzle, is_puzzle_complete. rewrite Hp.
  destruct (time_taken E W self) as [taken ticks']. cbn [fst snd].
  destruct quit_early; destruct (move_validator E W self); reflexivity.
Qed.

(** X21: what finishing a puzzle records. Without a current puzzle
    [finish_puzzle] returns the empty result and changes nothing. With one,
    the result names the puzzle, whether it is complete, the attempts and
    hints counted so far and the level of the puzzle's rating, which is
    between 1 and 5; unless the player quit early, exactly one entry with
    these values is added to the history, and quitting early adds none; in
    both cases the state of the puzzle is cleared. *)
Theorem finish_puzzle_records (quit_early : bool) (self : PM) :
  (current_puzzle E W self = None ->
   finish_puzzle E W quit_early self = (None, self)) /\
  (forall p, current_puzzle E W self = Some p ->
     let self' := snd (finish_puzzle E W quit_early self) in
     (exists r,
        fst (finish_puzzle E W quit_early self) = Some r /\
        r_puzzle W r = p /\
        r_solved W r = is_puzzle_complete E W self /\
        r_attempts W r = move_attempts E W self /\
        r_hints_used W r = hints_used E W self /\
        r_difficulty W r = _rating_to_difficulty (rating p) /\
        1 <= r_difficulty W r <= 5 /\
        if quit_early then entries E W self' = entries E W self
        else exists e,
               entries E W self' = (entries E W self ++ [e])%list /\
               Tracker.e_puzzle_id e = puzzle_id p /\
               Tracker.e_solved e = r_solved W r /\
               Tracker.e_attempts e = r_attempts W r /\
               Tracker.e_time_taken e = r_time_taken W r /\
               Tracker.e_difficulty e = r_difficulty W r /\
               Tracker.e_hints_used e = r_hints_used W r) /\
     db E W self' = db E W self /\
     current_puzzle E W self' = None /\
     move_validator E W self' = None /\
     hint_system E W self' = None /\
     timer E W self' = None /\
     move_attempts E W self' = 0 /\
     hints_used E W self' = 0).
Proof.
  split.
  - intros Hp. unfold finish_puzzle. now rewrite Hp.
  - intros p Hp. cbv zeta. rewrite (finish_puzzle_some quit_early self p Hp).
    cbn [fst snd]. split; [|cbn; tauto].
    eexists. split; [reflexivity|]. cbn.
    repeat split; try apply level_in_range.
    destruct quit_early; [reflexivity|].
    eexists. split; [reflexivity|]. cbn. tauto.
Qed.

Lemma mem_false_iff (x : string) (l : list string) :
  Sql.mem x l = false <-> ~ In x l.
Proof.
  unfold Sql.mem. split.
  - intros Hm Hin. assert (existsb (String.eqb x) l = true); [|congruence].
    apply existsb_exists. exists x. split; [exact Hin|apply String.eqb_refl].
  - intros Hn. destruct (existsb (String.eqb x) l) eqn:Hm; [|reflexivity].
    apply existsb_exists in Hm as (y & Hin & Heq).
    apply String.eqb_eq in Heq. subst y. contradiction.
Qed.

(** The first query of [select_puzzle] decides when it matches a row. *)
Lemma select_tier1 rand db (d : Z) ph ex th (cs : list Selector.clause) :
  Selector.where_clauses (Some d) ph ex true th = Returns cs ->
  Selector.matching db cs <> [] ->
  exists row,
    In row (Selector.matching db cs) /\
    Selector.select_puzzle rand db d ph ex th
      = Returns (Selector._row_to_puzzle db row) /\
    Sql.mem (Sql.c_puzzle_id row) ex = false.
Proof.
  intros Hcs Hne.
  destruct (SelectorMore.random_one_some (rand 1%nat) _ Hne) as (row & Hr & Hin).
  assert (Hq : Selector._query_puzzle (rand 1%nat) db (Some d) ph ex true th
               = Returns (Some (Selector._row_to_puzzle db row))).
  { unfold Selector._query_puzzle. rewrite Hcs, Hr. reflexivity. }
  exists row. split; [exact Hin|]. split.
  - unfold Selector.select_puzzle. rewrite Hq. reflexivity.
  - apply (SelectorFacts.tier1_not_excluded _ _ _ _ _ _ _ Hq).
Qed.

(** X22: a solved puzzle is not served while an unsolved one fits. When
    the store holds a puzzle that meets the requested difficulty, phase and
    theme and whose id is not among the solved ids of the history, the
    puzzle that [start_puzzle] returns is such a puzzle: it meets the
    request and has not been solved before. *)
Theorem start_puzzle_prefers_unsolved
    rand d ph th tc (self self' : PM) (p : Puzzle) (cs : list Selector.clause) :
  Selector.where_clauses (Some d) ph
    (Tracker.get_solved_puzzle_ids (entries E W self)) true th = Returns cs ->
  Selector.matching (db E W self) cs <> [] ->
  start_puzzle E W rand d ph th tc self = (Returns p, self') ->
  (exists row, In row (Selector.matching (db E W self) cs) /\
               p = Selector._row_to_puzzle (db E W self) row) /\
  Tracker.has_solved_puzzle (entries E W self) (puzzle_id p) = false.
Proof.
  intros Hcs Hne Hstart.
  destruct (start_puzzle_returns _ _ _ _ _ _ _ _ Hstart) as (Hsel & _).
  destruct (select_tier1 rand (db E W self) d ph _ th cs Hcs Hne)
    as (row & Hin & Hsel' & Hmem).
  rewrite Hsel in Hsel'. injection Hsel' as ->.
  split; [exists row; now split|].
  cbn [puzzle_id Selector._row_to_puzzle].
  apply mem_false_iff in Hmem.
  destruct (Tracker.has_solved_puzzle (entries E W self) (Sql.c_puzzle_id row))
    eqn:Hs; [|reflexivity].
  exfalso. apply Hmem. apply TrackerFacts.solved_ids_iff.
  now apply TrackerFacts.has_solved_iff.
Qed.

Lemma has_solved_snoc (es : list Entry) (e : Entry) (id : string) :
  Tracker.has_solved_puzzle (es ++ [e]) id =
  Tracker.has_solved_puzzle es id
  || (String.eqb (Tracker.e_puzzle_id e) id && Tracker.e_solved e).
Proof.
  unfold Tracker.has_solved_puzzle. rewrite existsb_app. cbn [existsb].
  now rewrite orb_false_r.
Qed.

(** X23: a session from start to finish. After [start_puzzle] has
    returned a puzzle and a run of submissions none of which raised, the
    puzzle is complete exactly when twice the number of accepted
    submissions reaches the number of its solution moves; [finish_puzzle]
    then adds one entry for the puzzle with as many attempts as there were
    submissions. When the puzzle is complete the entry is a solved one: the
    current streak grows by one and the puzzle counts as solved from then
    on. Otherwise the entry is a failed one: the current streak falls to 0
    and the solved puzzles are those of before. Quitting early leaves the
    history as it was before the puzzle was started. *)
Theorem session_is_recorded
    rand d ph th tc (self s1 s2 : PM) (p : Puzzle)
    (inputs : list string) (results : list (bool * string)) :
  start_puzzle E W rand d ph th tc self = (Returns p, s1) ->
  submit_all E W inputs s1 = (Returns results, s2) ->
  let s3 := snd (finish_puzzle E W false s2) in
  let solved := Py.len (puzzle_solution_moves p) <=? 2 * Session.accepted results in
  is_puzzle_complete E W s2 = solved /\
  (exists e,
     entries E W s3 = (entries E W self ++ [e])%list /\
     Tracker.e_puzzle_id e = puzzle_id p /\
     Tracker.e_solved e = solved /\
     Tracker.e_attempts e = Py.len inputs /\
     1 <= Tracker.e_difficulty e <= 5) /\
  (if solved
   then Tracker._calculate_current_streak (entries E W s3)
          = Tracker._calculate_current_streak (entries E W self) + 1 /\
        Tracker.has_solved_puzzle (entries E W s3) (puzzle_id p) = true
   else Tracker._calculate_current_streak (entries E W s3) = 0 /\
        forall id, Tracker.has_solved_puzzle (entries E W s3) id
                   = Tracker.has_solved_puzzle (entries E W self) id) /\
  entries E W (snd (finish_puzzle E W true s2)) = entries E W self.
Proof.
  intros Hstart Hrun s3 solved.
  destruct (start_puzzle_returns _ _ _ _ _ _ _ _ Hstart)
    as (_ & (v & Hinit & Hv) & Hp1 & He1 & _ & Ha1 & _).
  destruct (submit_all_active inputs s1 s2 v results Hv Hrun)
    as ((v' & Hv' & Hsession) & Ha2 & He2 & Hp2 & _).
  destruct (ValidatorFacts.init_fields E p v Hinit) as [Hmoves Hindex].
  assert (Hrange : Validator.cursor_in_range E v).
  { unfold Validator.cursor_in_range, Py.len. rewrite Hindex. lia. }
  destruct (ValidatorMore.submit_all_cursor E inputs v v' results Hrange Hsession)
    as [Hmoves' Hindex'].
  assert (Hcomplete : is_puzzle_complete E W s2 = solved).
  { unfold is_puzzle_complete, solved, Validator.is_complete.
    rewrite Hv', Hmoves', Hindex', Hmoves, Hindex.
    unfold puzzle_solution_moves, Py.slice_from_1.
    pose proof (ValidatorMore.accepted_nonneg results) as Hnn.
    destruct (Z.leb_spec (Py.len (tl (moves p))) (2 * Session.accepted results));
      [apply Z.leb_le|apply Z.leb_gt]; lia. }
  assert (Hcur : current_puzzle E W s2 = Some p) by congruence.
  unfold s3. rewrite !(finish_puzzle_some _ s2 p Hcur). cbn [snd entries].
  rewrite Hcomplete, He2, He1, Ha2, Ha1.
  split; [reflexivity|]. split; [|split; [|reflexivity]].
  - eexists. split; [reflexivity|]. cbn. repeat split; apply level_in_range.
  - unfold Tracker.record_attempt.
    rewrite TrackerFacts.current_streak_snoc. cbn [Tracker.e_solved].
    destruct solved.
    + split; [reflexivity|]. rewrite has_solved_snoc. cbn.
      rewrite String.eqb_refl. apply orb_true_r.
    + split; [reflexivity|]. intros id. rewrite has_solved_snoc. cbn.
      now rewrite andb_false_r, orb_false_r.
Qed.

(** The other methods, whatever they return. *)
Lemma start_puzzle_any rand d ph th tc (self : PM) :
  let self' := snd (start_puzzle E W rand d ph th tc self) in
  self' = self \/
  (current_puzzle E W self' <> None /\
   db E W self' = db E W self /\ entries E W self' = entries E W self /\
   (move_attempts E W self' = move_attempts E W self \/ move_attempts E W self' = 0) /\
   (hints_used E W self' = hints_used E W self \/ hints_used E W self' = 0)).
Proof.
  cbv zeta. unfold start_puzzle.
  destruct (Selector.select_puzzle rand (db E W self) d ph
              (Tracker.get_solved_puzzle_ids (entries E W self)) th) as [q|e];
    [|now left].
  right. destruct (Validator.__init__ E q) as [v|e].
  - match goal with
    | |- context [renew_hint_system E W v ?s] =>
        pose proof (renew_hint_system_same v s) as Hr;
        destruct (renew_hint_system E W v s) as [[u|e] s1]
    end; unfold same_puzzle_state in Hr; cbn in Hr;
      destruct Hr as (R1 & R2 & R3 & R4 & R5 & R6); cbn [snd].
    + pose proof (configure_timer_same tc s1) as Hc.
      unfold same_puzzle_state in Hc.
      destruct Hc as (C1 & C2 & C3 & C4 & C5 & C6).
      rewrite C1, C2, C3, C5, C6, R1, R2, R3, R5, R6.
      repeat split; try tauto. discriminate.
    + rewrite R1, R2, R3, R5, R6. repeat split; try tauto. discriminate.
  - cbn. repeat split; try tauto. discriminate.
Qed.

Lemma get_hint_any (self : PM) :
  let self' := snd (get_hint E H W self) in
  self' = self \/
  (hint_system E W self <> None /\
   db E W self' = db E W self /\ entries E W self' = entries E W self /\
   current_puzzle E W self' = current_puzzle E W self /\
   move_validator E W self' = move_validator E W self /\
   hint_system E W self' <> None /\ timer E W self' = timer E W self /\
   move_attempts E W self' = move_attempts E W self /\
   hints_used E W self' = hints_used E W self + 1).
Proof.
  cbv zeta. unfold get_hint.
  destruct (hint_system E W self) as [h|] eqn:Hh; [|now left].
  right. destruct (Hints.get_next_hint E H h) as [[hint|e] h']; cbn;
    repeat split; discriminate.
Qed.

(** X24: invariants of the manager. In every state that a manager built
    on a store and a history reaches by its methods, whatever they return
    or raise: the store is the same; the history is the first one with
    entries added at the end, each with a level from 1 to 5 and counts of
    attempts and hints that are not negative; the counters are not
    negative; and without a current puzzle there is no validator, hint
    system or timer and both counters are 0. *)
Theorem manager_invariants (db0 : Sql.Database) (entries0 : list Entry) (self : PM) :
  reachable E H W db0 entries0 self ->
  db E W self = db0 /\
  (exists recorded,
     entries E W self = (entries0 ++ recorded)%list /\
     forall e, In e recorded ->
       1 <= Tracker.e_difficulty e <= 5 /\
       0 <= Tracker.e_attempts e /\ 0 <= Tracker.e_hints_used e) /\
  0 <= move_attempts E W self /\
  0 <= hints_used E W self /\
  (current_puzzle E W self = None ->
   move_validator E W self = None /\ hint_system E W self = None /\
   timer E W self = None /\
   move_attempts E W self = 0 /\ hints_used E W self = 0).
Proof.
  induction 1 as [|rand d ph th tc self Hreach IH|input self Hreach IH
                  |self Hreach IH|q self Hreach IH].
  - cbn. split; [reflexivity|]. split; [|repeat split; lia].
    exists []. split; [now rewrite app_nil_r|]. intros e [].
  - destruct IH as (I1 & I2 & I3 & I4 & I5).
    destruct (start_puzzle_any rand d ph th tc self)
      as [->|(S0 & S1 & S2 & S3 & S4)]; [tauto|].
    rewrite S1, S2. split; [exact I1|]. split; [exact I2|].
    split; [lia|]. split; [lia|]. intros Hn. contradiction.
  - destruct IH as (I1 & I2 & I3 & I4 & I5).
    destruct (move_validator E W self) as [v|] eqn:Hv.
    + destruct (validate_move_active input self v Hv)
        as (A1 & A2 & A3 & A4 & A5 & A6 & _).
      rewrite A1, A2, A3, A4, A5, A6. split; [exact I1|]. split; [exact I2|].
      split; [lia|]. split; [exact I4|].
      intros Hn. destruct (I5 Hn) as (Hc & _). discriminate.
    + rewrite (validate_move_inactive input self Hv). cbn [snd].
      rewrite Hv. tauto.
  - destruct IH as (I1 & I2 & I3 & I4 & I5).
    destruct (get_hint_any self)
      as [->|(G0 & G1 & G2 & G3 & G4 & G5 & G6 & G7 & G8)]; [tauto|].
    rewrite G1, G2, G3, G7, G8. split; [exact I1|]. split; [exact I2|].
    split; [exact I3|]. split; [lia|].
    intros Hn. destruct (I5 Hn) as (_ & Hc & _). contradiction.
  - destruct IH as (I1 & (recorded & I2 & I2') & I3 & I4 & I5).
    destruct (current_puzzle E W self) as [p|] eqn:Hp.
    + rewrite (finish_puzzle_some q self p Hp). cbn.
      split; [exact I1|].
      split; [|split; [lia|split; [lia|intros _; repeat split]]].
      destruct q.
      * exists recorded. now split.
      * exists (recorded ++
                [{| Tracker.e_puzzle_id := puzzle_id p;
                    Tracker.e_solved := is_puzzle_complete E W self;
                    Tracker.e_attempts := move_attempts E W self;
                    Tracker.e_time_taken := fst (time_taken E W self);
                    Tracker.e_difficulty := _rating_to_difficulty (rating p);
                    Tracker.e_timestamp := now W (snd (time_taken E W self));
                    Tracker.e_hints_used := hints_used E W self |}])%list.
        split.
        -- unfold Tracker.record_attempt. now rewrite I2, app_assoc.
        -- intros e He. apply in_app_iff in He as [He|[<-|[]]]; [now apply I2'|].
           cbn. repeat split; try apply level_in_range; assumption.
    + unfold finish_puzzle. rewrite Hp. cbn [snd]. rewrite Hp.
      split; [exact I1|]. split; [now exists recorded|]. tauto.
Qed.

(** X30: the hint follows the puzzle. After a submission that the
    manager answers, the validator is the one the submission left behind.
    A rejected submission, and an accepted one that completes the puzzle,
    leave the hint system alone; after an accepted submission with a move
    still pending the hint system is a new one, at level 0, for the
    pending solution move on the validator's board. *)
Theorem hints_follow_the_puzzle
    (user_input : string) (self self' : PM) (v : Validator.MoveValidator E)
    (is_correct : bool) (message : string) :
  move_validator E W self = Some v ->
  validate_move E W user_input self = (Returns (is_correct, message), self') ->
  let v' := snd (Validator.validate_move E user_input v) in
  move_validator E W self' = Some v' /\
  (is_correct = false -> hint_system E W self' = hint_system E W self) /\
  (Validator.is_complete E v' = true ->
   hint_system E W self' = hint_system E W self) /\
  (is_correct = true -> Validator.is_complete E v' = false ->
   forall uci,
     Validator.get_current_solution_move E v' = Returns (Some uci) ->
     uci <> "" ->
     exists move,
       from_uci E uci = Some move /\
       hint_system E W self'
         = Some {| Hints.board := Validator.board E v';
                   Hints.solution_move := move;
                   Hints.current_level := 0 |}).
Proof.
  intros Hv Hrun. cbv zeta. unfold validate_move in Hrun. rewrite Hv in Hrun.
  destruct (Validator.validate_move E user_input v) as [[[ok msg]|e] v1];
    [|discriminate].
  cbn [snd].
  destruct ok; cbn [andb] in Hrun.
  - destruct (Validator.is_complete E v1) eqn:Hc; cbn [negb] in Hrun.
    + injection Hrun as <- <- <-. cbn. repeat split; congruence.
    + unfold renew_hint_system in Hrun.
      destruct (Validator.get_current_solution_move E v1) as [[u|]|e] eqn:Hg.
      * destruct (Py.truthy (Some u)) eqn:Htruthy.
        -- unfold Hints.__init__ in Hrun.
           destruct (from_uci E u) as [m|] eqn:Hm; [|discriminate].
           injection Hrun as <- <- <-. cbn.
           split; [reflexivity|]. split; [discriminate|]. split; [discriminate|].
           intros _ _ uci Huci _. injection Huci as <-. exists m. now split.
        -- injection Hrun as <- <- <-. cbn.
           split; [reflexivity|]. split; [discriminate|]. split; [discriminate|].
           intros _ _ uci Huci Hne. injection Huci as <-. exfalso.
           cbn in Htruthy. apply negb_false_iff, String.eqb_eq in Htruthy.
           contradiction.
      * injection Hrun as <- <- <-. cbn.
        split; [reflexivity|]. split; [discriminate|]. split; [discriminate|].
        intros _ _ uci Huci. discriminate.
      * discriminate.
  - injection Hrun as <- <- <-. cbn. repeat split; try reflexivity. discriminate.
Qed.

End WithEngine.

(** *** On the example session *)

Abbreviation ME := MiniChess.engine.
Abbreviation MW := Wall.world.

Lemma started_validator :
  Manager.move_validator ME MW Desk.started = Some (Examples.built Desk.puzzle_a).
Proof. reflexivity. Qed.

Lemma submissions_are_attempts_witness :
  Manager.move_attempts ME MW Desk.answered
    = Manager.move_attempts ME MW Desk.started + Py.len ["d5"; "e5"] /\
  (exists v', Manager.move_validator ME MW Desk.answered = Some v' /\
              Session.submit_all ME ["d5"; "e5"] (Examples.built Desk.puzzle_a)
                = (Returns [(false, Validator.msg_incorrect);
                            (true, Validator.msg_solved)], v')) /\
  Manager.entries ME MW Desk.answered = Manager.entries ME MW Desk.started /\
  Manager.current_puzzle ME MW Desk.answered
    = Manager.current_puzzle ME MW Desk.started.
Proof.
  apply (proj1 (submissions_are_attempts ME MW ["d5"; "e5"] Desk.started)).
  - exact started_validator.
  - reflexivity.
Defined.

Lemma finish_puzzle_records_witness :
  Manager.move_validator ME MW
    (snd (Manager.finish_puzzle ME MW false Desk.answered)) = None.
Proof.
  apply (proj2 (finish_puzzle_records ME MW false Desk.answered) Desk.puzzle_a).
  reflexivity.
Defined.

Lemma start_puzzle_prefers_unsolved_witness :
  (exists row,
     In row (Selector.matching (Manager.db ME MW Desk.fresh)
               [Selector.RatingBetween 1200 1600]) /\
     Desk.puzzle_a = Selector._row_to_puzzle (Manager.db ME MW Desk.fresh) row) /\
  Tracker.has_solved_puzzle (Manager.entries ME MW Desk.fresh)
    (puzzle_id Desk.puzzle_a) = false.
Proof.
  apply (start_puzzle_prefers_unsolved ME MW Examples.draw0 2 None None None
           Desk.fresh Desk.started).
  - reflexivity.
  - vm_compute. discriminate.
  - reflexivity.
Defined.

Lemma session_is_recorded_witness :
  Manager.is_puzzle_complete ME MW Desk.answered = true /\
  Manager.entries ME MW (snd (Manager.finish_puzzle ME MW true Desk.answered)) = [].
Proof.
  pose proof (session_is_recorded ME MW Examples.draw0 2 None None None
                Desk.fresh Desk.started Desk.answered Desk.puzzle_a
                ["d5"; "e5"]
                [(false, Validator.msg_incorrect); (true, Validator.msg_solved)]
                eq_refl eq_refl) as Hs.
  cbv zeta in Hs. destruct Hs as (Hc & _ & _ & Hq).
  split; [exact Hc|exact Hq].
Defined.

Lemma manager_invariants_witness :
  Manager.db ME MW Desk.started = Examples.db_three /\
  0 <= Manager.move_attempts ME MW Desk.started.
Proof.
  destruct (manager_invariants ME MiniHints.engine MW Examples.db_three []
              Desk.started) as (Hd & _ & Ha & _).
  - apply Manager.reach_start, Manager.reach_init.
  - split; assumption.
Defined.

Lemma hints_follow_the_puzzle_witness :
  exists move,
    from_uci ME "b8c6" = Some move /\
    Manager.hint_system ME MW (snd (Manager.validate_move ME MW "e5" Desk.at_four))
      = Some {| Hints.board :=
                  Validator.board ME
                    (snd (Validator.validate_move ME "e5"
                            (Examples.built Examples.four_moves)));
                Hints.solution_move := move;
                Hints.current_level := 0 |}.
Proof.
  destruct (hints_follow_the_puzzle ME MW "e5" Desk.at_four
              (snd (Manager.validate_move ME MW "e5" Desk.at_four))
              (Examples.built Examples.four_moves) true Validator.msg_continue)
    as (_ & _ & _ & Hh).
  - reflexivity.
  - reflexivity.
  - apply (Hh eq_refl eq_refl "b8c6"); [reflexivity|discriminate].
Defined.

End ManagerFacts.


(** ** The importer *)

Module LoaderFacts.

Import Loader.

(** *** Splitting what was joined *)

Lemma append_nil_r (s : string) : s ++ "" = s.
Proof. induction s as [|c s IH]; [reflexivity|]. simpl. now rewrite IH. Qed.

Lemma append_assoc (a b c : string) : (a ++ b) ++ c = a ++ (b ++ c).
Proof. induction a as [|x a IH]; [reflexivity|]. simpl. now rewrite IH. Qed.

Lemma append_empty (a b : string) : a ++ b = "" -> a = "" /\ b = "".
Proof. destruct a; [now split|discriminate]. Qed.

Lemma no_space_app (a b : string) :
  no_space (a ++ b) = no_space a && no_space b.
Proof.
  induction a as [|c a IH]; [reflexivity|]. simpl. rewrite IH.
  now rewrite andb_assoc.
Qed.

Lemma is_word_inv (w : string) : is_word w = true -> w <> "" /\ no_space w = true.
Proof.
  unfold is_word. intros Hw. apply andb_true_iff in Hw as [Hn Hs].
  split; [|exact Hs]. intros ->. discriminate.
Qed.

Lemma is_word_intro (w : string) : w <> "" -> no_space w = true -> is_word w = true.
Proof.
  intros Hn Hs. unfold is_word. rewrite Hs.
  destruct (String.eqb_spec w ""); [contradiction|reflexivity].
Qed.

(** The pieces [split()] gives are words. *)
Lemma split_ws_aux_words (s cur : string) (w : string) :
  no_space cur = true -> In w (PyStr.split_ws_aux s cur) -> is_word w = true.
Proof.
  revert cur. induction s as [|c s IH]; intros cur Hcur Hin; simpl in Hin.
  - destruct (String.eqb_spec cur ""); [contradiction|].
    destruct Hin as [<-|[]]. now apply is_word_intro.
  - destruct (Py.is_space c) eqn:Hc.
    + destruct (String.eqb_spec cur "").
      * now apply (IH "").
      * destruct Hin as [<-|Hin]; [now apply is_word_intro|now apply (IH "")].
    + apply (IH (cur ++ String c "")); [|exact Hin].
      rewrite no_space_app, Hcur. simpl. now rewrite Hc.
Qed.

Lemma split_ws_words (s w : string) : In w (PyStr.split_ws s) -> is_word w = true.
Proof. now apply split_ws_aux_words. Qed.

Lemma split_ws_aux_app (w s cur : string) :
  no_space w = true ->
  PyStr.split_ws_aux (w ++ s) cur = PyStr.split_ws_aux s (cur ++ w).
Proof.
  revert cur. induction w as [|c w IH]; intros cur Hw.
  - now rewrite append_nil_r.
  - simpl in Hw. apply andb_true_iff in Hw as [Hc Hw].
    apply negb_true_iff in Hc. simpl. rewrite Hc, (IH _ Hw), append_assoc.
    reflexivity.
Qed.

(** [' '.join(words).split()] gives the words back. *)
Lemma split_ws_join (ws : list string) :
  (forall w, In w ws -> is_word w = true) ->
  PyStr.split_ws (join " " ws) = ws.
Proof.
  unfold PyStr.split_ws. induction ws as [|w ws IH]; intros Hws; [reflexivity|].
  destruct (is_word_inv w (Hws w (or_introl eq_refl))) as [Hne Hsp].
  assert (Hrest : forall x, In x ws -> is_word x = true)
    by (intros x Hx; apply Hws; now right).
  destruct ws as [|w2 ws].
  - simpl. rewrite <- (append_nil_r w) at 1.
    rewrite (split_ws_aux_app w "" "" Hsp). simpl.
    destruct (String.eqb_spec w ""); [contradiction|reflexivity].
  - change (join " " (w :: w2 :: ws)) with (w ++ " " ++ join " " (w2 :: ws)).
    rewrite (split_ws_aux_app w _ "" Hsp).
    change ("" ++ w) with w.
    change (" " ++ join " " (w2 :: ws)) with (String " " (join " " (w2 :: ws))).
    cbn [PyStr.split_ws_aux].
    change (Py.is_space " ") with true. cbn iota.
    destruct (String.eqb_spec w ""); [contradiction|].
    now rewrite (IH Hrest).
Qed.

Lemma free_of_app (c : ascii) (a b : string) :
  free_of c (a ++ b) = free_of c a && free_of c b.
Proof.
  induction a as [|x a IH]; [reflexivity|]. simpl. rewrite IH.
  now rewrite andb_assoc.
Qed.

Lemma split_on_free (c : ascii) (w : string) :
  free_of c w = true -> PyStr.split_on c w = [w].
Proof.
  induction w as [|x w IH]; intros Hw; [reflexivity|].
  simpl in Hw. apply andb_true_iff in Hw as [Hx Hw].
  apply negb_true_iff in Hx. simpl. rewrite Hx, (IH Hw). reflexivity.
Qed.

Lemma split_on_app (c : ascii) (w s : string) :
  free_of c w = true ->
  PyStr.split_on c (w ++ String c s) = w :: PyStr.split_on c s.
Proof.
  induction w as [|x w IH]; intros Hw.
  - simpl. now rewrite Ascii.eqb_refl.
  - simpl in Hw. apply andb_true_iff in Hw as [Hx Hw].
    apply negb_true_iff in Hx. simpl. rewrite Hx, (IH Hw). reflexivity.
Qed.

(** [','.join(tags).split(',')] gives the tags back when there is a tag
    and no tag holds a comma. *)
Lemma split_on_join (ws : list string) :
  ws <> [] ->
  (forall w, In w ws -> free_of "," w = true) ->
  PyStr.split_on "," (join "," ws) = ws.
Proof.
  induction ws as [|w ws IH]; intros Hne Hws; [contradiction|].
  assert (Hw : free_of "," w = true) by (apply Hws; now left).
  destruct ws as [|w2 ws].
  - simpl. now apply split_on_free.
  - change (join "," (w :: w2 :: ws)) with (w ++ String "," (join "," (w2 :: ws))).
    rewrite (split_on_app "," w _ Hw). f_equal. apply IH; [discriminate|].
    intros x Hx. apply Hws. now right.
Qed.

Lemma join_empty (sep : string) (ws : list string) :
  (forall w, In w ws -> w <> "") -> join sep ws = "" -> ws = [].
Proof.
  destruct ws as [|w ws]; [reflexivity|]. intros Hws Hj. exfalso.
  apply (Hws w (or_introl eq_refl)).
  destruct ws as [|w2 ws]; [exact Hj|].
  change (join sep (w :: w2 :: ws)) with (w ++ sep ++ join sep (w2 :: ws)) in Hj.
  now apply append_empty in Hj.
Qed.

Lemma words_are_words (field : option string) (w : string) :
  In w (words field) -> is_word w = true.
Proof.
  unfold words. destruct field as [text|]; [|intros []].
  destruct (Py.truthy (Some text)); [apply split_ws_words|intros []].
Qed.

Section WithEngine.

Context (E : ChessEngine).
Context (piece_map_len : Board E -> Z).
Context (int : string -> option Z).

(** What a row that [_transform_row] accepts has become. *)
Lemma transform_row_returns (row : CsvRow) (r : Sql.puzzle_row) (ths : list string) :
  _transform_row E piece_map_len int row = Returns (r, ths) ->
  exists board rating rating_deviation popularity nb_plays,
    Board_of_fen E (FEN row) = Some board /\
    PyStr.split_ws (Moves row) <> [] /\
    int (Rating row) = Some rating /\
    int (RatingDeviation row) = Some rating_deviation /\
    int (Popularity row) = Some popularity /\
    int (NbPlays row) = Some nb_plays /\
    ths = words (Themes row) /\
    r = {| Sql.c_puzzle_id := PuzzleId row;
           Sql.c_fen := FEN row;
           Sql.c_moves := join " " (PyStr.split_ws (Moves row));
           Sql.c_rating := rating;
           Sql.c_rating_deviation := rating_deviation;
           Sql.c_popularity := popularity;
           Sql.c_nb_plays := nb_plays;
           Sql.c_game_url := GameUrl row;
           Sql.c_opening_tags := join "," (words (OpeningTags row));
           Sql.c_piece_count := piece_map_len board |}.
Proof.
  unfold _transform_row.
  destruct (Board_of_fen E (FEN row)) as [board|]; [|discriminate].
  destruct (PyStr.split_ws (Moves row)) as [|m ms] eqn:Hm; [discriminate|].
  destruct (int (Rating row)) as [a|]; [|discriminate].
  destruct (int (RatingDeviation row)) as [b|]; [|discriminate].
  destruct (int (Popularity row)) as [c|]; [|discriminate].
  destruct (int (NbPlays row)) as [d|]; [|discriminate].
  intros Heq. injection Heq as <- <-.
  exists board, a, b, c, d. repeat split; discriminate.
Qed.

(** X25: what the importer writes, the selector reads back. For a CSV
    row that [_transform_row] accepts, the puzzle that [_row_to_puzzle]
    makes of the stored row has the id and the position of the CSV row,
    the whitespace-separated moves of its [Moves] field, of which there is
    at least one, the integer values of its rating fields and, when no
    opening tag holds a comma, the whitespace-separated opening tags. Its
    position parses and its first move exists, so constructing a validator
    for it succeeds as soon as the first move is well-formed and can be
    pushed. *)
Theorem imported_row_reads_back
    (db : Sql.Database) (row : CsvRow) (r : Sql.puzzle_row) (ths : list string) :
  _transform_row E piece_map_len int row = Returns (r, ths) ->
  let p := Selector._row_to_puzzle db r in
  puzzle_id p = PuzzleId row /\
  fen p = FEN row /\
  moves p = PyStr.split_ws (Moves row) /\
  moves p <> [] /\
  int (Rating row) = Some (rating p) /\
  int (RatingDeviation row) = Some (rating_deviation p) /\
  int (Popularity row) = Some (popularity p) /\
  int (NbPlays row) = Some (nb_plays p) /\
  ths = words (Themes row) /\
  ((forall tag, In tag (words (OpeningTags row)) -> free_of "," tag = true) ->
   opening_tags p = words (OpeningTags row)) /\
  exists board first_move,
    Board_of_fen E (fen p) = Some board /\
    piece_count p = piece_map_len board /\
    Py.index (moves p) 0 = Some first_move /\
    forall move, from_uci E first_move = Some move ->
                 push_ok E board move = true ->
                 exists v, Validator.__init__ E p = Returns v.
Proof.
  intros Ht p.
  destruct (transform_row_returns row r ths Ht)
    as (board & a & b & c & d & Hb & Hm & Ha & Hbb & Hc & Hd & Hths & Hr).
  assert (Hid : puzzle_id p = PuzzleId row) by (unfold p; rewrite Hr; reflexivity).
  assert (Hfen : fen p = FEN row) by (unfold p; rewrite Hr; reflexivity).
  assert (Hrating : rating p = a) by (unfold p; rewrite Hr; reflexivity).
  assert (Hdev : rating_deviation p = b) by (unfold p; rewrite Hr; reflexivity).
  assert (Hpop : popularity p = c) by (unfold p; rewrite Hr; reflexivity).
  assert (Hnb : nb_plays p = d) by (unfold p; rewrite Hr; reflexivity).
  assert (Hpc : piece_count p = piece_map_len board)
    by (unfold p; rewrite Hr; reflexivity).
  assert (Hmoves : moves p = PyStr.split_ws (Moves row)).
  { unfold p. rewrite Hr. cbn [moves Selector._row_to_puzzle Sql.c_moves].
    apply split_ws_join. intros w. apply split_ws_words. }
  assert (Htags : (forall tag, In tag (words (OpeningTags row)) ->
                               free_of "," tag = true) ->
                  opening_tags p = words (OpeningTags row)).
  { intros Hfree. unfold p. rewrite Hr.
    cbn [opening_tags Selector._row_to_puzzle Sql.c_opening_tags].
    destruct (String.eqb_spec (join "," (words (OpeningTags row))) "") as [He|He].
    - symmetry. apply (join_empty "," _); [|exact He].
      intros w Hw. apply words_are_words in Hw. now apply is_word_inv in Hw.
    - apply split_on_join; [|exact Hfree]. intros Hnil. rewrite Hnil in He.
      now apply He. }
  rewrite Hid, Hfen, Hmoves, Hrating, Hdev, Hpop, Hnb.
  do 9 (split; [first [reflexivity | assumption]|]).
  split; [exact Htags|].
  destruct (PyStr.split_ws (Moves row)) as [|m0 ms] eqn:Hsplit; [contradiction|].
  exists board, m0. split; [exact Hb|]. split; [exact Hpc|].
  split; [apply index_cons_0|].
  intros move Hmove Hpush.
  unfold Validator.__init__, Validator._setup_board.
  rewrite Hfen, Hb, Hmoves, index_cons_0, Hmove, Hpush. eexists. reflexivity.
Qed.

End WithEngine.

(** *** On the example file *)

Lemma imported_row_reads_back_witness :
  moves (Selector._row_to_puzzle Store.empty Csv.stored_p1) = ["e2e4"; "e7e5"] /\
  opening_tags (Selector._row_to_puzzle Store.empty Csv.stored_p1)
    = ["Kings_Pawn_Game"; "Kings_Pawn_Game_Leonardis"].
Proof.
  pose proof (imported_row_reads_back MiniChess.engine Csv.piece_map_len Csv.decimal
                Store.empty (Csv.csv_row "p1" "e2e4 e7e5" "1500" "fork short")
                Csv.stored_p1 ["fork"; "short"]) as Hw.
  cbv zeta in Hw.
  destruct Hw as (_ & _ & Hm & _ & _ & _ & _ & _ & _ & Ht & _).
  - vm_compute. reflexivity.
  - split; [rewrite Hm; vm_compute; reflexivity|].
    rewrite Ht; [vm_compute; reflexivity|].
    intros tag Htag. vm_compute in Htag.
    destruct Htag as [<-|[<-|[]]]; reflexivity.
Defined.

End LoaderFacts.


(** ** The importer's writes *)

Module StoreFacts.

Import Sql Store.

Local Open Scope list_scope.

Lemma find_app {A} (f : A -> bool) (l l' : list A) :
  find f (l ++ l') = match find f l with Some x => Some x | None => find f l' end.
Proof.
  induction l as [|x l IH]; [reflexivity|]. simpl.
  destruct (f x); [reflexivity|exact IH].
Qed.



Lemma NoDup_snoc {A} (l : list A) (x : A) :
  NoDup l -> ~ In x l -> NoDup (l ++ [x]).
Proof.
  intros Hl Hx. apply NoDup_app; [exact Hl| |].
  - constructor; [intros []|constructor].
  - intros a Ha [<-|[]]. contradiction.
Qed.






Lemma max_id_ge (l : list Z) (i : Z) : In i l -> i <= fold_right Z.max 0 l.
Proof.
  induction l as [|x l IH]; intros Hin; [contradiction|]. simpl.
  destruct Hin as [->|Hin]; [lia|]. specialize (IH Hin). lia.
Qed.

Lemma insert_theme_spec (name : string) (db : Database) :
  tbl_puzzles (snd (insert_theme name db)) = tbl_puzzles db /\
  tbl_puzzle_themes (snd (insert_theme name db)) = tbl_puzzle_themes db /\
  In (fst (insert_theme name db), name) (tbl_themes (snd (insert_theme name db))) /\
  (tbl_themes (snd (insert_theme name db)) = tbl_themes db \/
   tbl_themes (snd (insert_theme name db))
     = tbl_themes db ++ [(fst (insert_theme name db), name)] /\
   ~ In (fst (insert_theme name db)) (map fst (tbl_themes db)) /\
   ~ In name (map snd (tbl_themes db))).
Proof.
  unfold insert_theme, get_theme_id.
  destruct (find (fun t => String.eqb (snd t) name) (tbl_themes db))
    as [[i n]|] eqn:Hf;
    cbn [option_map fst snd tbl_puzzles tbl_themes tbl_puzzle_themes].
  - apply find_some in Hf as [Hin Heq]. cbn in Heq.
    apply String.eqb_eq in Heq. subst n.
    split; [reflexivity|]. split; [reflexivity|]. split; [exact Hin|now left].
  - pose proof (find_none _ _ Hf) as Hnone.
    split; [reflexivity|]. split; [reflexivity|].
    split; [apply in_app_iff; right; now left|].
    right. split; [reflexivity|]. split.
    + intros Hin. apply max_id_ge in Hin. unfold next_theme_id in Hin. lia.
    + intros Hin. apply in_map_iff in Hin as ([i n] & Hn & Hin). cbn in Hn.
      subst n. specialize (Hnone _ Hin). cbn in Hnone.
      rewrite String.eqb_refl in Hnone. discriminate.
Qed.

Lemma insert_link_spec (pid : string) (tid : Z) (db : Database) :
  tbl_puzzles (insert_link pid tid db) = tbl_puzzles db /\
  tbl_themes (insert_link pid tid db) = tbl_themes db /\
  (tbl_puzzle_themes (insert_link pid tid db) = tbl_puzzle_themes db /\
   In (pid, tid) (tbl_puzzle_themes db) \/
   tbl_puzzle_themes (insert_link pid tid db)
     = tbl_puzzle_themes db ++ [(pid, tid)] /\
   ~ In (pid, tid) (tbl_puzzle_themes db)).
Proof.
  unfold insert_link.
  destruct (existsb _ (tbl_puzzle_themes db)) eqn:Hex;
    cbn [tbl_puzzles tbl_themes tbl_puzzle_themes];
    (split; [reflexivity|]); (split; [reflexivity|]).
  - left. split; [reflexivity|].
    apply existsb_exists in Hex as ([p i] & Hin & Heq). cbn in Heq.
    apply andb_true_iff in Heq as [Hp Hi].
    apply String.eqb_eq in Hp. apply Z.eqb_eq in Hi. now subst.
  - right. split; [reflexivity|]. intros Hin.
    assert (Ht : existsb (fun pt => String.eqb (fst pt) pid && (snd pt =? tid))
                         (tbl_puzzle_themes db) = true); [|congruence].
    apply existsb_exists. exists (pid, tid). split; [exact Hin|]. cbn.
    now rewrite String.eqb_refl, Z.eqb_refl.
Qed.

Lemma insert_puzzle_spec (row : puzzle_row) (db : Database) :
  tbl_themes (insert_puzzle row db) = tbl_themes db /\
  tbl_puzzle_themes (insert_puzzle row db) = tbl_puzzle_themes db /\
  (tbl_puzzles (insert_puzzle row db) = tbl_puzzles db /\
   In (c_puzzle_id row) (map c_puzzle_id (tbl_puzzles db)) \/
   tbl_puzzles (insert_puzzle row db) = tbl_puzzles db ++ [row] /\
   ~ In (c_puzzle_id row) (map c_puzzle_id (tbl_puzzles db))).
Proof.
  unfold insert_puzzle.
  destruct (existsb _ (tbl_puzzles db)) eqn:Hex;
    cbn [tbl_puzzles tbl_themes tbl_puzzle_themes];
    (split; [reflexivity|]); (split; [reflexivity|]).
  - left. split; [reflexivity|].
    apply existsb_exists in Hex as (r & Hin & Heq). apply String.eqb_eq in Heq.
    apply in_map_iff. exists r. now split.
  - right. split; [reflexivity|]. intros Hin.
    apply in_map_iff in Hin as (r & Hid & Hin).
    assert (Ht : existsb (fun r => String.eqb (c_puzzle_id r) (c_puzzle_id row))
                         (tbl_puzzles db) = true); [|congruence].
    apply existsb_exists. exists r. split; [exact Hin|]. now apply String.eqb_eq.
Qed.

Lemma insert_puzzle_well_formed (row : puzzle_row) (db : Database) :
  well_formed db ->
  well_formed (insert_puzzle row db) /\
  In (c_puzzle_id row) (map c_puzzle_id (tbl_puzzles (insert_puzzle row db))).
Proof.
  intros (W1 & W2 & W3 & W4 & W5).
  destruct (insert_puzzle_spec row db) as (Ht & Hl & [[Hp Hin]|[Hp Hnin]]);
    unfold well_formed; rewrite Ht, Hl, Hp.
  - split; [|exact Hin]. split; [exact W1|]. split; [exact W2|].
    split; [exact W3|]. split; [exact W4|exact W5].
  - rewrite map_app. cbn [map]. split.
    + split; [now apply NoDup_snoc|]. split; [exact W2|]. split; [exact W3|].
      split; [exact W4|]. intros p t Hpt. destruct (W5 p t Hpt) as [A B].
      split; [apply in_app_iff; now left|exact B].
    + apply in_app_iff. right. now left.
Qed.

(** One turn of the loop over the themes. *)
Lemma theme_step_spec (pid theme : string) (db : Database) :
  well_formed db ->
  In pid (map c_puzzle_id (tbl_puzzles db)) ->
  let tid := fst (insert_theme theme db) in
  let db' := insert_link pid tid (snd (insert_theme theme db)) in
  well_formed db' /\
  tbl_puzzles db' = tbl_puzzles db /\
  In (tid, theme) (tbl_themes db') /\
  In (pid, tid) (tbl_puzzle_themes db') /\
  exists ts ls,
    tbl_themes db' = tbl_themes db ++ ts /\
    tbl_puzzle_themes db' = tbl_puzzle_themes db ++ ls /\
    forall l, In l ls -> l = (pid, tid).
Proof.
  intros (W1 & W2 & W3 & W4 & W5) Hpid tid db'.
  destruct (insert_theme_spec theme db) as (Tp & Tl & Tin & Tt).
  destruct (insert_link_spec pid tid (snd (insert_theme theme db)))
    as (Lp & Lt & Ll).
  fold tid in Tin, Tt. fold db' in Lp, Lt, Ll.
  rewrite Tp in Lp. rewrite Tl in Ll.
  assert (Hthemes : exists ts, tbl_themes db' = tbl_themes db ++ ts /\
                               NoDup (map fst (tbl_themes db')) /\
                               NoDup (map snd (tbl_themes db'))).
  { rewrite Lt. destruct Tt as [Tt|(Tt & Hi & Hn)]; rewrite Tt.
    - exists []. now rewrite app_nil_r.
    - exists [(tid, theme)]. split; [reflexivity|].
      rewrite !map_app. cbn [map fst snd]. split; now apply NoDup_snoc. }
  destruct Hthemes as (ts & Hts & N1 & N2).
  assert (Hlinks : exists ls, tbl_puzzle_themes db' = tbl_puzzle_themes db ++ ls /\
                              NoDup (tbl_puzzle_themes db') /\
                              In (pid, tid) (tbl_puzzle_themes db') /\
                              forall l, In l ls -> l = (pid, tid)).
  { destruct Ll as [[Ll Hin]|[Ll Hnin]]; rewrite Ll.
    - exists []. rewrite app_nil_r. repeat split; try assumption. intros l [].
    - exists [(pid, tid)]. split; [reflexivity|].
      split; [now apply NoDup_snoc|]. split; [apply in_app_iff; right; now left|].
      intros l [<-|[]]. reflexivity. }
  destruct Hlinks as (ls & Hls & N3 & Hlink & Hnew).
  assert (Htin : In (tid, theme) (tbl_themes db')) by (now rewrite Lt).
  split; [|split; [exact Lp|split; [exact Htin|split; [exact Hlink|]]]].
  - unfold well_formed. rewrite Lp. split; [exact W1|]. split; [exact N1|].
    split; [exact N2|]. split; [exact N3|].
    intros p t Hpt. rewrite Hls in Hpt. apply in_app_iff in Hpt as [Hpt|Hpt].
    + destruct (W5 p t Hpt) as [A B]. split; [exact A|].
      rewrite Hts, map_app. apply in_app_iff. now left.
    + apply Hnew in Hpt. injection Hpt as -> ->. split; [exact Hpid|].
      apply in_map_iff. exists (tid, theme). now split.
  - exists ts, ls. split; [exact Hts|]. split; [exact Hls|exact Hnew].
Qed.

Lemma insert_themes_cons (pid theme : string) (ths : list string) (db : Database) :
  Loader.insert_themes pid (theme :: ths) db =
  Loader.insert_themes pid ths
    (insert_link pid (fst (insert_theme theme db)) (snd (insert_theme theme db))).
Proof.
  unfold Loader.insert_themes. cbn [fold_left].
  destruct (insert_theme theme db). reflexivity.
Qed.

(** The loop over the themes of a stored puzzle. *)
Lemma insert_themes_spec (pid : string) (ths : list string) :
  forall db,
    well_formed db ->
    In pid (map c_puzzle_id (tbl_puzzles db)) ->
    well_formed (Loader.insert_themes pid ths db) /\
    tbl_puzzles (Loader.insert_themes pid ths db) = tbl_puzzles db /\
    exists ts ls,
      tbl_themes (Loader.insert_themes pid ths db) = tbl_themes db ++ ts /\
      tbl_puzzle_themes (Loader.insert_themes pid ths db)
        = tbl_puzzle_themes db ++ ls /\
      (forall l, In l ls ->
         fst l = pid /\
         exists name, In name ths /\
                      In (snd l, name) (tbl_themes (Loader.insert_themes pid ths db))) /\
      (forall name, In name ths ->
         exists tid,
           In (tid, name) (tbl_themes (Loader.insert_themes pid ths db)) /\
           In (pid, tid) (tbl_puzzle_themes (Loader.insert_themes pid ths db))).
Proof.
  induction ths as [|theme ths IH]; intros db Hwf Hpid.
  - cbn. split; [exact Hwf|]. split; [reflexivity|]. exists [], [].
    rewrite !app_nil_r. split; [reflexivity|]. split; [reflexivity|].
    split; [intros l []|intros name []].
  - rewrite insert_themes_cons.
    destruct (theme_step_spec pid theme db Hwf Hpid)
      as (Hwf1 & Hp1 & Ht1 & Hl1 & ts1 & ls1 & Hts1 & Hls1 & Hnew1).
    set (tid := fst (insert_theme theme db)) in *.
    set (db1 := insert_link pid tid (snd (insert_theme theme db))) in *.
    assert (Hpid1 : In pid (map c_puzzle_id (tbl_puzzles db1))) by (now rewrite Hp1).
    destruct (IH db1 Hwf1 Hpid1)
      as (Hwf' & Hp' & ts & ls & Hts & Hls & Hnew & Hcover).
    set (db' := Loader.insert_themes pid ths db1) in *.
    split; [exact Hwf'|]. split; [congruence|].
    exists (ts1 ++ ts), (ls1 ++ ls).
    split; [rewrite Hts, Hts1; now rewrite app_assoc|].
    split; [rewrite Hls, Hls1; now rewrite app_assoc|].
    split.
    + intros l Hl. apply in_app_iff in Hl as [Hl|Hl].
      * apply Hnew1 in Hl. subst l. split; [reflexivity|].
        exists theme. split; [now left|]. cbn [snd]. rewrite Hts.
        apply in_app_iff. now left.
      * destruct (Hnew l Hl) as (Hf & name & Hn & Hin).
        split; [exact Hf|]. exists name. split; [now right|exact Hin].
    + intros name [<-|Hn].
      * exists tid. split; [rewrite Hts|rewrite Hls]; apply in_app_iff; now left.
      * now apply Hcover.
Qed.

(** One puzzle of the batch. *)
Lemma insert_one_spec (db : Database) (data : Loader.puzzle_data) :
  well_formed db ->
  well_formed (Loader.insert_one db data) /\
  (forall id,
     find (fun row => String.eqb (c_puzzle_id row) id)
          (tbl_puzzles (Loader.insert_one db data))
     = find (fun row => String.eqb (c_puzzle_id row) id)
            (tbl_puzzles db ++ [fst data])) /\
  exists ts ls,
    tbl_themes (Loader.insert_one db data) = tbl_themes db ++ ts /\
    tbl_puzzle_themes (Loader.insert_one db data) = tbl_puzzle_themes db ++ ls /\
    (forall l, In l ls ->
       fst l = c_puzzle_id (fst data) /\
       exists name, In name (snd data) /\
                    In (snd l, name) (tbl_themes (Loader.insert_one db data))) /\
    (forall name, In name (snd data) ->
       exists tid,
         In (tid, name) (tbl_themes (Loader.insert_one db data)) /\
         In (c_puzzle_id (fst data), tid)
            (tbl_puzzle_themes (Loader.insert_one db data))).
Proof.
  intros Hwf. unfold Loader.insert_one.
  destruct (insert_puzzle_well_formed (fst data) db Hwf) as [Hwf0 Hpid].
  destruct (insert_puzzle_spec (fst data) db) as (Ht0 & Hl0 & Hp0).
  destruct (insert_themes_spec (c_puzzle_id (fst data)) (snd data) _ Hwf0 Hpid)
    as (Hwf' & Hp' & ts & ls & Hts & Hls & Hnew & Hcover).
  split; [exact Hwf'|]. split.
  - intros id. rewrite Hp'. destruct Hp0 as [[Hp0 Hin]|[Hp0 _]]; rewrite Hp0;
      [|reflexivity].
    rewrite find_app.
    destruct (find (fun row => String.eqb (c_puzzle_id row) id) (tbl_puzzles db))
      eqn:Hf; [reflexivity|].
    cbn [find]. destruct (String.eqb_spec (c_puzzle_id (fst data)) id) as [<-|];
      [|reflexivity].
    exfalso. apply in_map_iff in Hin as (r & Hid & Hin).
    pose proof (find_none _ _ Hf r Hin) as Hn. cbn in Hn.
    rewrite Hid, String.eqb_refl in Hn. discriminate.
  - exists ts, ls. split; [now rewrite Hts, Ht0|]. split; [now rewrite Hls, Hl0|].
    split; [exact Hnew|exact Hcover].
Qed.



Lemma insert_batch_well_formed (batch : list Loader.puzzle_data) :
  forall db, well_formed db -> well_formed (Loader._insert_batch batch db).
Proof.
  induction batch as [|data batch IH]; intros db Hwf; [exact Hwf|].
  change (Loader._insert_batch (data :: batch) db)
    with (Loader._insert_batch batch (Loader.insert_one db data)).
  apply IH. apply (proj1 (insert_one_spec db data Hwf)).
Qed.



(** *** On the example file *)

Lemma empty_well_formed : well_formed Store.empty.
Proof.
  unfold well_formed. cbn. repeat split; try constructor; contradiction.
Qed.




End StoreFacts.


(** ** The import loop *)

Module ImportFacts.
Section WithEngine.

Context (E : ChessEngine).
Context (piece_map_len : Board E -> Z).
Context (int : string -> option Z).

Import Loader.

Local Open Scope list_scope.

Abbreviation loop := (import_loop E piece_map_len int).
Abbreviation valid := (transformed E piece_map_len int).

Lemma insert_remaining_eq (batch : list puzzle_data) (count : Z) (db : Sql.Database) :
  insert_remaining (batch, count, db) = (count + Py.len batch, _insert_batch batch db).
Proof.
  destruct batch; [|reflexivity]. cbn. now rewrite Z.add_0_r.
Qed.

Lemma insert_batch_app (a b : list puzzle_data) (db : Sql.Database) :
  _insert_batch (a ++ b) db = _insert_batch b (_insert_batch a db).
Proof. apply fold_left_app. Qed.









End WithEngine.

(** *** On the example file, in batches of two *)


End ImportFacts.


(** ** From the file to the validator *)

Module PipelineFacts.
Section WithEngine.

Context (E : ChessEngine).
Context (piece_map_len : Board E -> Z).
Context (int : string -> option Z).

Import Loader.

Local Open Scope list_scope.

Abbreviation loop := (import_loop E piece_map_len int).
Abbreviation valid := (transformed E piece_map_len int).

Lemma insert_themes_puzzles (pid : string) (ths : list string) (db : Sql.Database) :
  Sql.tbl_puzzles (insert_themes pid ths db) = Sql.tbl_puzzles db.
Proof.
  revert db. induction ths as [|theme ths IH]; intros db; [reflexivity|].
  rewrite StoreFacts.insert_themes_cons, IH.
  destruct (StoreFacts.insert_link_spec pid (fst (Store.insert_theme theme db))
              (snd (Store.insert_theme theme db))) as (Hp & _).
  destruct (StoreFacts.insert_theme_spec theme db) as (Hp' & _).
  congruence.
Qed.

(** The rows of the store after an import were there or are rows of the
    batch. *)
Lemma insert_batch_rows (batch : list puzzle_data) :
  forall db r,
    In r (Sql.tbl_puzzles (_insert_batch batch db)) ->
    In r (Sql.tbl_puzzles db) \/ In r (map fst batch).
Proof.
  induction batch as [|data batch IH]; intros db r Hin; [now left|].
  change (_insert_batch (data :: batch) db)
    with (_insert_batch batch (insert_one db data)) in Hin.
  apply IH in Hin as [Hin|Hin]; [|right; now right].
  unfold insert_one in Hin. rewrite insert_themes_puzzles in Hin.
  destruct (StoreFacts.insert_puzzle_spec (fst data) db)
    as (_ & _ & [[Hp _]|[Hp _]]); rewrite Hp in Hin; [now left|].
  apply in_app_iff in Hin as [Hin|[<-|[]]]; [now left|right; now left].
Qed.

(** Whatever the limit, the loop imports a prefix of the accepted rows. *)
Lemma import_loop_prefix (batch_size : Z) (limit : option Z) (rows : list CsvRow) :
  forall batch count db,
    exists k,
      snd (insert_remaining (loop batch_size limit rows (batch, count, db)))
      = _insert_batch (firstn k (batch ++ valid rows)) db.
Proof.
  induction rows as [|row rows IH]; intros batch count db.
  - exists (length batch). cbn [import_loop transformed].
    rewrite ImportFacts.insert_remaining_eq, app_nil_r, firstn_all. reflexivity.
  - cbn [import_loop transformed].
    destruct (_transform_row E piece_map_len int row) as [puzzle|e]; [|apply IH].
    assert (Havail : batch ++ puzzle :: valid rows = (batch ++ [puzzle]) ++ valid rows)
      by (now rewrite <- app_assoc).
    rewrite Havail. unfold flush.
    destruct (batch_size <=? Py.len (batch ++ [puzzle])); cbn [fst snd].
    + destruct (limit_reached limit (count + Py.len (batch ++ [puzzle]))).
      * exists (length (batch ++ [puzzle])).
        rewrite ImportFacts.insert_remaining_eq. cbn [snd _insert_batch fold_left].
        rewrite <- (Nat.add_0_r (length (batch ++ [puzzle]))), firstn_app_2.
        cbn [firstn]. now rewrite app_nil_r.
      * destruct (IH [] (count + Py.len (batch ++ [puzzle]))
                     (_insert_batch (batch ++ [puzzle]) db)) as [k Hk].
        exists (length (batch ++ [puzzle]) + k)%nat.
        rewrite Hk, firstn_app_2. cbn [app]. symmetry.
        apply ImportFacts.insert_batch_app.
    + destruct (limit_reached limit count).
      * exists (length (batch ++ [puzzle])).
        rewrite ImportFacts.insert_remaining_eq. cbn [snd].
        rewrite <- (Nat.add_0_r (length (batch ++ [puzzle]))), firstn_app_2.
        cbn [firstn]. now rewrite app_nil_r.
      * apply IH.
Qed.

Lemma in_firstn {A} (k : nat) (l : list A) (x : A) : In x (firstn k l) -> In x l.
Proof.
  revert l. induction k as [|k IH]; intros l Hin; [contradiction|].
  destruct l as [|y l]; [contradiction|]. destruct Hin as [<-|Hin]; [now left|].
  right. now apply IH.
Qed.

Lemma valid_rows_transformed (rows : list CsvRow) (x : puzzle_data) :
  In x (valid rows) ->
  exists row, In row rows /\ _transform_row E piece_map_len int row = Returns x.
Proof.
  induction rows as [|row rows IH]; intros Hin; [contradiction|].
  cbn [transformed] in Hin.
  destruct (_transform_row E piece_map_len int row) as [y|e] eqn:Ht.
  - destruct Hin as [<-|Hin].
    + exists row. split; [now left|exact Ht].
    + destruct (IH Hin) as (r & Hr & Hx). exists r. split; [now right|exact Hx].
  - destruct (IH Hin) as (r & Hr & Hx). exists r. split; [now right|exact Hx].
Qed.

Lemma select_returns_stored rand db (d : Z) ph ex th (p : Puzzle) :
  Selector.select_puzzle rand db d ph ex th = Returns p ->
  exists r, In r (Sql.tbl_puzzles db) /\ p = Selector._row_to_puzzle db r.
Proof.
  intros Hs. rewrite SelectorFacts.select_is_cascade in Hs.
  unfold Cascade.select in Hs.
  destruct (SelectorMore.first_hit_in _ _ _ Hs) as (t & _ & Ht).
  unfold Cascade.run in Ht.
  destruct (SelectorFacts.query_some _ _ _ _ _ _ _ _ Ht)
    as (cs & r & j & _ & Hin & _ & -> & _).
  exists r. now split.
Qed.

(** X29: every puzzle served from an imported store can be set up. On the
    store that [import_from_lichess] builds from an empty one, whatever the
    limit and the batch size, puzzle ids are unique, and a puzzle that
    [select_puzzle] returns has the id, the position and the moves of a row
    of the file that [_transform_row] accepts: its position parses, its
    piece count is that of the position, it has a first move, and
    constructing a validator for it succeeds as soon as that move is
    well-formed and can be pushed. *)
Theorem imported_puzzles_can_be_set_up
    (batch_size : Z) (rows : list CsvRow) (limit : option Z) :
  let db := snd (import_from_lichess E piece_map_len int batch_size rows limit
                   Store.empty) in
  Lookup.primary_key db /\
  forall rand d ph ex th p,
    Selector.select_puzzle rand db d ph ex th = Returns p ->
    (exists row, In row rows /\
                 (exists data, _transform_row E piece_map_len int row = Returns data) /\
                 puzzle_id p = PuzzleId row /\ fen p = FEN row /\
                 moves p = PyStr.split_ws (Moves row)) /\
    exists board first_move,
      Board_of_fen E (fen p) = Some board /\
      piece_count p = piece_map_len board /\
      Py.index (moves p) 0 = Some first_move /\
      forall move, from_uci E first_move = Some move ->
                   push_ok E board move = true ->
                   exists v, Validator.__init__ E p = Returns v.
Proof.
  cbv zeta. unfold import_from_lichess.
  destruct (import_loop_prefix batch_size limit rows [] 0 Store.empty) as [k Hk].
  rewrite Hk. cbn [app]. split.
  - destruct (StoreFacts.insert_batch_well_formed (firstn k (valid rows))
                Store.empty StoreFacts.empty_well_formed) as (Hkey & _).
    exact Hkey.
  - intros rand d ph ex th p Hs.
    destruct (select_returns_stored _ _ _ _ _ _ _ Hs) as (r & Hin & ->).
    apply insert_batch_rows in Hin as [[]|Hin].
    apply in_map_iff in Hin as ([r' ths] & Hr & Hin). cbn in Hr. subst r'.
    apply in_firstn in Hin.
    destruct (valid_rows_transformed rows _ Hin) as (row & Hrow & Ht).
    destruct (LoaderFacts.transform_row_returns E piece_map_len int row r ths Ht)
      as (board & a & b & c & f & Hb & Hm & _ & _ & _ & _ & _ & Hr).
    set (db := _insert_batch (firstn k (valid rows)) Store.empty).
    assert (Hmoves : moves (Selector._row_to_puzzle db r) = PyStr.split_ws (Moves row)).
    { rewrite Hr. cbn [moves Selector._row_to_puzzle Sql.c_moves].
      apply LoaderFacts.split_ws_join. intros w. apply LoaderFacts.split_ws_words. }
    assert (Hfen : fen (Selector._row_to_puzzle db r) = FEN row)
      by (rewrite Hr; reflexivity).
    split.
    + exists row. split; [exact Hrow|]. split; [eexists; exact Ht|].
      split; [rewrite Hr; reflexivity|]. now split.
    + destruct (PyStr.split_ws (Moves row)) as [|m0 ms] eqn:Hsplit; [contradiction|].
      exists board, m0. split; [now rewrite Hfen|].
      split; [rewrite Hr; reflexivity|].
      split; [rewrite Hmoves; apply index_cons_0|].
      intros move Hmove Hpush.
      unfold Validator.__init__, Validator._setup_board.
      rewrite Hfen, Hb, Hmoves, index_cons_0, Hmove, Hpush. eexists. reflexivity.
Qed.

End WithEngine.

(** *** On the example file *)

Lemma imported_puzzles_can_be_set_up_witness :
  exists board first_move,
    MiniChess.Board_of_fen (Loader.FEN (Csv.csv_row "p1" "e2e4 e7e5" "1500" "fork short"))
      = Some board /\
    Py.index ["e2e4"; "e7e5"] 0 = Some first_move.
Proof.
  destruct (proj2 (imported_puzzles_can_be_set_up MiniChess.engine Csv.piece_map_len
                     Csv.decimal 2 Csv.rows None)
              Examples.draw0 2 None [] None
              (Selector._row_to_puzzle
                 (snd (Loader.import_from_lichess MiniChess.engine Csv.piece_map_len
                         Csv.decimal 2 Csv.rows None Store.empty))
                 Csv.stored_p1))
    as (_ & board & first_move & Hb & _ & Hi & _).
  - vm_compute. reflexivity.
  - exists board, first_move. split; [exact Hb|]. exact Hi.
Defined.

End PipelineFacts.
